(** * MAE-3403 HW 6: resistor networks and pipe networks

    A shallow embedding of the Python sources of the repository
    ([Problem 1.py], [Problem_1_Test_2.py], [Problem 2.py], [HW6_1_2_OOP.py]
    and [HW6_2_OOP.py]) and the properties established about them.

    Conventions of the embedding.
    - A Python [float] is a binary64 number: Rocq's primitive [float], whose
      [+], [-], [*], [/] and comparisons are the IEEE 754 operations that
      Python uses.  A Python [int] that meets a float (the literals [0],
      [1], [-1], [2], [4], [10], [64], [2000], [4000]) is written as the
      float it converts to.
    - [x / y] on Python floats raises [ZeroDivisionError] at a zero divisor:
      [truediv].  The values that [fsolve] hands to a callback are numpy
      scalars, for which the same division warns and returns [inf] or
      [nan]; the embedding takes all numbers as built-in floats.  Inside
      the residual that [fsolve] evaluates on an array, [/] is the IEEE
      division.
    - A call either returns a value or raises: [pyresult].  [None] is an
      ordinary value ([option]).
    - A [str] is a [string]; the characters are the code points below 256.
    - Objects that are mutated while they are shared (the pipes of a pipe
      network) live in a store and are referred to by address.  The
      resistors of a network are held by that network only: they are the
      elements of its list.
    - What the sources import ([float()] on text, [**], [np.log10],
      [scipy.optimize.fsolve], [random.normalvariate]) is a parameter of
      the functions that use it.
    - [print] calls are left out. *)

From Stdlib Require Import List String Ascii ZArith Lia Bool Floats.
Import ListNotations.
Set Warnings "-inexact-float".

(** ** The Python runtime the sources rely on *)
Module Py.

Inductive exn : Set :=
| IndexError
| AttributeError
| TypeError
| ValueError
| ZeroDivisionError
| OverflowError.

Inductive pyresult (A : Type) : Type :=
| Returns (a : A)
| Raises (e : exn).
Arguments Returns {A} a.
Arguments Raises {A} e.

Definition bind {A B : Type} (m : pyresult A) (k : A -> pyresult B) : pyresult B :=
  match m with
  | Returns a => k a
  | Raises e => Raises e
  end.

(** [l[n]] for a list and an index [n >= 0]. *)
Definition getitem {A : Type} (l : list A) (n : nat) : pyresult A :=
  match nth_error l n with
  | Some a => Returns a
  | None => Raises IndexError
  end.

(** [l[n] = a] on a position that exists. *)
Fixpoint setitem {A : Type} (l : list A) (n : nat) (a : A) : list A :=
  match l, n with
  | [], _ => []
  | _ :: l', O => a :: l'
  | x :: l', S n' => x :: setitem l' n' a
  end.

(** [x / y] on floats: a zero divisor raises. *)
Definition truediv (x y : float) : pyresult float :=
  if PrimFloat.eqb y 0%float then Raises ZeroDivisionError
  else Returns (PrimFloat.div x y).

(** [sum(l)]: the additions start from the int [0] and go left to right.
    (From Python 3.12 on, [sum] compensates the rounding errors of
    built-in floats, which can change the last digit; no property below
    rests on that digit.) *)
Definition sum (l : list float) : float :=
  fold_left PrimFloat.add l 0%float.

(** *** [str] methods *)

(** [s[::-1]] *)
Definition reversed (s : string) : string :=
  string_of_list_ascii (rev (list_ascii_of_string s)).

(** The cased characters below code point 256: [A-Z], and the Latin-1
    capitals 192..222 without the multiplication sign 215. *)
Definition lower_char (c : ascii) : ascii :=
  let n := N_of_ascii c in
  if ((65 <=? n) && (n <=? 90))%N then ascii_of_N (n + 32)
  else if ((192 <=? n) && (n <=? 222) && negb (n =? 215))%N then ascii_of_N (n + 32)
  else c.

(** [s.lower()] *)
Fixpoint lower (s : string) : string :=
  match s with
  | EmptyString => EmptyString
  | String c s' => String (lower_char c) (lower s')
  end.

(** [c.isspace()] below code point 256. *)
Definition isspace (c : ascii) : bool :=
  let n := N_of_ascii c in
  (((9 <=? n) && (n <=? 13)) || ((28 <=? n) && (n <=? 32))
   || (n =? 133) || (n =? 160))%N.

Fixpoint lstrip (s : string) : string :=
  match s with
  | EmptyString => EmptyString
  | String c s' => if isspace c then lstrip s' else s
  end.

(** [s.strip()] *)
Definition strip (s : string) : string :=
  reversed (lstrip (reversed (lstrip s))).

(** [needle in hay] *)
Fixpoint contains (needle hay : string) : bool :=
  if prefix needle hay then true
  else match hay with
       | EmptyString => false
       | String _ hay' => contains needle hay'
       end.

(** [s.split(sep)] for a one-character separator. *)
Fixpoint split (sep : ascii) (s : string) : list string :=
  match s with
  | EmptyString => [EmptyString]
  | String c s' =>
      if Ascii.eqb c sep then EmptyString :: split sep s'
      else match split sep s' with
           | [] => [String c EmptyString]
           | w :: ws => String c w :: ws
           end
  end.

(** [s.replace(" ", "")] *)
Fixpoint remove_spaces (s : string) : string :=
  match s with
  | EmptyString => EmptyString
  | String c s' =>
      if Ascii.eqb c " "%char then remove_spaces s' else String c (remove_spaces s')
  end.

(** [min(a, b)] and [max(a, b)] on [str]: the first argument unless the
    second is strictly smaller (strictly greater); [<] on [str] compares
    code points lexicographically. *)
Definition min (a b : string) : string := if String.ltb b a then b else a.
Definition max (a b : string) : string := if String.ltb a b then b else a.

End Py.

Export Py.

Declare Scope py_scope.
Delimit Scope py_scope with py.
Notation "x <- m ;; k" := (Py.bind m (fun x => k))
  (at level 61, m at next level, right associativity) : py_scope.

Local Open Scope py_scope.
Local Open Scope string_scope.
Local Open Scope list_scope.

(** ** The resistor network of [Problem 1.py]

    [Problem_1_Test_2.py] has the same classes; its [GetElementDeltaV],
    [GetLoopVoltageDrops], [GetResistorByName], [MakeVSource] and [MakeLoop]
    are the ones below, line for line.  What differs there is
    [GetKirchoffVals] and [MakeResistor] (module [Problem_1_Test_2]). *)
Module Problem_1.

Module Resistor.
Record t : Set := Build
  { Resistance : float; Current : float; Name : string }.

(** [Resistor(R=1.0, i=0.0, name='ab')] *)
Definition __init__ : t :=
  {| Resistance := 1.0; Current := 0.0; Name := "ab" |}.

Definition set_Resistance (self : t) (R : float) : t :=
  {| Resistance := R; Current := Current self; Name := Name self |}.
Definition set_Current (self : t) (i : float) : t :=
  {| Resistance := Resistance self; Current := i; Name := Name self |}.
Definition set_Name (self : t) (name : string) : t :=
  {| Resistance := Resistance self; Current := Current self; Name := name |}.

Definition DeltaV (self : t) : float :=
  (Current self * Resistance self)%float.
End Resistor.

Module VoltageSource.
(** [Type] is not set by the constructor: [MakeVSource] adds it. *)
Record t : Set := Build
  { Voltage : float; Name : string; Type_ : option string }.

(** [VoltageSource(V=12.0, name='ab')] *)
Definition __init__ : t :=
  {| Voltage := 12.0; Name := "ab"; Type_ := None |}.

Definition set_Voltage (self : t) (V : float) : t :=
  {| Voltage := V; Name := Name self; Type_ := Type_ self |}.
Definition set_Name (self : t) (name : string) : t :=
  {| Voltage := Voltage self; Name := name; Type_ := Type_ self |}.
Definition set_Type (self : t) (ty : string) : t :=
  {| Voltage := Voltage self; Name := Name self; Type_ := Some ty |}.
End VoltageSource.

Module Loop.
(** [Name] is not set by the constructor: [MakeLoop] adds it. *)
Record t : Set := Build
  { Name : option string; Nodes : list string }.

(** [Loop()] *)
Definition __init__ : t := {| Name := None; Nodes := [] |}.

Definition set_Name (self : t) (name : string) : t :=
  {| Name := Some name; Nodes := Nodes self |}.
Definition set_Nodes (self : t) (nodes : list string) : t :=
  {| Name := Name self; Nodes := nodes |}.
End Loop.

Record ResistorNetwork : Set := Build_ResistorNetwork
  { Loops : list Loop.t;
    Resistors : list Resistor.t;
    VSources : list VoltageSource.t }.

(** [ResistorNetwork()] *)
Definition __init__ : ResistorNetwork :=
  {| Loops := []; Resistors := []; VSources := [] |}.

Definition set_Resistors (self : ResistorNetwork) (rs : list Resistor.t) :=
  {| Loops := Loops self; Resistors := rs; VSources := VSources self |}.
Definition set_VSources (self : ResistorNetwork) (vs : list VoltageSource.t) :=
  {| Loops := Loops self; Resistors := Resistors self; VSources := vs |}.
Definition set_Loops (self : ResistorNetwork) (ls : list Loop.t) :=
  {| Loops := ls; Resistors := Resistors self; VSources := VSources self |}.

(** *** Element lookup *)

(** The [for r in self.Resistors] loop of [GetResistorByName]; [k] is the
    position of the head of [rs] in [self.Resistors]. *)
Fixpoint GetResistorByName_for (rs : list Resistor.t) (k : nat) (name : string)
  : option nat :=
  match rs with
  | [] => None
  | r :: rs' =>
      if Resistor.Name r =? name then Some k
      else GetResistorByName_for rs' (S k) name
  end.

(** The resistor object is given by its position in [self.Resistors];
    falling off the loop returns [None]. *)
Definition GetResistorByName (self : ResistorNetwork) (name : string)
  : pyresult (option nat) :=
  Returns (GetResistorByName_for (Resistors self) 0 name).

(** [self.GetResistorByName(name).Current = v]: the right-hand side has
    been evaluated by the caller; assigning an attribute of [None] raises
    [AttributeError]. *)
Definition set_Current_by_name (self : ResistorNetwork) (name : string) (v : float)
  : pyresult ResistorNetwork :=
  r <- GetResistorByName self name ;;
  match r with
  | None => Raises AttributeError
  | Some k =>
      obj <- getitem (Resistors self) k ;;
      Returns (set_Resistors self (setitem (Resistors self) k (Resistor.set_Current obj v)))
  end.

(** The two loops of [GetElementDeltaV]. *)
Fixpoint GetElementDeltaV_resistors (rs : list Resistor.t) (name : string)
  : option float :=
  match rs with
  | [] => None
  | r :: rs' =>
      if name =? Resistor.Name r then Some (- Resistor.DeltaV r)%float
      else if reversed name =? Resistor.Name r then Some (- Resistor.DeltaV r)%float
      else GetElementDeltaV_resistors rs' name
  end.

Fixpoint GetElementDeltaV_sources (vs : list VoltageSource.t) (name : string)
  : option float :=
  match vs with
  | [] => None
  | v :: vs' =>
      if name =? VoltageSource.Name v then Some (VoltageSource.Voltage v)
      else if reversed name =? VoltageSource.Name v then Some (VoltageSource.Voltage v)
      else GetElementDeltaV_sources vs' name
  end.

Definition GetElementDeltaV (self : ResistorNetwork) (name : string)
  : pyresult (option float) :=
  match GetElementDeltaV_resistors (Resistors self) name with
  | Some dv => Returns (Some dv)
  | None => Returns (GetElementDeltaV_sources (VSources self) name)
  end.

(** *** Loop voltage drops *)

(** The name of the segment leaving node [n] of a loop. *)
Definition segment_name (Nodes : list string) (n : nat) : pyresult string :=
  if (n =? List.length Nodes - 1)%nat then
    a <- getitem Nodes 0 ;; b <- getitem Nodes n ;; Returns (a ++ b)%string
  else
    a <- getitem Nodes n ;; b <- getitem Nodes (n + 1) ;; Returns (a ++ b)%string.

(** [for n in range(len(L.Nodes))]; adding [None] raises [TypeError]. *)
Fixpoint loopDeltaV_for (self : ResistorNetwork) (Nodes : list string)
  (ns : list nat) (loopDeltaV : float) : pyresult float :=
  match ns with
  | [] => Returns loopDeltaV
  | n :: ns' =>
      name <- segment_name Nodes n ;;
      dv <- GetElementDeltaV self name ;;
      match dv with
      | None => Raises TypeError
      | Some v => loopDeltaV_for self Nodes ns' (loopDeltaV + v)%float
      end
  end.

(** [for L in self.Loops] *)
Fixpoint GetLoopVoltageDrops_for (self : ResistorNetwork) (Ls : list Loop.t)
  (loopVoltages : list float) : pyresult (list float) :=
  match Ls with
  | [] => Returns loopVoltages
  | L :: Ls' =>
      let Nodes := Loop.Nodes L in
      loopDeltaV <- loopDeltaV_for self Nodes (seq 0 (List.length Nodes)) 0%float ;;
      GetLoopVoltageDrops_for self Ls' (loopVoltages ++ [loopDeltaV])
  end.

Definition GetLoopVoltageDrops (self : ResistorNetwork) : pyresult (list float) :=
  GetLoopVoltageDrops_for self (Loops self) [].

(** *** The residual function *)
Definition GetKirchoffVals (self : ResistorNetwork) (i : list float)
  : pyresult (list float * ResistorNetwork) :=
  v <- getitem i 0 ;; self <- set_Current_by_name self "ad" v ;;
  v <- getitem i 0 ;; self <- set_Current_by_name self "bc" v ;;
  v <- getitem i 2 ;; self <- set_Current_by_name self "cd" v ;;
  v <- getitem i 1 ;; self <- set_Current_by_name self "ce" v ;;
  i0 <- getitem i 0 ;; i1 <- getitem i 1 ;; i2 <- getitem i 2 ;;
  let Node_c_Current := sum [i0; i1; (- i2)%float] in
  KVL <- GetLoopVoltageDrops self ;;
  let KVL := KVL ++ [Node_c_Current] in
  Returns (KVL, self).

(** *** Reading a network from a file *)
Section Parsing.

(** [float(s)]: the parser of Python's numeric literals; it raises
    [ValueError] on text that is no number. *)
Variable float_of_str : string -> pyresult float.

(** [txt.split('=')[1].strip()] *)
Definition field_value (txt : string) : pyresult string :=
  v <- getitem (split "=" txt) 1 ;; Returns (strip v).

(** The [while] loop of [MakeResistor].  [rest] is [Txt[N:]]: it is
    empty exactly when [N < len(Txt)] fails. *)
Fixpoint MakeResistor_while (rest : list string) (N : nat) (R : Resistor.t)
  : pyresult (Resistor.t * nat) :=
  match rest with
  | [] => Returns (R, N)
  | line :: rest' =>
      let txt := lower line in
      if contains "resistor" txt then Returns (R, N)
      else
        R <- (if contains "name" txt
              then v <- field_value txt ;; Returns (Resistor.set_Name R v)
              else Returns R) ;;
        R <- (if contains "resistance" txt
              then v <- field_value txt ;; x <- float_of_str v ;;
                   Returns (Resistor.set_Resistance R x)
              else Returns R) ;;
        MakeResistor_while rest' (N + 1) R
  end.

Definition MakeResistor (self : ResistorNetwork) (N : nat) (Txt : list string)
  : pyresult (ResistorNetwork * nat) :=
  let R := Resistor.__init__ in
  let N := N + 1 in
  if (N <? List.length Txt)%nat then
    RN <- MakeResistor_while (skipn N Txt) N R ;;
    Returns (set_Resistors self (Resistors self ++ [fst RN]), snd RN)
  else Returns (self, N).

(** The [while] loop of [MakeVSource]: [txt = Txt[N].lower()] is
    evaluated with no bound check, so an empty [rest = Txt[N:]] raises
    [IndexError]. *)
Fixpoint MakeVSource_while (rest : list string) (N : nat) (VS : VoltageSource.t)
  : pyresult (VoltageSource.t * nat) :=
  match rest with
  | [] => Raises IndexError
  | line :: rest' =>
      let txt := lower line in
      if contains "source" txt then Returns (VS, N)
      else
        VS <- (if contains "name" txt
               then v <- field_value txt ;; Returns (VoltageSource.set_Name VS v)
               else Returns VS) ;;
        VS <- (if contains "value" txt
               then v <- field_value txt ;; x <- float_of_str v ;;
                    Returns (VoltageSource.set_Voltage VS x)
               else Returns VS) ;;
        VS <- (if contains "type" txt
               then v <- field_value txt ;; Returns (VoltageSource.set_Type VS v)
               else Returns VS) ;;
        MakeVSource_while rest' (N + 1) VS
  end.

Definition MakeVSource (self : ResistorNetwork) (N : nat) (Txt : list string)
  : pyresult (ResistorNetwork * nat) :=
  let VS := VoltageSource.__init__ in
  let N := N + 1 in
  VN <- MakeVSource_while (skipn N Txt) N VS ;;
  Returns (set_VSources self (VSources self ++ [fst VN]), snd VN).

(** The [while] loop of [MakeLoop], unchecked like that of
    [MakeVSource]. *)
Fixpoint MakeLoop_while (rest : list string) (N : nat) (L : Loop.t)
  : pyresult (Loop.t * nat) :=
  match rest with
  | [] => Raises IndexError
  | line :: rest' =>
      let txt := lower line in
      if contains "loop" txt then Returns (L, N)
      else
        L <- (if contains "name" txt
              then v <- field_value txt ;; Returns (Loop.set_Name L v)
              else Returns L) ;;
        L <- (if contains "nodes" txt
              then let txt := remove_spaces txt in
                   v <- field_value txt ;; Returns (Loop.set_Nodes L (split "," v))
              else Returns L) ;;
        MakeLoop_while rest' (N + 1) L
  end.

Definition MakeLoop (self : ResistorNetwork) (N : nat) (Txt : list string)
  : pyresult (ResistorNetwork * nat) :=
  let L := Loop.__init__ in
  let N := N + 1 in
  LN <- MakeLoop_while (skipn N Txt) N L ;;
  Returns (set_Loops self (Loops self ++ [fst LN]), snd LN).

(** One turn of the [while LineNum < FileLength] loop of
    [BuildNetworkFromFile], up to [LineNum += 1]. *)
Definition BuildNetwork_line (self : ResistorNetwork) (LineNum : nat)
  (FileTxt : list string) : pyresult (ResistorNetwork * nat) :=
  line <- getitem FileTxt LineNum ;;
  let lineTxt := strip (lower line) in
  if (String.length lineTxt <? 1)%nat then Returns (self, LineNum)
  else if match String.get 0 lineTxt with
          | Some c => Ascii.eqb c "#"%char
          | None => false
          end then Returns (self, LineNum)
  else if contains "resistor" lineTxt then MakeResistor self LineNum FileTxt
  else if contains "source" lineTxt then MakeVSource self LineNum FileTxt
  else if contains "loop" lineTxt then MakeLoop self LineNum FileTxt
  else Returns (self, LineNum).

(** The loop itself.  Every turn moves [LineNum] forward, so
    [len(FileTxt)] turns are enough; [None] stands for a run that did
    not finish within [fuel] turns. *)
Fixpoint BuildNetwork_while (fuel : nat) (self : ResistorNetwork) (LineNum : nat)
  (FileTxt : list string) : option (pyresult ResistorNetwork) :=
  if (LineNum <? List.length FileTxt)%nat then
    match fuel with
    | O => None
    | S fuel' =>
        match BuildNetwork_line self LineNum FileTxt with
        | Raises e => Some (Raises e)
        | Returns (self', N) => BuildNetwork_while fuel' self' (N + 1) FileTxt
        end
    end
  else Some (Returns self).

(** [BuildNetworkFromFile], from the text [open(filename).read()]
    returned. *)
Definition BuildNetworkFromFile (text : string) : option (pyresult ResistorNetwork) :=
  let FileTxt := split "010"%char text in
  BuildNetwork_while (List.length FileTxt) __init__ 0 FileTxt.

End Parsing.

End Problem_1.


(** ** [Problem_1_Test_2.py]: the methods that differ *)
Module Problem_1_Test_2.
Import Problem_1.

(** The body sets the currents as in [Problem 1.py], computes the loop
    voltage drops and the node current, and then returns
    [np.zeros_like(i)]. *)
Definition GetKirchoffVals (self : ResistorNetwork) (i : list float)
  : pyresult (list float * ResistorNetwork) :=
  v <- getitem i 0 ;; self <- set_Current_by_name self "ad" v ;;
  v <- getitem i 0 ;; self <- set_Current_by_name self "bc" v ;;
  v <- getitem i 2 ;; self <- set_Current_by_name self "cd" v ;;
  v <- getitem i 1 ;; self <- set_Current_by_name self "ce" v ;;
  i0 <- getitem i 0 ;; i1 <- getitem i 1 ;; i2 <- getitem i 2 ;;
  let Node_c_Current := sum [i0; i1; (- i2)%float] in
  KVL <- GetLoopVoltageDrops self ;;
  let KVL := KVL ++ [Node_c_Current] in
  Returns (repeat 0%float (List.length i), self).

(** *** Reading a network from a file *)
Section Parsing.

Variable float_of_str : string -> pyresult float.

(** The [while "resistor" not in txt] loop of [MakeResistor].  [rest] is
    [Txt[N:]] and [txt] is the lowered head of it: the loop is entered
    with [N < len(Txt)], and a turn that moves [N] to [len(Txt)] leaves
    by [break], so the outer [else: break] (the empty [rest]) is not
    reached from there. *)
Fixpoint MakeResistor_while (rest : list string) (N : nat) (R : Resistor.t)
  : pyresult (Resistor.t * nat) :=
  match rest with
  | [] => Returns (R, N)
  | line :: rest' =>
      let txt := lower line in
      if contains "resistor" txt then Returns (R, N)
      else
        R <- (if contains "name" txt
              then v <- field_value txt ;; Returns (Resistor.set_Name R v)
              else Returns R) ;;
        R <- (if contains "resistance" txt
              then v <- field_value txt ;; x <- float_of_str v ;;
                   Returns (Resistor.set_Resistance R x)
              else Returns R) ;;
        let N := N + 1 in
        match rest' with
        | [] => Returns (R, N)
        | _ :: _ => MakeResistor_while rest' N R
        end
  end.

(** Unlike [Problem 1.py], the method appends [R] on every path. *)
Definition MakeResistor (self : ResistorNetwork) (N : nat) (Txt : list string)
  : pyresult (ResistorNetwork * nat) :=
  let R := Resistor.__init__ in
  let N := N + 1 in
  RN <- (if (N <? List.length Txt)%nat
         then MakeResistor_while (skipn N Txt) N R
         else Returns (R, N)) ;;
  Returns (set_Resistors self (Resistors self ++ [fst RN]), snd RN).

(** [BuildNetworkFromFile] and its loop have the text of [Problem 1.py],
    and so have [MakeVSource] and [MakeLoop]. *)
Definition BuildNetwork_line (self : ResistorNetwork) (LineNum : nat)
  (FileTxt : list string) : pyresult (ResistorNetwork * nat) :=
  line <- getitem FileTxt LineNum ;;
  let lineTxt := strip (lower line) in
  if (String.length lineTxt <? 1)%nat then Returns (self, LineNum)
  else if match String.get 0 lineTxt with
          | Some c => Ascii.eqb c "#"%char
          | None => false
          end then Returns (self, LineNum)
  else if contains "resistor" lineTxt then MakeResistor self LineNum FileTxt
  else if contains "source" lineTxt then MakeVSource float_of_str self LineNum FileTxt
  else if contains "loop" lineTxt then MakeLoop self LineNum FileTxt
  else Returns (self, LineNum).

Fixpoint BuildNetwork_while (fuel : nat) (self : ResistorNetwork) (LineNum : nat)
  (FileTxt : list string) : option (pyresult ResistorNetwork) :=
  if (LineNum <? List.length FileTxt)%nat then
    match fuel with
    | O => None
    | S fuel' =>
        match BuildNetwork_line self LineNum FileTxt with
        | Raises e => Some (Raises e)
        | Returns (self', N) => BuildNetwork_while fuel' self' (N + 1) FileTxt
        end
    end
  else Some (Returns self).

Definition BuildNetworkFromFile (text : string) : option (pyresult ResistorNetwork) :=
  let FileTxt := split "010"%char text in
  BuildNetwork_while (List.length FileTxt) __init__ 0 FileTxt.

End Parsing.

End Problem_1_Test_2.

(** ** [Problem 2.py], class [ResistorNetwork2]

    The class extends the [ResistorNetwork] of [Problem_1_Test_2.py] and
    overrides [GetKirchoffVals]. *)
Module Problem_2_ResistorNetwork2.
Import Problem_1.

Definition GetKirchoffVals (self : ResistorNetwork) (i : list float)
  : pyresult (list float * ResistorNetwork) :=
  v <- getitem i 0 ;; self <- set_Current_by_name self "ad" v ;;
  v <- getitem i 0 ;; self <- set_Current_by_name self "bc" v ;;
  v <- getitem i 4 ;; self <- set_Current_by_name self "parallel_resistor" v ;;
  v <- getitem i 1 ;; self <- set_Current_by_name self "ce" v ;;
  i0 <- getitem i 0 ;; i1 <- getitem i 1 ;; i2 <- getitem i 2 ;;
  let Node_c_Current := sum [i0; i1; (- i2)%float] in
  KVL <- GetLoopVoltageDrops self ;;
  let KVL := KVL ++ [Node_c_Current] in
  Returns (repeat 0%float (List.length i), self).

End Problem_2_ResistorNetwork2.

(** ** [HW6_1_2_OOP.py], class [ResistorNetwork2]

    The class extends the [ResistorNetwork] of [HW6_1_OOP.py], which is not
    among the sources: the two inherited methods its [GetKirchoffVals]
    calls are parameters here.  [Problem 1.py] holds the repository's
    version of them. *)
Module HW6_1_2_OOP.
Import Problem_1.

Section Inherited.

(** [self.GetResistorByName(name).Current = v] and
    [self.GetLoopVoltageDrops()] of the base class. *)
Variable set_Current_by_name : ResistorNetwork -> string -> float -> pyresult ResistorNetwork.
Variable GetLoopVoltageDrops : ResistorNetwork -> pyresult (list float).

(** [result = np.zeros(len(KVL) + 1)] is filled with [KVL] from the
    left, which leaves its last entry zero. *)
Definition GetKirchoffVals (self : ResistorNetwork) (i : list float)
  : pyresult (list float * ResistorNetwork) :=
  v <- getitem i 0 ;; self <- set_Current_by_name self "ad" v ;;
  v <- getitem i 0 ;; self <- set_Current_by_name self "bc" v ;;
  v <- getitem i 2 ;; self <- set_Current_by_name self "cd" v ;;
  v <- getitem i 1 ;; self <- set_Current_by_name self "ce" v ;;
  v <- getitem i 3 ;; self <- set_Current_by_name self "df" v ;;
  i0 <- getitem i 0 ;; i1 <- getitem i 1 ;; i2 <- getitem i 2 ;; i3 <- getitem i 3 ;;
  let Node_c_Current := sum [i0; i1; (- i2)%float; (- i3)%float] in
  KVL <- GetLoopVoltageDrops self ;;
  let KVL := KVL ++ [Node_c_Current] in
  let result := KVL ++ [0%float] in
  Returns (result, self).

End Inherited.

End HW6_1_2_OOP.


(** ** The pipe network of [Problem 2.py] and [HW6_2_OOP.py]

    The two files hold the same classes.  They differ in [Pipe.Re],
    [Pipe.frictionHeadLoss], [Loop.getLoopHeadLoss] and
    [PipeNetwork.findFlowRates]; the functions below take the file as the
    parameter [src] and branch on it where the texts differ. *)
Module Pipes.

Inductive source_file : Set :=
| Problem_2_py
| HW6_2_OOP_py.

(** What the sources import and the embedding does not define.
    - [pow2 x] is [x ** 2] on a float: the C library's [pow], after which
      Python raises [OverflowError] on a result out of range.
    - [pow_half f] is [f ** 0.5] and [log10] is [np.log10], both on the
      one-element array that [fsolve] passes to its function: they return.
    - [fsolve f x0] is [scipy.optimize.fsolve(f, x0)[0]] for a function of
      one unknown.
    - [normalvariate mu sigma] is [random.normalvariate(mu, sigma)], which
      draws from the generator's state [RNG]. *)
Record Env : Type := Build_Env
  { RNG : Type;
    pow2 : float -> pyresult float;
    pow_half : float -> float;
    log10 : float -> float;
    fsolve : (float -> float) -> float -> float;
    normalvariate : float -> float -> RNG -> float * RNG }.

(** [math.pi] *)
Definition pi : float := 0x1.921fb54442d18p+1%float.

Module Fluid.
Record t : Set := Build { mu : float; rho : float; nu : float }.

(** [Fluid(mu, rho)] *)
Definition __init__ (mu rho : float) : pyresult t :=
  nu <- truediv mu rho ;;
  Returns {| mu := mu; rho := rho; nu := nu |}.
End Fluid.

Module Pipe.
Record t : Set := Build
  { startNode : string;
    endNode : string;
    length : float;
    r : float;
    fluid : Fluid.t;
    d : float;
    relrough : float;
    A : float;
    Q : float;
    vel : float;
    reynolds : float }.

Definition set_Q (self : t) (x : float) : t :=
  {| startNode := startNode self; endNode := endNode self; length := length self;
     r := r self; fluid := fluid self; d := d self; relrough := relrough self;
     A := A self; Q := x; vel := vel self; reynolds := reynolds self |}.
Definition set_vel (self : t) (x : float) : t :=
  {| startNode := startNode self; endNode := endNode self; length := length self;
     r := r self; fluid := fluid self; d := d self; relrough := relrough self;
     A := A self; Q := Q self; vel := x; reynolds := reynolds self |}.
Definition set_reynolds (self : t) (x : float) : t :=
  {| startNode := startNode self; endNode := endNode self; length := length self;
     r := r self; fluid := fluid self; d := d self; relrough := relrough self;
     A := A self; Q := Q self; vel := vel self; reynolds := x |}.
End Pipe.

Module Node.
(** [pipes] holds the addresses of the connected pipes. *)
Record t : Set := Build { name : string; pipes : list nat; extFlow : float }.
End Node.

Module Loop.
(** [pipes] holds the addresses of the loop's pipes, in order. *)
Record t : Set := Build { name : string; pipes : list nat }.
End Loop.

(** [Fluid_] is the attribute [Fluid]; [pipes] holds addresses. *)
Record PipeNetwork : Set := Build_PipeNetwork
  { loops : list Loop.t;
    nodes : list Node.t;
    Fluid_ : Fluid.t;
    pipes : list nat }.

Section Methods.

Variable E : Env.
Variable src : source_file.

(** The store of [Pipe] objects, by address, and the state of the random
    number generator. *)
Record state : Type := Build_state
  { heap : nat -> Pipe.t;
    rng : RNG E }.

(** A method: it reads and writes the state, and returns or raises.  A
    run that raises is followed no further: it carries no state. *)
Definition M (X : Type) : Type := state -> pyresult (X * state).

Definition ret {X : Type} (x : X) : M X := fun s => Returns (x, s).

Definition bindM {X Y : Type} (m : M X) (k : X -> M Y) : M Y :=
  fun s =>
    match m s with
    | Returns (x, s') => k x s'
    | Raises e => Raises e
    end.

Definition lift {X : Type} (m : pyresult X) : M X :=
  fun s =>
    match m with
    | Returns x => Returns (x, s)
    | Raises e => Raises e
    end.

Notation "x <~ m ;; k" := (bindM m (fun x => k))
  (at level 61, m at next level, right associativity).

(** The object at address [self]. *)
Definition deref (self : nat) : M Pipe.t := fun s => Returns (heap s self, s).

Definition update (h : nat -> Pipe.t) (self : nat) (p : Pipe.t) : nat -> Pipe.t :=
  fun a => if (a =? self)%nat then p else h a.

Definition store (self : nat) (p : Pipe.t) : M unit :=
  fun s => Returns (tt, {| heap := update (heap s) self p; rng := rng s |}).

(** [self.Q = x], [self.vel = x], [self.reynolds = x] *)
Definition assign_Q (self : nat) (x : float) : M unit :=
  p <~ deref self ;; store self (Pipe.set_Q p x).
Definition assign_vel (self : nat) (x : float) : M unit :=
  p <~ deref self ;; store self (Pipe.set_vel p x).
Definition assign_reynolds (self : nat) (x : float) : M unit :=
  p <~ deref self ;; store self (Pipe.set_reynolds p x).

(** [random.normalvariate(mu, sigma)] *)
Definition draw_normalvariate (mu sigma : float) : M float :=
  fun s =>
    let (x, g) := normalvariate E mu sigma (rng s) in
    Returns (x, {| heap := heap s; rng := g |}).

Fixpoint mapM {X Y : Type} (f : X -> M Y) (l : list X) : M (list Y) :=
  match l with
  | [] => ret []
  | x :: l' => y <~ f x ;; ys <~ mapM f l' ;; ret (y :: ys)
  end.

(** *** class [Pipe] *)

Definition V (self : nat) : M float :=
  p <~ deref self ;;
  v <~ lift (truediv (Pipe.Q p) (Pipe.A p)) ;;
  _ <~ assign_vel self v ;;
  p <~ deref self ;;
  ret (Pipe.vel p).

(** [Problem 2.py] recomputes the velocity; [HW6_2_OOP.py] reads
    [self.vel]. *)
Definition Re (self : nat) : M float :=
  p <~ deref self ;;
  v <~ match src with
       | Problem_2_py => V self
       | HW6_2_OOP_py => ret (Pipe.vel p)
       end ;;
  x <~ lift (truediv (Fluid.rho (Pipe.fluid p) * v * Pipe.d p)%float
                      (Fluid.mu (Pipe.fluid p))) ;;
  _ <~ assign_reynolds self x ;;
  p <~ deref self ;;
  ret (Pipe.reynolds p).

(** The Colebrook residual handed to [fsolve]. *)
Definition CB (rr Re f : float) : float :=
  (1 / pow_half E f + 2.0 * log10 E (rr / 3.7 + 2.51 / (Re * pow_half E f)))%float.

(** [lam()] *)
Definition lam (Re : float) : pyresult float := truediv 64 Re.

Definition FrictionFactor (self : nat) : M float :=
  Re <~ Re self ;;
  p <~ deref self ;;
  let rr := Pipe.relrough p in
  if (4000 <=? Re)%float then ret (fsolve E (CB rr Re) 0.01%float)
  else if (Re <=? 2000)%float then lift (lam Re)
  else
    let CBff := fsolve E (CB rr Re) 0.01%float in
    Lamff <~ lift (lam Re) ;;
    let mean := (Lamff + ((Re - 2000) / (4000 - 2000)) * (CBff - Lamff))%float in
    let sig := (0.2 * mean)%float in
    draw_normalvariate mean sig.

Definition frictionHeadLoss (self : nat) : M float :=
  let g := 9.81%float in
  ff <~ FrictionFactor self ;;
  match src with
  | Problem_2_py =>
      v <~ V self ;;
      v2 <~ lift (pow2 E v) ;;
      p <~ deref self ;;
      lift (truediv (4 * ff * Pipe.length p * v2)%float (2 * g * Pipe.d p)%float)
  | HW6_2_OOP_py =>
      p <~ deref self ;;
      v2 <~ lift (pow2 E (Pipe.vel p)) ;;
      lift (truediv (ff * Pipe.length p * v2)%float (2 * g * Pipe.d p)%float)
  end.

Definition getFlowHeadLoss (self : nat) (s : string) : M float :=
  p <~ deref self ;;
  let nTraverse := if s =? Pipe.startNode p then 1%float else (-1)%float in
  let nFlow := if (0 <=? Pipe.Q p)%float then 1%float else (-1)%float in
  hl <~ frictionHeadLoss self ;;
  ret (nTraverse * nFlow * hl)%float.

Definition getFlowIntoNode (self : nat) (n : string) : M float :=
  p <~ deref self ;;
  if n =? Pipe.startNode p then ret (- Pipe.Q p)%float
  else ret (Pipe.Q p).

(** [Pipe(Start, End, L, D, r, fluid)], run on the fresh object at address
    [self].  [vel] and [reynolds] do not exist before [V] and [Re] assign
    them; the record holds [0] there until then. *)
Definition Pipe__init__ (self : nat) (Start End_ : string) (L D r : float)
  (fluid : Fluid.t) : M unit :=
  let d := (D / 1000.0)%float in
  relrough <~ lift (truediv r d) ;;
  d2 <~ lift (pow2 E d) ;;
  let A := (pi / 4.0 * d2)%float in
  _ <~ store self
        {| Pipe.startNode := min Start End_; Pipe.endNode := max Start End_;
           Pipe.length := L; Pipe.r := r; Pipe.fluid := fluid;
           Pipe.d := d; Pipe.relrough := relrough; Pipe.A := A;
           Pipe.Q := 10; Pipe.vel := 0; Pipe.reynolds := 0 |} ;;
  v <~ V self ;;
  _ <~ assign_vel self v ;;
  x <~ Re self ;;
  assign_reynolds self x.

(** *** class [Node] *)

(** [for p in self.pipes: Qtot += p.getFlowIntoNode(self.name)] *)
Fixpoint getNetFlowRate_for (ps : list nat) (name : string) (Qtot : float) : M float :=
  match ps with
  | [] => ret Qtot
  | p :: ps' =>
      q <~ getFlowIntoNode p name ;;
      getNetFlowRate_for ps' name (Qtot + q)%float
  end.

Definition getNetFlowRate (self : Node.t) : M float :=
  getNetFlowRate_for (Node.pipes self) (Node.name self) (Node.extFlow self).

(** *** class [Loop] *)

(** [for p in self.pipes] of [getLoopHeadLoss]. *)
Fixpoint getLoopHeadLoss_for (ps : list nat) (deltaP : float) (startNode : string)
  : M float :=
  match ps with
  | [] => ret deltaP
  | p :: ps' =>
      phl <~ getFlowHeadLoss p startNode ;;
      let deltaP := (deltaP + phl)%float in
      pp <~ deref p ;;
      let startNode :=
        if negb (startNode =? Pipe.endNode pp) then Pipe.endNode pp
        else Pipe.startNode pp in
      getLoopHeadLoss_for ps' deltaP startNode
  end.

(** [Problem 2.py] returns [deltaP]; [HW6_2_OOP.py] returns
    [abs(deltaP)]. *)
Definition getLoopHeadLoss (self : Loop.t) : M float :=
  p0 <~ lift (getitem (Loop.pipes self) 0) ;;
  pp <~ deref p0 ;;
  deltaP <~ getLoopHeadLoss_for (Loop.pipes self) 0%float (Pipe.startNode pp) ;;
  match src with
  | Problem_2_py => ret deltaP
  | HW6_2_OOP_py => ret (abs deltaP)
  end.

(** *** class [PipeNetwork] *)

Definition getNodeFlowRates (self : PipeNetwork) : M (list float) :=
  mapM getNetFlowRate (nodes self).

Definition getLoopHeadLosses (self : PipeNetwork) : M (list float) :=
  mapM getLoopHeadLoss (loops self).

(** [for i in range(len(self.pipes)): self.pipes[i].Q = q[i]]; [ps] is
    [self.pipes[i:]]. *)
Fixpoint fn_for (ps : list nat) (i : nat) (q : list float) : M unit :=
  match ps with
  | [] => ret tt
  | p :: ps' =>
      x <~ lift (getitem q i) ;;
      _ <~ assign_Q p x ;;
      fn_for ps' (S i) q
  end.

(** The callback [fn] that [findFlowRates] defines: [L += ...] in
    [Problem 2.py] and [np.concatenate] in [HW6_2_OOP.py] both join the two
    lists. *)
Definition fn (self : PipeNetwork) (q : list float) : M (list float) :=
  _ <~ fn_for (pipes self) 0 q ;;
  node_flow_rates <~ getNodeFlowRates self ;;
  loop_head_losses <~ getLoopHeadLosses self ;;
  ret (node_flow_rates ++ loop_head_losses).

End Methods.

Arguments ret {E X} x.
Arguments bindM {E X Y} m k.
Arguments lift {E X} m.
Arguments mapM {E X Y} f l.
Arguments heap {E} s.
Arguments rng {E} s.
Arguments Build_state {E} heap rng.

(** *** Names, and the nodes built from the pipe ends

    The methods below read the pipes and the node list; they write no
    pipe and draw no number, so they take the store [h] of pipes as an
    argument.  The two files agree on them. *)

(** [Pipe.Name()]: [self.startNode + '-' + self.endNode], an f-string of
    the same text in [Problem 2.py]. *)
Definition Name (self : Pipe.t) : string :=
  (Pipe.startNode self ++ "-" ++ Pipe.endNode self)%string.

(** [Pipe.oContainsNode(node)] *)
Definition oContainsNode (self : Pipe.t) (node : string) : bool :=
  (Pipe.startNode self =? node) || (Pipe.endNode self =? node).

(** [Node(Name, Pipes, ExtFlow=0)] *)
Definition Node__init__ (Name : string) (Pipes : list nat) (ExtFlow : float) : Node.t :=
  {| Node.name := Name; Node.pipes := Pipes; Node.extFlow := ExtFlow |}.

Definition set_extFlow (self : Node.t) (x : float) : Node.t :=
  {| Node.name := Node.name self; Node.pipes := Node.pipes self; Node.extFlow := x |}.

Definition set_nodes (self : PipeNetwork) (ns : list Node.t) : PipeNetwork :=
  {| loops := loops self; nodes := ns; Fluid_ := Fluid_ self; pipes := pipes self |}.

(** [getPipe(name)]: the address of the first pipe of that name; falling
    off the loop returns [None]. *)
Fixpoint getPipe_for (h : nat -> Pipe.t) (ps : list nat) (name : string) : option nat :=
  match ps with
  | [] => None
  | p :: ps' => if name =? Name (h p) then Some p else getPipe_for h ps' name
  end.

Definition getPipe (h : nat -> Pipe.t) (self : PipeNetwork) (name : string) : option nat :=
  getPipe_for h (pipes self) name.

(** [getNodePipes(node)]: [l] grows by [append]. *)
Fixpoint getNodePipes_for (h : nat -> Pipe.t) (ps : list nat) (node : string)
  (l : list nat) : list nat :=
  match ps with
  | [] => l
  | p :: ps' =>
      getNodePipes_for h ps' node (if oContainsNode (h p) node then l ++ [p] else l)
  end.

Definition getNodePipes (h : nat -> Pipe.t) (self : PipeNetwork) (node : string)
  : list nat :=
  getNodePipes_for h (pipes self) node [].

(** [nodeBuilt(node)] *)
Fixpoint nodeBuilt_for (ns : list Node.t) (node : string) : bool :=
  match ns with
  | [] => false
  | n :: ns' => if Node.name n =? node then true else nodeBuilt_for ns' node
  end.

Definition nodeBuilt (self : PipeNetwork) (node : string) : bool :=
  nodeBuilt_for (nodes self) node.

(** [getNode(name)]: the node object is given by its position in
    [self.nodes]; [k] is the position of the head of [ns]. *)
Fixpoint getNode_for (ns : list Node.t) (k : nat) (name : string) : option nat :=
  match ns with
  | [] => None
  | n :: ns' => if Node.name n =? name then Some k else getNode_for ns' (S k) name
  end.

Definition getNode (self : PipeNetwork) (name : string) : option nat :=
  getNode_for (nodes self) 0 name.

(** [self.getNode(name).extFlow = v], as [main] writes it: assigning an
    attribute of [None] raises [AttributeError]. *)
Definition set_extFlow_by_name (self : PipeNetwork) (name : string) (v : float)
  : pyresult PipeNetwork :=
  match getNode self name with
  | None => Raises AttributeError
  | Some k =>
      obj <- getitem (nodes self) k ;;
      Returns (set_nodes self (setitem (nodes self) k (set_extFlow obj v)))
  end.

(** One [if not self.nodeBuilt(node): self.nodes.append(Node(node,
    self.getNodePipes(node)))] of [buildNodes]. *)
Definition buildNodes_end (h : nat -> Pipe.t) (self : PipeNetwork) (node : string)
  : PipeNetwork :=
  if negb (nodeBuilt self node)
  then set_nodes self (nodes self ++ [Node__init__ node (getNodePipes h self node) 0])
  else self.

(** [for p in self.pipes] of [buildNodes]; [ps] is what is left of
    [self.pipes]. *)
Fixpoint buildNodes_for (h : nat -> Pipe.t) (ps : list nat) (self : PipeNetwork)
  : PipeNetwork :=
  match ps with
  | [] => self
  | p :: ps' =>
      let self := buildNodes_end h self (Pipe.startNode (h p)) in
      let self := buildNodes_end h self (Pipe.endNode (h p)) in
      buildNodes_for h ps' self
  end.

Definition buildNodes (h : nat -> Pipe.t) (self : PipeNetwork) : PipeNetwork :=
  buildNodes_for h (pipes self) self.

End Pipes.

(** ** [HW6_2_OOP.py], [PipeNetwork.findFlowRates] *)
Module HW6_2_OOP.
Import Pipes.

(** The method counts the equations, builds the initial guess, defines the
    callback, and ends there: no statement calls [fsolve] and none returns
    a value, so the call returns [None]. *)
Definition findFlowRates (E : Env) (self : PipeNetwork) : M E (option (list float)) :=
  let N := (List.length (nodes self) + List.length (loops self))%nat in
  let Q0 := repeat 10%float (List.length (pipes self)) in
  let fn := fn E HW6_2_OOP_py self in
  ret None.

End HW6_2_OOP.


(** ** Inputs on which the model is run *)
Module Bench.
Import Problem_1.

Definition resistor (R : float) (name : string) : Resistor.t :=
  {| Resistor.Resistance := R; Resistor.Current := 0; Resistor.Name := name |}.

Definition source (V : float) (name : string) : VoltageSource.t :=
  {| VoltageSource.Voltage := V; VoltageSource.Name := name;
     VoltageSource.Type_ := Some "ideal" |}.

Definition loop (name : string) (nodes : list string) : Loop.t :=
  {| Loop.Name := Some name; Loop.Nodes := nodes |}.

(** A two-loop circuit with the resistors that the residual functions name
    and two sources, [ab] and [de]. *)
Definition circuit : ResistorNetwork :=
  {| Loops := [loop "l1" ["a"; "d"; "c"; "b"]; loop "l2" ["c"; "d"; "e"]];
     Resistors := [resistor 2 "ad"; resistor 2 "bc"; resistor 1 "cd";
                   resistor 4 "ce"; resistor 5 "df"; resistor 3 "parallel_resistor"];
     VSources := [source 16 "ab"; source 8 "de"] |}.

(** A [float] parser that knows no number: the texts parsed below hold
    none. *)
Definition no_number (s : string) : pyresult float := Raises ValueError.

(** *** Pipes *)

(** [x ** 2] by one multiplication, with Python's [OverflowError] when a
    finite [x] gives an infinite result. *)
Definition pow2_by_product (x : float) : pyresult float :=
  let y := (x * x)%float in
  if is_infinity y && negb (is_infinity x) then Raises OverflowError
  else Returns y.

(** Stand-ins for the imported libraries, to run the functions on
    inputs.  [fsolve] returns the guess it was given without calling the
    residual, so [** 0.5] and [log10] are not run; the generator has one
    state and returns the mean.  The bench pipe is laminar: on it
    [FrictionFactor] returns [64 / Re] before it reaches any of them. *)
Definition env : Pipes.Env :=
  {| Pipes.RNG := unit;
     Pipes.pow2 := pow2_by_product;
     Pipes.pow_half := PrimFloat.sqrt;
     Pipes.log10 := fun x => x;
     Pipes.fsolve := fun _ x0 => x0;
     Pipes.normalvariate := fun mu _ g => (mu, g) |}.

(** [Fluid(mu=1.0, rho=1.0)] *)
Definition oil : Pipes.Fluid.t :=
  {| Pipes.Fluid.mu := 1; Pipes.Fluid.rho := 1; Pipes.Fluid.nu := 1 |}.

(** Memory before any pipe is built. *)
Definition unbuilt : Pipes.Pipe.t :=
  {| Pipes.Pipe.startNode := ""; Pipes.Pipe.endNode := "";
     Pipes.Pipe.length := 0; Pipes.Pipe.r := 0; Pipes.Pipe.fluid := oil;
     Pipes.Pipe.d := 0; Pipes.Pipe.relrough := 0; Pipes.Pipe.A := 0;
     Pipes.Pipe.Q := 0; Pipes.Pipe.vel := 0; Pipes.Pipe.reynolds := 0 |}.

Definition fresh : Pipes.state env :=
  @Pipes.Build_state env (fun _ => unbuilt) tt.

(** The state a run ends in ([s] itself when it raises), and the value it
    returns. *)
Definition after {X : Type} (m : Pipes.M env X) (s : Pipes.state env) : Pipes.state env :=
  match m s with
  | Returns (_, s') => s'
  | Raises _ => s
  end.

Definition value {X : Type} (m : Pipes.M env X) (s : Pipes.state env) : pyresult X :=
  match m s with
  | Returns (x, _) => Returns x
  | Raises e => Raises e
  end.

(** [Pipe('a', 'b', 100, 1000, 0.00025, oil)] at address 0: one metre
    wide, [Re = 12.7]. *)
Definition built (src : Pipes.source_file) : Pipes.state env :=
  after (Pipes.Pipe__init__ env src 0 "a" "b" 100 1000 0.00025 oil) fresh.

(** The same pipe after [Q] was set: [pipe.Q = x]. *)
Definition with_Q (src : Pipes.source_file) (x : float) : Pipes.state env :=
  after (Pipes.assign_Q env 0 x) (built src).

(** [Loop('A', [pipe])] and a network of that pipe, its two nodes and no
    loop. *)
Definition loop_A : Pipes.Loop.t :=
  {| Pipes.Loop.name := "A"; Pipes.Loop.pipes := [0%nat] |}.

Definition one_pipe : Pipes.PipeNetwork :=
  {| Pipes.loops := [];
     Pipes.nodes := [ {| Pipes.Node.name := "a"; Pipes.Node.pipes := [0%nat];
                         Pipes.Node.extFlow := 0 |};
                      {| Pipes.Node.name := "b"; Pipes.Node.pipes := [0%nat];
                         Pipes.Node.extFlow := 0 |} ];
     Pipes.Fluid_ := oil;
     Pipes.pipes := [0%nat] |}.

(** The same network with the loop [A]. *)
Definition one_loop : Pipes.PipeNetwork :=
  {| Pipes.loops := [loop_A];
     Pipes.nodes := Pipes.nodes one_pipe;
     Pipes.Fluid_ := oil;
     Pipes.pipes := [0%nat] |}.

(** Three pipes in a triangle: [Pipe('b', 'c', ...)] at address 1 and
    [Pipe('c', 'a', ...)] at address 2 beside the bench pipe, and the
    network of the three before [buildNodes] is called. *)
Definition triangle (src : Pipes.source_file) : Pipes.state env :=
  after (Pipes.Pipe__init__ env src 2 "c" "a" 100 1000 0.00025 oil)
    (after (Pipes.Pipe__init__ env src 1 "b" "c" 100 1000 0.00025 oil) (built src)).

Definition three_pipes : Pipes.PipeNetwork :=
  {| Pipes.loops := [];
     Pipes.nodes := [];
     Pipes.Fluid_ := oil;
     Pipes.pipes := [0%nat; 1%nat; 2%nat] |}.

End Bench.

Notation "x <~ m ;; k" := (Pipes.bindM m (fun x => k))
  (at level 61, m at next level, right associativity) : py_scope.

(** ** The loop constraint in the words of the specification

    The traversal starts at the first pipe's [startNode]; each step adds
    the pipe's signed head loss seen from the current node and moves to
    the pipe's far node. *)
Module LoopSpec.
Import Pipes.

(** The far node of [p] seen from [current]: [endNode], unless the
    traversal stands there. *)
Definition far_node (p : Pipe.t) (current : string) : string :=
  if negb (current =? Pipe.endNode p) then Pipe.endNode p else Pipe.startNode p.

(** The steps of the traversal: each pipe with the node it is entered
    from. *)
Fixpoint traversal (h : nat -> Pipe.t) (ps : list nat) (current : string)
  : list (nat * string) :=
  match ps with
  | [] => []
  | p :: ps' => (p, current) :: traversal h ps' (far_node (h p) current)
  end.

(** The head losses of the steps, taken in order, and their sum from
    [0]. *)
Definition signed_sum (E : Env) (src : source_file) (ps : list nat) : M E float :=
  fun s =>
    let start := Pipe.startNode (heap s (hd 0%nat ps)) in
    (hs <~ mapM (fun step => getFlowHeadLoss E src (fst step) (snd step))
                (traversal (heap s) ps start) ;;
     ret (fold_left PrimFloat.add hs 0%float)) s.

End LoopSpec.

(** ** The segments of a loop of resistors

    The names that [GetLoopVoltageDrops] looks up for a loop: one for
    each pair of neighbours, then the closing one, spelled from the first
    node to the last. *)
Module SegmentSpec.

Fixpoint neighbours (Nodes : list string) : list string :=
  match Nodes with
  | a :: (b :: _) as rest => (a ++ b)%string :: neighbours rest
  | _ => []
  end.

Definition segments (Nodes : list string) : list string :=
  match Nodes with
  | [] => []
  | a :: _ => neighbours Nodes ++ [(a ++ last Nodes a)%string]
  end.

End SegmentSpec.

(** ** What a residual function needs of the network

    A resistor of the name is in the network, and every segment of every
    loop names an element. *)
Module ResidualSpec.
Import Problem_1.

Definition present (self : ResistorNetwork) (name : string) : Prop :=
  In name (map Resistor.Name (Resistors self)).

Definition loops_closed (self : ResistorNetwork) : Prop :=
  forall L name,
    In L (Loops self) -> In name (SegmentSpec.segments (Loop.Nodes L)) ->
    GetElementDeltaV self name <> Returns None.

End ResidualSpec.

(** ** Names in lower case

    What [BuildNetworkFromFile] is shown to keep: the names it stores are
    left as they are by [str.lower]. *)
Module NameSpec.
Import Problem_1.

Definition lowercase (s : string) : Prop := lower s = s.

Definition lowercase_network (self : ResistorNetwork) : Prop :=
  Forall (fun r => lowercase (Resistor.Name r)) (Resistors self) /\
  Forall (fun v => lowercase (VoltageSource.Name v) /\
                   forall ty, VoltageSource.Type_ v = Some ty -> lowercase ty)
         (VSources self) /\
  Forall (fun L => (forall n, Loop.Name L = Some n -> lowercase n) /\
                   Forall lowercase (Loop.Nodes L))
         (Loops self).

End NameSpec.

(** ** What a method leaves in place *)
Module Frame.
Import Pipes.

(** The two states give every pipe the same end nodes. *)
Definition same_nodes {E : Env} (s s' : state E) : Prop :=
  forall a : nat,
    Pipe.startNode (heap s' a) = Pipe.startNode (heap s a) /\
    Pipe.endNode (heap s' a) = Pipe.endNode (heap s a).

(** A method that, when it returns, has kept the end nodes of every
    pipe. *)
Definition preserves_nodes {E : Env} {X : Type} (m : M E X) : Prop :=
  forall s x s', m s = Returns (x, s') -> same_nodes s s'.

(** Two pipes, and two states, that differ at most in [Q]. *)
Definition but_Q (p p' : Pipe.t) : Prop := Pipe.set_Q p 0 = Pipe.set_Q p' 0.

Definition states_but_Q {E : Env} (s s' : state E) : Prop :=
  rng s = rng s' /\ forall a, but_Q (heap s a) (heap s' a).

(** Two runs that return values related by [R] in states that differ at
    most in [Q], or raise the same exception. *)
Definition alike {E : Env} {X : Type} (R : X -> X -> Prop) (m m' : M E X) : Prop :=
  forall s s', states_but_Q s s' ->
    match m s, m' s' with
    | Returns (x, t), Returns (x', t') => R x x' /\ states_but_Q t t'
    | Raises e, Raises e' => e = e'
    | _, _ => False
    end.

End Frame.

(** ** Flows and caches

    [Q] is the unknown that the solver sets; [vel] and [reynolds] are
    values that [V] and [Re] store on the way.  The relations below
    separate the three from what a pipe is built with. *)
Module Caches.
Import Pipes.

(** Two pipes that differ at most in [vel] and [reynolds]. *)
Definition but_caches (p p' : Pipe.t) : Prop :=
  Pipe.set_vel (Pipe.set_reynolds p 0) 0 = Pipe.set_vel (Pipe.set_reynolds p' 0) 0.

(** [s'] is [s] but for [vel] and [reynolds] of the pipes at the
    addresses [l]; the generator may have moved. *)
Definition touched_at {E : Env} (l : list nat) (s s' : state E) : Prop :=
  (forall a, ~ In a l -> heap s' a = heap s a) /\
  (forall a, but_caches (heap s a) (heap s' a)).

(** A method that, when it returns, has written at most those. *)
Definition touches_only {E : Env} {X : Type} (l : list nat) (m : M E X) : Prop :=
  forall s x s', m s = Returns (x, s') -> touched_at l s s'.

(** Two pipes that differ at most in [Q], [vel] and [reynolds]. *)
Definition but_flow (p p' : Pipe.t) : Prop :=
  but_caches (Pipe.set_Q p 0) (Pipe.set_Q p' 0).

(** Two states with the same generator and the same pipes up to [Q],
    [vel] and [reynolds], where [Q] is the same at the addresses [l]. *)
Definition agree_on {E : Env} (l : list nat) (s s' : state E) : Prop :=
  rng s = rng s' /\
  (forall a, but_flow (heap s a) (heap s' a)) /\
  (forall a, In a l -> Pipe.Q (heap s a) = Pipe.Q (heap s' a)).

(** Two runs from such states: they return values related by [R] in
    such states, or raise the same exception. *)
Definition alike_on {E : Env} {X : Type} (l : list nat) (R : X -> X -> Prop)
  (m m' : M E X) : Prop :=
  forall s s', agree_on l s s' ->
    match m s, m' s' with
    | Returns (x, t), Returns (x', t') => R x x' /\ agree_on l t t'
    | Raises e, Raises e' => e = e'
    | _, _ => False
    end.

End Caches.

(** ** Tactics *)

(** Inversion of a run of [x <- m ;; k] that returned. *)
Ltac bind_inv H :=
  repeat match type of H with
    | Py.bind ?m _ = Returns _ =>
        let E := fresh "E" in
        destruct m eqn:E; unfold Py.bind at 1 in H; [|discriminate H]
    end.

(** Inversion of a run of [x <~ m ;; k] that returned. *)
Ltac bindM_inv1 H :=
  match type of H with
  | Pipes.bindM ?m _ ?s = Returns _ =>
      let E := fresh "E" in
      let x := fresh "x" in
      let s' := fresh "s" in
      unfold Pipes.bindM at 1 in H;
      destruct (m s) as [[x s']|] eqn:E; [|discriminate H]
  end.

Ltac bindM_inv H := repeat bindM_inv1 H.

(** * Properties *)

(** ** Facts on strings, lists and floats *)

(** The [str] methods on lines of a network file. *)
Example str_methods :
  lower "<Resistor>" = "<resistor>" /\
  strip "   nodes = a, b  " = "nodes = a, b" /\
  Py.split "=" "name = ad" = ["name "; " ad"] /\
  Py.split "=" "</source>" = ["</source>"] /\
  Py.split "," "a,b,c" = ["a"; "b"; "c"] /\
  remove_spaces "nodes = a, b" = "nodes=a,b" /\
  contains "source" "</source>" = true /\
  contains "name" "type = ideal" = false /\
  reversed "ab" = "ba" /\
  min "b" "a" = "a" /\ max "b" "a" = "b" /\ min "a" "a" = "a".
Proof. repeat split; vm_compute; reflexivity. Qed.

(** The loop [a, d, c, b] is walked along [ad], [dc], [cb], and closed by
    [ab]: the last segment is named from the first node to the last. *)
Example segment_names :
  map (Problem_1.segment_name ["a"; "d"; "c"; "b"]) [0; 1; 2; 3]%nat
  = [Returns "ad"; Returns "dc"; Returns "cb"; Returns "ab"].
Proof. vm_compute. reflexivity. Qed.

(** The residual of [Problem 1.py] on the bench circuit: the two loop
    sums [-2 - 3 - 2 + 16] and [-3 + 8 - 8], and the current into node
    [c]. *)
Example GetKirchoffVals_Problem_1 :
  match Problem_1.GetKirchoffVals Bench.circuit [1; 2; 3]%float with
  | Returns (res, _) => res = [9; -3; 0]%float
  | Raises _ => False
  end.
Proof. vm_compute. reflexivity. Qed.

Lemma reversed_involutive (s : string) : reversed (reversed s) = s.
Proof.
  unfold reversed.
  rewrite list_ascii_of_string_of_list_ascii, rev_involutive.
  apply string_of_list_ascii_of_string.
Qed.




Lemma Prim2SF_0 : Prim2SF 0 = S754_zero false.
Proof. vm_compute. reflexivity. Qed.





(** [abs(x)] is zero exactly when [x] is. *)
Lemma abs_eqb_0 (x : float) : (abs x =? 0)%float = (x =? 0)%float.
Proof.
  rewrite !eqb_spec, abs_spec, Prim2SF_0.
  unfold SFeqb, SFcompare, SFabs.
  destruct (Prim2SF x) as [s|s| |s m e]; try destruct s; reflexivity.
Qed.

(** ** The resistor network: element lookup *)
Section Lookup.
Import Problem_1.

Lemma GetResistorByName_for_absent (rs : list Resistor.t) (k : nat) (name : string) :
  (forall r, In r rs -> Resistor.Name r <> name) ->
  GetResistorByName_for rs k name = None.
Proof.
  revert k. induction rs as [|r rs IH]; intros k Hrs; [reflexivity|].
  cbn [GetResistorByName_for].
  destruct (String.eqb_spec (Resistor.Name r) name) as [Heq|_].
  - exfalso. apply (Hrs r); [left; reflexivity|exact Heq].
  - apply IH. intros r' Hr'. apply Hrs. right. exact Hr'.
Qed.

Lemma GetElementDeltaV_resistors_absent (rs : list Resistor.t) (name : string) :
  (forall r, In r rs -> Resistor.Name r <> name /\ Resistor.Name r <> reversed name) ->
  GetElementDeltaV_resistors rs name = None.
Proof.
  induction rs as [|r rs IH]; intros Hrs; [reflexivity|].
  cbn [GetElementDeltaV_resistors].
  destruct (Hrs r (or_introl eq_refl)) as [Hn Hr].
  destruct (String.eqb_spec name (Resistor.Name r)); [congruence|].
  destruct (String.eqb_spec (reversed name) (Resistor.Name r)); [congruence|].
  apply IH. intros r' Hr'. apply Hrs. right. exact Hr'.
Qed.

Lemma GetElementDeltaV_sources_absent (vs : list VoltageSource.t) (name : string) :
  (forall v, In v vs ->
     VoltageSource.Name v <> name /\ VoltageSource.Name v <> reversed name) ->
  GetElementDeltaV_sources vs name = None.
Proof.
  induction vs as [|v vs IH]; intros Hvs; [reflexivity|].
  cbn [GetElementDeltaV_sources].
  destruct (Hvs v (or_introl eq_refl)) as [Hn Hr].
  destruct (String.eqb_spec name (VoltageSource.Name v)); [congruence|].
  destruct (String.eqb_spec (reversed name) (VoltageSource.Name v)); [congruence|].
  apply IH. intros v' Hv'. apply Hvs. right. exact Hv'.
Qed.

(** Both spellings of a name take the same branch at every element: the
    two tests of the loop body are swapped, and both return the same
    value. *)
Lemma GetElementDeltaV_resistors_reversed (rs : list Resistor.t) (name : string) :
  GetElementDeltaV_resistors rs (reversed name) = GetElementDeltaV_resistors rs name.
Proof.
  induction rs as [|r rs IH]; [reflexivity|].
  cbn [GetElementDeltaV_resistors]. rewrite reversed_involutive, IH.
  destruct (reversed name =? Resistor.Name r), (name =? Resistor.Name r); reflexivity.
Qed.

Lemma GetElementDeltaV_sources_reversed (vs : list VoltageSource.t) (name : string) :
  GetElementDeltaV_sources vs (reversed name) = GetElementDeltaV_sources vs name.
Proof.
  induction vs as [|v vs IH]; [reflexivity|].
  cbn [GetElementDeltaV_sources]. rewrite reversed_involutive, IH.
  destruct (reversed name =? VoltageSource.Name v), (name =? VoltageSource.Name v);
    reflexivity.
Qed.

(** The first source whose name is [name], forward or reversed, gives its
    [Voltage], when no resistor bears the name. *)
Lemma GetElementDeltaV_sources_first (pre post : list VoltageSource.t)
  (v : VoltageSource.t) (name : string) :
  (forall w, In w pre ->
     VoltageSource.Name w <> name /\ VoltageSource.Name w <> reversed name) ->
  VoltageSource.Name v = name \/ VoltageSource.Name v = reversed name ->
  GetElementDeltaV_sources (pre ++ v :: post) name = Some (VoltageSource.Voltage v).
Proof.
  intros Hpre Hv. induction pre as [|w pre IH]; cbn [app GetElementDeltaV_sources].
  - destruct (String.eqb_spec name (VoltageSource.Name v)); [reflexivity|].
    destruct (String.eqb_spec (reversed name) (VoltageSource.Name v)); [reflexivity|].
    destruct Hv; congruence.
  - destruct (Hpre w (or_introl eq_refl)) as [Hn Hr].
    destruct (String.eqb_spec name (VoltageSource.Name w)); [congruence|].
    destruct (String.eqb_spec (reversed name) (VoltageSource.Name w)); [congruence|].
    apply IH. intros w' Hw'. apply Hpre. right. exact Hw'.
Qed.

Lemma GetElementDeltaV_of_source (self : ResistorNetwork)
  (pre post : list VoltageSource.t) (v : VoltageSource.t) (name : string) :
  (forall r, In r (Resistors self) ->
     Resistor.Name r <> name /\ Resistor.Name r <> reversed name) ->
  VSources self = pre ++ v :: post ->
  (forall w, In w pre ->
     VoltageSource.Name w <> name /\ VoltageSource.Name w <> reversed name) ->
  VoltageSource.Name v = name \/ VoltageSource.Name v = reversed name ->
  GetElementDeltaV self name = Returns (Some (VoltageSource.Voltage v)).
Proof.
  intros Hrs Hvs Hpre Hv. unfold GetElementDeltaV.
  rewrite (GetElementDeltaV_resistors_absent _ _ Hrs), Hvs.
  rewrite (GetElementDeltaV_sources_first _ _ _ _ Hpre Hv). reflexivity.
Qed.

(** C4.  [GetElementDeltaV] gives a name and its reverse spelling the same
    value, so a voltage source traversed against its stated direction
    contributes [+Voltage], not [-Voltage]: in the bench circuit the source
    [de] of 8 V yields 8 for ["de"] and for ["ed"]. *)
Theorem GetElementDeltaV_ignores_direction :
  (forall (self : ResistorNetwork) (name : string),
     GetElementDeltaV self (reversed name) = GetElementDeltaV self name) /\
  GetElementDeltaV Bench.circuit "de" = Returns (Some 8%float) /\
  GetElementDeltaV Bench.circuit "ed" = Returns (Some 8%float) /\
  (8 =? - 8)%float = false.
Proof.
  split; [|repeat split; vm_compute; reflexivity].
  intros self name. unfold GetElementDeltaV.
  rewrite GetElementDeltaV_resistors_reversed, GetElementDeltaV_sources_reversed.
  reflexivity.
Qed.

(** C8, as the code has it.  A name that matches no element, forward or
    reversed, makes both lookups return [None]: no error is raised by the
    lookup.  The missing value raises where it is used, [AttributeError]
    when a current is assigned to it and [TypeError] when it is added to a
    loop sum. *)
Theorem lookup_of_absent_name_returns_None
  (self : ResistorNetwork) (name : string) :
  (forall r, In r (Resistors self) ->
     Resistor.Name r <> name /\ Resistor.Name r <> reversed name) ->
  (forall v, In v (VSources self) ->
     VoltageSource.Name v <> name /\ VoltageSource.Name v <> reversed name) ->
  GetResistorByName self name = Returns None /\
  GetElementDeltaV self name = Returns None /\
  (forall x, set_Current_by_name self name x = Raises AttributeError) /\
  (forall Nodes n ns acc,
     segment_name Nodes n = Returns name ->
     loopDeltaV_for self Nodes (n :: ns) acc = Raises TypeError).
Proof.
  intros Hrs Hvs.
  assert (HR : GetResistorByName self name = Returns None).
  { unfold GetResistorByName. rewrite GetResistorByName_for_absent; [reflexivity|].
    intros r Hr. apply (Hrs r Hr). }
  assert (HE : GetElementDeltaV self name = Returns None).
  { unfold GetElementDeltaV.
    rewrite GetElementDeltaV_resistors_absent by exact Hrs.
    rewrite GetElementDeltaV_sources_absent by exact Hvs. reflexivity. }
  repeat split; try assumption.
  - intros x. unfold set_Current_by_name. rewrite HR. reflexivity.
  - intros Nodes n ns acc Hseg. cbn [loopDeltaV_for].
    rewrite Hseg. cbn [Py.bind]. rewrite HE. reflexivity.
Qed.

(** The bench circuit has no element between [z] and [z]. *)
Lemma lookup_of_absent_name_returns_None_witness :
  GetResistorByName Bench.circuit "zz" = Returns None /\
  GetElementDeltaV Bench.circuit "zz" = Returns None /\
  (forall x, set_Current_by_name Bench.circuit "zz" x = Raises AttributeError) /\
  (forall Nodes n ns acc,
     segment_name Nodes n = Returns "zz" ->
     loopDeltaV_for Bench.circuit Nodes (n :: ns) acc = Raises TypeError).
Proof.
  apply (lookup_of_absent_name_returns_None Bench.circuit "zz").
  - intros r Hr. cbn in Hr.
    repeat (destruct Hr as [<-|Hr]; [split; discriminate|]). destruct Hr.
  - intros v Hv. cbn in Hv.
    repeat (destruct Hv as [<-|Hv]; [split; discriminate|]). destruct Hv.
Defined.

(** C8, as the claim states it, fails: the lookups of a name that matches
    nothing return, and what they return is [None]. *)
Lemma lookup_of_absent_name_does_not_raise :
  GetResistorByName Bench.circuit "zz" = Returns None /\
  GetElementDeltaV Bench.circuit "zz" = Returns None.
Proof. split; vm_compute; reflexivity. Qed.

End Lookup.

(** ** The resistor network: residual functions *)
Section Residuals.
Import Problem_1.

(** One voltage drop per loop. *)
Lemma GetLoopVoltageDrops_for_length (self : ResistorNetwork) (Ls : list Loop.t) :
  forall acc KVL,
    GetLoopVoltageDrops_for self Ls acc = Returns KVL ->
    List.length KVL = (List.length acc + List.length Ls)%nat.
Proof.
  induction Ls as [|L Ls IH]; intros acc KVL H; cbn [GetLoopVoltageDrops_for] in H.
  - injection H as <-. cbn. lia.
  - bind_inv H. apply IH in H. rewrite H, length_app. cbn. lia.
Qed.

Lemma GetLoopVoltageDrops_length (self : ResistorNetwork) (KVL : list float) :
  GetLoopVoltageDrops self = Returns KVL ->
  List.length KVL = List.length (Loops self).
Proof.
  intros H. apply GetLoopVoltageDrops_for_length in H. exact H.
Qed.

Lemma set_Current_by_name_Loops (self self' : ResistorNetwork) (name : string) (x : float) :
  set_Current_by_name self name x = Returns self' -> Loops self' = Loops self.
Proof.
  unfold set_Current_by_name. intros H. bind_inv H.
  destruct a as [k|]; [|discriminate H].
  bind_inv H. injection H as <-. reflexivity.
Qed.

End Residuals.

(** ** The resistor network: reading a file *)
Section ReadingAFile.
Import Problem_1.

Variable float_of_str : string -> pyresult float.

(** A block is closed by a line that holds its keyword.  When no line of
    [Txt[N:]] does, the loops of [MakeVSource] and [MakeLoop] run off the
    end of [Txt] and raise (unless a field line raised before). *)
Lemma MakeVSource_while_unclosed (rest : list string) :
  Forall (fun line => contains "source" (lower line) = false) rest ->
  forall N VS r, MakeVSource_while float_of_str rest N VS <> Returns r.
Proof.
  induction 1 as [|line rest Hline _ IH]; intros N VS r H; cbn [MakeVSource_while] in H.
  - discriminate H.
  - rewrite Hline in H. bind_inv H. exact (IH _ _ _ H).
Qed.

Lemma MakeLoop_while_unclosed (rest : list string) :
  Forall (fun line => contains "loop" (lower line) = false) rest ->
  forall N L r, MakeLoop_while rest N L <> Returns r.
Proof.
  induction 1 as [|line rest Hline _ IH]; intros N L r H; cbn [MakeLoop_while] in H.
  - discriminate H.
  - rewrite Hline in H. bind_inv H. exact (IH _ _ _ H).
Qed.

(** The loop of [MakeResistor] tests [N < len(Txt)] first: it does not
    read past the end. *)
Lemma MakeResistor_while_unclosed (rest : list string) :
  Forall (fun line => contains "resistor" (lower line) = false
                      /\ contains "name" (lower line) = false
                      /\ contains "resistance" (lower line) = false) rest ->
  forall N R, MakeResistor_while float_of_str rest N R = Returns (R, (N + List.length rest)%nat).
Proof.
  induction 1 as [|line rest (H1 & H2 & H3) _ IH]; intros N R; cbn [MakeResistor_while].
  - cbn. f_equal. f_equal. lia.
  - rewrite H1, H2, H3. cbn [Py.bind]. rewrite IH. cbn. f_equal. f_equal. lia.
Qed.

(** The line counter moves forward. *)
Lemma MakeResistor_while_index (rest : list string) :
  forall N R r, MakeResistor_while float_of_str rest N R = Returns r -> (N <= snd r)%nat.
Proof.
  induction rest as [|line rest IH]; intros N R r H; cbn [MakeResistor_while] in H.
  - injection H as <-. cbn. lia.
  - destruct (contains "resistor" (lower line)).
    + injection H as <-. cbn. lia.
    + bind_inv H. apply IH in H. lia.
Qed.

Lemma MakeVSource_while_index (rest : list string) :
  forall N VS r, MakeVSource_while float_of_str rest N VS = Returns r -> (N <= snd r)%nat.
Proof.
  induction rest as [|line rest IH]; intros N VS r H; cbn [MakeVSource_while] in H.
  - discriminate H.
  - destruct (contains "source" (lower line)).
    + injection H as <-. cbn. lia.
    + bind_inv H. apply IH in H. lia.
Qed.

Lemma MakeLoop_while_index (rest : list string) :
  forall N L r, MakeLoop_while rest N L = Returns r -> (N <= snd r)%nat.
Proof.
  induction rest as [|line rest IH]; intros N L r H; cbn [MakeLoop_while] in H.
  - discriminate H.
  - destruct (contains "loop" (lower line)).
    + injection H as <-. cbn. lia.
    + bind_inv H. apply IH in H. lia.
Qed.

Lemma BuildNetwork_line_index (self : ResistorNetwork) (LineNum : nat)
  (FileTxt : list string) (r : ResistorNetwork * nat) :
  BuildNetwork_line float_of_str self LineNum FileTxt = Returns r ->
  (LineNum <= snd r)%nat.
Proof.
  unfold BuildNetwork_line, MakeResistor, MakeVSource, MakeLoop. intros H.
  bind_inv H.
  repeat match type of H with
         | (if ?c then _ else _) = _ => destruct c
         end;
    try (injection H as <-; cbn; lia);
    bind_inv H; injection H as <-; cbn [snd].
  - apply MakeResistor_while_index in E0. lia.
  - apply MakeVSource_while_index in E0. lia.
  - apply MakeLoop_while_index in E0. lia.
Qed.

(** [len(FileTxt) - LineNum] turns finish the loop of
    [BuildNetworkFromFile]. *)
Lemma BuildNetwork_while_finishes (FileTxt : list string) (fuel : nat) :
  forall self LineNum,
    (List.length FileTxt - LineNum <= fuel)%nat ->
    BuildNetwork_while float_of_str fuel self LineNum FileTxt <> None.
Proof.
  induction fuel as [|fuel IH]; intros self LineNum Hfuel.
  - cbn [BuildNetwork_while].
    destruct (Nat.ltb_spec LineNum (List.length FileTxt)); [lia|discriminate].
  - cbn [BuildNetwork_while].
    destruct (Nat.ltb_spec LineNum (List.length FileTxt)); [|discriminate].
    destruct (BuildNetwork_line float_of_str self LineNum FileTxt) as [[self' N]|e] eqn:Hline;
      [|discriminate].
    apply BuildNetwork_line_index in Hline. cbn [snd] in Hline.
    apply IH. lia.
Qed.

Lemma BuildNetworkFromFile_finishes (text : string) :
  BuildNetworkFromFile float_of_str text <> None.
Proof.
  unfold BuildNetworkFromFile. apply BuildNetwork_while_finishes. lia.
Qed.

(** A file that stops inside a block.  When the loop of
    [BuildNetworkFromFile] stands on a line that opens a source block, or
    a loop block, and no later line holds the keyword, the run does not
    return a network. *)
Lemma BuildNetwork_while_unclosed_source (fuel : nat) (self : ResistorNetwork)
  (LineNum : nat) (FileTxt : list string) (line : string) :
  nth_error FileTxt LineNum = Some line ->
  (String.length (strip (lower line)) <? 1)%nat = false ->
  match String.get 0 (strip (lower line)) with
  | Some c => Ascii.eqb c "#"%char
  | None => false
  end = false ->
  contains "resistor" (strip (lower line)) = false ->
  contains "source" (strip (lower line)) = true ->
  Forall (fun l => contains "source" (lower l) = false) (skipn (LineNum + 1) FileTxt) ->
  forall net, BuildNetwork_while float_of_str fuel self LineNum FileTxt <> Some (Returns net).
Proof.
  intros Hline Hlen Hhash Hres Hsrc Hrest net.
  destruct fuel as [|fuel]; cbn [BuildNetwork_while];
    destruct (LineNum <? List.length FileTxt)%nat eqn:Hlt;
    try discriminate.
  - apply Nat.ltb_ge in Hlt. apply nth_error_None in Hlt. congruence.
  - unfold BuildNetwork_line, getitem. rewrite Hline. cbn [Py.bind].
    rewrite Hlen, Hhash, Hres, Hsrc. unfold MakeVSource.
    destruct (MakeVSource_while float_of_str (skipn (LineNum + 1) FileTxt)
                (LineNum + 1) VoltageSource.__init__) as [r|e] eqn:Hw.
    + exfalso. exact (MakeVSource_while_unclosed _ Hrest _ _ _ Hw).
    + cbn [Py.bind]. discriminate.
  - apply Nat.ltb_ge in Hlt. apply nth_error_None in Hlt. congruence.
Qed.

Lemma BuildNetwork_while_unclosed_loop (fuel : nat) (self : ResistorNetwork)
  (LineNum : nat) (FileTxt : list string) (line : string) :
  nth_error FileTxt LineNum = Some line ->
  (String.length (strip (lower line)) <? 1)%nat = false ->
  match String.get 0 (strip (lower line)) with
  | Some c => Ascii.eqb c "#"%char
  | None => false
  end = false ->
  contains "resistor" (strip (lower line)) = false ->
  contains "source" (strip (lower line)) = false ->
  contains "loop" (strip (lower line)) = true ->
  Forall (fun l => contains "loop" (lower l) = false) (skipn (LineNum + 1) FileTxt) ->
  forall net, BuildNetwork_while float_of_str fuel self LineNum FileTxt <> Some (Returns net).
Proof.
  intros Hline Hlen Hhash Hres Hsrc Hloop Hrest net.
  destruct fuel as [|fuel]; cbn [BuildNetwork_while];
    destruct (LineNum <? List.length FileTxt)%nat eqn:Hlt;
    try discriminate.
  - apply Nat.ltb_ge in Hlt. apply nth_error_None in Hlt. congruence.
  - unfold BuildNetwork_line, getitem. rewrite Hline. cbn [Py.bind].
    rewrite Hlen, Hhash, Hres, Hsrc, Hloop. unfold MakeLoop.
    destruct (MakeLoop_while (skipn (LineNum + 1) FileTxt)
                (LineNum + 1) Loop.__init__) as [r|e] eqn:Hw.
    + exfalso. exact (MakeLoop_while_unclosed _ Hrest _ _ _ Hw).
    + cbn [Py.bind]. discriminate.
  - apply Nat.ltb_ge in Hlt. apply nth_error_None in Hlt. congruence.
Qed.

(** C9 fails on the code.  A file that ends inside a source block or a
    loop block makes [MakeVSource] or [MakeLoop] read [Txt[N]] at
    [N = len(Txt)]: they raise [IndexError], and [BuildNetworkFromFile]
    with them.  [MakeResistor], which checks the index, returns. *)
Theorem truncated_block_raises_IndexError :
  (forall self N Txt,
     (List.length Txt <= N + 1)%nat ->
     MakeVSource float_of_str self N Txt = Raises IndexError /\
     MakeLoop self N Txt = Raises IndexError /\
     MakeResistor float_of_str self N Txt = Returns (self, (N + 1)%nat)) /\
  BuildNetworkFromFile float_of_str "source" = Some (Raises IndexError) /\
  BuildNetworkFromFile float_of_str "loop" = Some (Raises IndexError) /\
  BuildNetworkFromFile float_of_str "<Source>
Name = ab
Type = ideal" = Some (Raises IndexError) /\
  BuildNetworkFromFile float_of_str "<Resistor>
Name = ab" = Some (Returns (set_Resistors __init__ [Bench.resistor 1 "ab"])).
Proof.
  split; [|repeat split; vm_compute; reflexivity].
  intros self N Txt HN.
  unfold MakeVSource, MakeLoop, MakeResistor.
  rewrite (skipn_all2 Txt) by lia.
  destruct (Nat.ltb_spec (N + 1) (List.length Txt)); [lia|].
  repeat split.
Qed.

End ReadingAFile.

(** ** Pipes: what the methods leave in place *)

Section FrameFacts.
Import Pipes Frame.

Variable E : Env.
Variable src : source_file.

Lemma same_nodes_refl (s : state E) : same_nodes s s.
Proof. intros a. split; reflexivity. Qed.

Lemma same_nodes_trans (s1 s2 s3 : state E) :
  same_nodes s1 s2 -> same_nodes s2 s3 -> same_nodes s1 s3.
Proof.
  intros H12 H23 a. destruct (H12 a) as [<- <-]. exact (H23 a).
Qed.

Lemma preserves_ret {X : Type} (x : X) : preserves_nodes (@ret E X x).
Proof. intros s y s' H. injection H as _ <-. apply same_nodes_refl. Qed.

Lemma preserves_lift {X : Type} (m : pyresult X) : preserves_nodes (@lift E X m).
Proof.
  intros s y s' H. unfold lift in H. destruct m; [|discriminate H].
  injection H as _ <-. apply same_nodes_refl.
Qed.

Lemma preserves_deref (self : nat) : preserves_nodes (deref E self).
Proof. intros s y s' H. injection H as _ <-. apply same_nodes_refl. Qed.

Lemma preserves_bindM {X Y : Type} (m : M E X) (k : X -> M E Y) :
  preserves_nodes m -> (forall x, preserves_nodes (k x)) -> preserves_nodes (bindM m k).
Proof.
  intros Hm Hk s y s' H. bindM_inv H.
  exact (same_nodes_trans _ _ _ (Hm _ _ _ E0) (Hk _ _ _ _ H)).
Qed.

(** Writing back a pipe that kept its end nodes. *)
Lemma preserves_store_field (self : nat) (f : Pipe.t -> Pipe.t) :
  (forall p, Pipe.startNode (f p) = Pipe.startNode p /\ Pipe.endNode (f p) = Pipe.endNode p) ->
  preserves_nodes (bindM (deref E self) (fun p => store E self (f p))).
Proof.
  intros Hf s y s' H. injection H as _ <-. intros a. cbn [heap]. unfold update.
  destruct (Nat.eqb_spec a self) as [->|_]; [apply Hf|split; reflexivity].
Qed.

Lemma preserves_assign_Q (self : nat) (x : float) : preserves_nodes (assign_Q E self x).
Proof. apply preserves_store_field. intros p. split; reflexivity. Qed.

Lemma preserves_assign_vel (self : nat) (x : float) : preserves_nodes (assign_vel E self x).
Proof. apply preserves_store_field. intros p. split; reflexivity. Qed.

Lemma preserves_assign_reynolds (self : nat) (x : float) :
  preserves_nodes (assign_reynolds E self x).
Proof. apply preserves_store_field. intros p. split; reflexivity. Qed.

Lemma preserves_draw_normalvariate (mu sigma : float) :
  preserves_nodes (draw_normalvariate E mu sigma).
Proof.
  intros s y s' H. unfold draw_normalvariate in H.
  destruct (normalvariate E mu sigma (rng s)). injection H as _ <-.
  intros a. split; reflexivity.
Qed.

Lemma preserves_mapM {X Y : Type} (f : X -> M E Y) (l : list X) :
  (forall x, preserves_nodes (f x)) -> preserves_nodes (mapM f l).
Proof.
  intros Hf. induction l as [|x l IH]; cbn [mapM].
  - apply preserves_ret.
  - apply preserves_bindM; [apply Hf|intros y].
    apply preserves_bindM; [exact IH|intros ys]. apply preserves_ret.
Qed.

Create HintDb frame.
Hint Resolve preserves_assign_Q preserves_assign_vel preserves_assign_reynolds
  preserves_draw_normalvariate : frame.

(** Takes a method built from the pieces above apart. *)
Ltac frame :=
  cbv zeta;
  repeat first
    [ apply preserves_ret
    | apply preserves_lift
    | apply preserves_deref
    | solve [auto with frame]
    | apply preserves_bindM; [|intro]
    | match goal with
      | |- preserves_nodes (match ?c with _ => _ end) => destruct c
      end ].

Lemma preserves_V (self : nat) : preserves_nodes (V E self).
Proof. unfold V. frame. Qed.
Hint Resolve preserves_V : frame.

Lemma preserves_Re (self : nat) : preserves_nodes (Re E src self).
Proof. unfold Re. frame. Qed.
Hint Resolve preserves_Re : frame.

Lemma preserves_FrictionFactor (self : nat) : preserves_nodes (FrictionFactor E src self).
Proof. unfold FrictionFactor. frame. Qed.
Hint Resolve preserves_FrictionFactor : frame.

Lemma preserves_frictionHeadLoss (self : nat) :
  preserves_nodes (frictionHeadLoss E src self).
Proof. unfold frictionHeadLoss. frame. Qed.
Hint Resolve preserves_frictionHeadLoss : frame.

Lemma preserves_getFlowHeadLoss (self : nat) (n : string) :
  preserves_nodes (getFlowHeadLoss E src self n).
Proof. unfold getFlowHeadLoss. frame. Qed.
Hint Resolve preserves_getFlowHeadLoss : frame.

Lemma preserves_getFlowIntoNode (self : nat) (n : string) :
  preserves_nodes (getFlowIntoNode E self n).
Proof. unfold getFlowIntoNode. frame. Qed.
Hint Resolve preserves_getFlowIntoNode : frame.

Lemma preserves_getNetFlowRate (N : Node.t) : preserves_nodes (getNetFlowRate E N).
Proof.
  unfold getNetFlowRate. generalize (Node.extFlow N).
  induction (Node.pipes N) as [|p ps IH]; intros Qtot; cbn [getNetFlowRate_for]; frame.
Qed.
Hint Resolve preserves_getNetFlowRate : frame.

Lemma preserves_getLoopHeadLoss_for (ps : list nat) :
  forall deltaP n, preserves_nodes (getLoopHeadLoss_for E src ps deltaP n).
Proof.
  induction ps as [|p ps IH]; intros deltaP n; cbn [getLoopHeadLoss_for]; frame.
Qed.
Hint Resolve preserves_getLoopHeadLoss_for : frame.

Lemma preserves_getLoopHeadLoss (L : Loop.t) : preserves_nodes (getLoopHeadLoss E src L).
Proof. unfold getLoopHeadLoss. frame. Qed.
Hint Resolve preserves_getLoopHeadLoss : frame.

Lemma preserves_fn_for (q : list float) (ps : list nat) :
  forall i, preserves_nodes (fn_for E ps i q).
Proof.
  induction ps as [|p ps IH]; intros i; cbn [fn_for]; frame.
Qed.
Hint Resolve preserves_fn_for : frame.

Lemma preserves_fn (net : PipeNetwork) (q : list float) : preserves_nodes (fn E src net q).
Proof.
  unfold fn, getNodeFlowRates, getLoopHeadLosses. frame.
  - apply preserves_mapM. auto with frame.
  - apply preserves_mapM. auto with frame.
Qed.

End FrameFacts.

(** ** Pipes: orientation *)
Section Orientation.
Import Pipes Frame.

Lemma ltb_antisym_false (a b : string) : String.ltb a b = true -> String.ltb b a = false.
Proof.
  unfold String.ltb. rewrite (String.compare_antisym a b).
  destruct (String.compare b a); cbn; congruence.
Qed.

Lemma leb_min_max (a b : string) : String.leb (min a b) (max a b) = true.
Proof.
  unfold min, max, String.ltb.
  pose proof (String.compare_antisym a b) as Hab.
  destruct (String.compare b a) eqn:Hba; cbn in Hab; rewrite Hab; unfold String.leb.
  - apply String.compare_eq_iff in Hba. subst b. rewrite Hab. reflexivity.
  - rewrite Hba. reflexivity.
  - rewrite Hab. reflexivity.
Qed.

Lemma ltb_min_max (a b : string) : a <> b -> String.ltb (min a b) (max a b) = true.
Proof.
  intros Hne. unfold min, max, String.ltb.
  pose proof (String.compare_antisym a b) as Hab.
  destruct (String.compare b a) eqn:Hba; cbn in Hab; rewrite Hab.
  - exfalso. apply Hne. symmetry. apply String.compare_eq_iff. exact Hba.
  - rewrite Hba. reflexivity.
  - rewrite Hab. reflexivity.
Qed.

Lemma min_max_same (a : string) : min a a = a /\ max a a = a.
Proof. unfold min, max. destruct (String.ltb a a); split; reflexivity. Qed.

(** What follows the first assignments of the constructor keeps the end
    nodes of every pipe. *)
Lemma Pipe__init__nodes (E : Env) (src : source_file) (self : nat)
  (Start End_ : string) (L D r : float) (fluid : Fluid.t) (s s' : state E) (u : unit) :
  Pipe__init__ E src self Start End_ L D r fluid s = Returns (u, s') ->
  Pipe.startNode (heap s' self) = min Start End_ /\
  Pipe.endNode (heap s' self) = max Start End_.
Proof.
  unfold Pipe__init__. cbv zeta. intros H. do 3 bindM_inv1 H.
  assert (Hrest : same_nodes s2 s').
  { refine ((_ : preserves_nodes
                   (v <~ V E self ;; _ <~ assign_vel E self v ;;
                    x <~ Re E src self ;; assign_reynolds E self x)) _ _ _ H).
    apply preserves_bindM; [apply preserves_V|intro].
    apply preserves_bindM; [apply preserves_assign_vel|intro].
    apply preserves_bindM; [apply preserves_Re|intro].
    apply preserves_assign_reynolds. }
  destruct (Hrest self) as [-> ->].
  unfold lift in E0, E1.
  destruct (truediv r (D / 1000)) ; [|discriminate E0].
  destruct (pow2 E (D / 1000)); [|discriminate E1].
  injection E0 as _ <-. injection E1 as _ <-. injection E2 as _ <-.
  cbn [heap]. unfold update. rewrite Nat.eqb_refl. split; reflexivity.
Qed.

(** C7, as the code has it.  The constructor stores the smaller name as
    [startNode] and the larger as [endNode]: [startNode <= endNode] always,
    [startNode < endNode] when the two names differ, and
    [startNode = endNode] when they are equal.  Every method of the pipe
    network keeps the end nodes of every pipe, and the flow into a node is
    [-Q] at [startNode] and [Q] elsewhere. *)
Theorem Pipe_orientation (E : Env) (src : source_file) :
  (forall self Start End_ L D r fluid s u s',
     Pipe__init__ E src self Start End_ L D r fluid s = Returns (u, s') ->
     let p := heap s' self in
     Pipe.startNode p = min Start End_ /\
     Pipe.endNode p = max Start End_ /\
     String.leb (Pipe.startNode p) (Pipe.endNode p) = true /\
     (Start <> End_ -> String.ltb (Pipe.startNode p) (Pipe.endNode p) = true) /\
     (Start = End_ -> Pipe.startNode p = Pipe.endNode p)) /\
  (forall self n x,
     preserves_nodes (V E self) /\
     preserves_nodes (Re E src self) /\
     preserves_nodes (FrictionFactor E src self) /\
     preserves_nodes (frictionHeadLoss E src self) /\
     preserves_nodes (getFlowHeadLoss E src self n) /\
     preserves_nodes (getFlowIntoNode E self n) /\
     preserves_nodes (assign_Q E self x)) /\
  (forall N, preserves_nodes (getNetFlowRate E N)) /\
  (forall L, preserves_nodes (getLoopHeadLoss E src L)) /\
  (forall net q, preserves_nodes (fn E src net q)) /\
  (forall net, preserves_nodes (HW6_2_OOP.findFlowRates E net)) /\
  (forall self n s,
     getFlowIntoNode E self n s =
       Returns (if n =? Pipe.startNode (heap s self)
                then (- Pipe.Q (heap s self))%float else Pipe.Q (heap s self), s)).
Proof.
  split; [|split; [|split; [|split; [|split; [|split]]]]].
  - intros self Start End_ L D r fluid s u s' H p. subst p.
    destruct (Pipe__init__nodes _ _ _ _ _ _ _ _ _ _ _ _ H) as [-> ->].
    repeat split.
    + apply leb_min_max.
    + apply ltb_min_max.
    + intros <-. destruct (min_max_same Start) as [-> ->]. reflexivity.
  - intros self n x.
    repeat match goal with |- _ /\ _ => split end;
      auto using preserves_V, preserves_Re, preserves_FrictionFactor,
        preserves_frictionHeadLoss, preserves_getFlowHeadLoss,
        preserves_getFlowIntoNode, preserves_assign_Q.
  - apply preserves_getNetFlowRate.
  - apply preserves_getLoopHeadLoss.
  - apply preserves_fn.
  - intros net. unfold HW6_2_OOP.findFlowRates. apply preserves_ret.
  - intros self n s. unfold getFlowIntoNode, bindM, deref.
    destruct (n =? Pipe.startNode (heap s self)); reflexivity.
Qed.

(** [Pipe('b', 'a', ...)] is stored from [a] to [b]. *)
Lemma Pipe_orientation_witness :
  let s := Bench.after
             (Pipe__init__ Bench.env Problem_2_py 0 "b" "a" 100 1000 0.00025 Bench.oil)
             Bench.fresh in
  Pipe.startNode (heap s 0%nat) = "a" /\
  Pipe.endNode (heap s 0%nat) = "b" /\
  String.leb (Pipe.startNode (heap s 0%nat)) (Pipe.endNode (heap s 0%nat)) = true /\
  ("b" <> "a" -> String.ltb (Pipe.startNode (heap s 0%nat)) (Pipe.endNode (heap s 0%nat)) = true) /\
  ("b" = "a" -> Pipe.startNode (heap s 0%nat) = Pipe.endNode (heap s 0%nat)).
Proof.
  intros s. subst s. unfold Bench.after.
  destruct (Pipe__init__ Bench.env Problem_2_py 0 "b" "a" 100 1000 0.00025 Bench.oil
              Bench.fresh) as [[u s']|e] eqn:H.
  - exact (proj1 (Pipe_orientation Bench.env Problem_2_py) _ _ _ _ _ _ _ _ _ _ H).
  - vm_compute in H. discriminate H.
Defined.

(** C7, as the claim states it, fails: [Pipe('a', 'a', ...)] is built, and
    its [startNode] is not below its [endNode]. *)
Lemma Pipe_with_one_node_is_not_oriented :
  let init := Pipe__init__ Bench.env HW6_2_OOP_py 0 "a" "a" 100 1000 0.00025 Bench.oil in
  let p := heap (Bench.after init Bench.fresh) 0%nat in
  Bench.value init Bench.fresh = Returns tt /\
  Pipe.startNode p = "a" /\ Pipe.endNode p = "a" /\
  String.ltb (Pipe.startNode p) (Pipe.endNode p) = false.
Proof. repeat split; vm_compute; reflexivity. Qed.

End Orientation.

(** ** Pipes: friction *)
Section Friction.
Import Pipes.





(** The head loss in each file, for every pipe and state. *)
Lemma frictionHeadLoss_Problem_2 (E : Env) (self : nat) (s s1 s2 : state E)
  (ff v v2 : float) :
  FrictionFactor E Problem_2_py self s = Returns (ff, s1) ->
  V E self s1 = Returns (v, s2) ->
  pow2 E v = Returns v2 ->
  let p := heap s2 self in
  frictionHeadLoss E Problem_2_py self s =
    lift (truediv (4 * ff * Pipe.length p * v2)%float (2 * 9.81 * Pipe.d p)%float) s2.
Proof.
  intros Hff Hv Hv2 p. unfold frictionHeadLoss. cbv zeta.
  unfold bindM at 1. rewrite Hff.
  unfold bindM at 1. rewrite Hv.
  unfold bindM at 1, lift at 1. rewrite Hv2.
  reflexivity.
Qed.

Lemma frictionHeadLoss_HW6_2_OOP (E : Env) (self : nat) (s s1 : state E)
  (ff v2 : float) :
  FrictionFactor E HW6_2_OOP_py self s = Returns (ff, s1) ->
  let p := heap s1 self in
  pow2 E (Pipe.vel p) = Returns v2 ->
  frictionHeadLoss E HW6_2_OOP_py self s =
    lift (truediv (ff * Pipe.length p * v2)%float (2 * 9.81 * Pipe.d p)%float) s1.
Proof.
  intros Hff p Hv2. unfold frictionHeadLoss. cbv zeta.
  unfold bindM at 1. rewrite Hff.
  unfold bindM at 1, deref at 1.
  unfold bindM at 1, lift at 1. fold p. rewrite Hv2.
  reflexivity.
Qed.

(** In [HW6_2_OOP.py] no method but [V] writes [vel], and [V] is called by
    the constructor only: setting [Q] leaves [vel] as it was. *)
Lemma assign_Q_keeps_vel (E : Env) (self : nat) (x : float) (s s' : state E) (u : unit) :
  assign_Q E self x s = Returns (u, s') ->
  forall a, Pipe.vel (heap s' a) = Pipe.vel (heap s a).
Proof.
  intros H a. injection H as _ <-. cbn [heap]. unfold update.
  destruct (Nat.eqb_spec a self) as [->|_]; reflexivity.
Qed.

(** C1 fails on the code, in each file its own way.  On the bench pipe
    ([f = 5.03], [L = 100], [v = 12.7], [d = 1]) the Darcy-Weisbach head
    loss [f * L * v^2 / (2 * g * d)] is 4153.28.
    - [Problem 2.py] returns four times that, 16613.12.
    - [HW6_2_OOP.py] returns 4153.28, and still does after [Q] was set to
      3: it reads the velocity that the constructor stored, 12.7, while
      the average velocity for [Q = 3] is 3.82, for which the formula
      gives 373.80. *)
Theorem frictionHeadLoss_on_the_bench_pipe :
  let g := 9.81%float in
  let L := 100%float in
  let d := 1%float in
  let f := 5.026548245743669%float in
  let v := 12.732395447351628%float in
  let v3 := 3.8197186342054881%float in
  Bench.value (FrictionFactor Bench.env Problem_2_py 0) (Bench.built Problem_2_py)
    = Returns f /\
  Bench.value (V Bench.env 0) (Bench.built Problem_2_py) = Returns v /\
  (f * L * (v * v) / (2 * g * d))%float = 4153.2788411340689%float /\
  Bench.value (frictionHeadLoss Bench.env Problem_2_py 0) (Bench.built Problem_2_py)
    = Returns 16613.115364536276%float /\
  Bench.value (frictionHeadLoss Bench.env HW6_2_OOP_py 0) (Bench.built HW6_2_OOP_py)
    = Returns 4153.2788411340689%float /\
  Bench.value (FrictionFactor Bench.env HW6_2_OOP_py 0) (Bench.with_Q HW6_2_OOP_py 3)
    = Returns f /\
  Bench.value (V Bench.env 0) (Bench.with_Q HW6_2_OOP_py 3) = Returns v3 /\
  (f * L * (v3 * v3) / (2 * g * d))%float = 373.79509570206608%float /\
  Bench.value (frictionHeadLoss Bench.env HW6_2_OOP_py 0) (Bench.with_Q HW6_2_OOP_py 3)
    = Returns 4153.2788411340689%float.
Proof. repeat split; vm_compute; reflexivity. Qed.

(** C10.  [findFlowRates] of [HW6_2_OOP.py] returns [None] and leaves the
    state as it found it: every field of every pipe, [Q] among them. *)
Theorem findFlowRates_returns_None (E : Env) (net : PipeNetwork) (s : state E) :
  HW6_2_OOP.findFlowRates E net s = Returns (None, s) /\
  (forall s', (exists r, HW6_2_OOP.findFlowRates E net s = Returns (r, s')) ->
     forall a, heap s' a = heap s a /\ Pipe.Q (heap s' a) = Pipe.Q (heap s a)).
Proof.
  split; [reflexivity|].
  intros s' [r H]. injection H as _ <-. intros a. split; reflexivity.
Qed.

(** The callback would have written the flow rates: run by hand on the
    one-pipe network it sets [Q] to 3, and [findFlowRates] leaves the 10
    of the constructor. *)
Example fn_is_not_run :
  let s := Bench.built HW6_2_OOP_py in
  Pipe.Q (heap s 0%nat) = 10%float /\
  Pipe.Q (heap (Bench.after (fn Bench.env HW6_2_OOP_py Bench.one_pipe [3; 0]%float) s) 0%nat)
    = 3%float /\
  Pipe.Q (heap (Bench.after (HW6_2_OOP.findFlowRates Bench.env Bench.one_pipe) s) 0%nat)
    = 10%float /\
  Bench.value (HW6_2_OOP.findFlowRates Bench.env Bench.one_pipe) s = Returns None.
Proof. repeat split; vm_compute; reflexivity. Qed.

End Friction.

(** ** Pipes: the loop constraint *)
Section LoopConstraint.
Import Pipes Frame LoopSpec.

Variable E : Env.
Variable src : source_file.

(** The traversal reads the end nodes of the pipes and nothing else. *)
Lemma traversal_same_nodes (s s' : state E) :
  same_nodes s s' ->
  forall ps current, traversal (heap s') ps current = traversal (heap s) ps current.
Proof.
  intros Hs. induction ps as [|p ps IH]; intros current; cbn [traversal]; [reflexivity|].
  unfold far_node. destruct (Hs p) as [-> ->]. rewrite IH. reflexivity.
Qed.

(** The [for] loop of [getLoopHeadLoss] computes the head losses of the
    traversal's steps and adds them to [deltaP] from the left. *)
Lemma getLoopHeadLoss_for_traversal (ps : list nat) :
  forall deltaP current s,
    getLoopHeadLoss_for E src ps deltaP current s =
    (hs <~ mapM (fun step => getFlowHeadLoss E src (fst step) (snd step))
                (traversal (heap s) ps current) ;;
     ret (fold_left PrimFloat.add hs deltaP)) s.
Proof.
  induction ps as [|p ps IH]; intros deltaP current s; [reflexivity|].
  cbn [getLoopHeadLoss_for traversal mapM]. unfold bindM at 1 3 4. cbn [fst snd].
  destruct (getFlowHeadLoss E src p current s) as [[phl s1]|e] eqn:Hp; [|reflexivity].
  unfold bindM at 1, deref at 1.
  change (if negb (current =? Pipe.endNode (heap s1 p))
          then Pipe.endNode (heap s1 p) else Pipe.startNode (heap s1 p))
    with (far_node (heap s1 p) current).
  rewrite IH.
  pose proof (preserves_getFlowHeadLoss E src p current _ _ _ Hp) as Hs.
  rewrite (traversal_same_nodes _ _ Hs).
  unfold far_node at 1. destruct (Hs p) as [-> ->]. fold (far_node (heap s p) current).
  unfold bindM.
  destruct (mapM _ (traversal (heap s) ps (far_node (heap s p) current)) s1)
    as [[hs s2]|e]; reflexivity.
Qed.

End LoopConstraint.

Section LoopHeadLoss.
Import Pipes Frame LoopSpec.

(** C3, as the code has it.  For a loop with at least one pipe,
    [getLoopHeadLoss] of [Problem 2.py] returns the signed sum of the
    traversal, and that of [HW6_2_OOP.py] returns the absolute value of
    the signed sum, which is zero exactly when the signed sum is. *)
Theorem getLoopHeadLoss_signed_sum (E : Env) (L : Loop.t) (s : state E) :
  Loop.pipes L <> [] ->
  getLoopHeadLoss E Problem_2_py L s = signed_sum E Problem_2_py (Loop.pipes L) s /\
  getLoopHeadLoss E HW6_2_OOP_py L s =
    (x <~ signed_sum E HW6_2_OOP_py (Loop.pipes L) ;; ret (abs x)) s /\
  (forall x : float, (abs x =? 0)%float = (x =? 0)%float).
Proof.
  intros Hne. destruct (Loop.pipes L) as [|p0 ps] eqn:HL; [contradiction|].
  repeat match goal with |- _ /\ _ => split end; [| |exact abs_eqb_0].
  - unfold getLoopHeadLoss, signed_sum. rewrite HL.
    unfold bindM at 1 2 3. cbn [getitem nth_error lift deref hd].
    rewrite getLoopHeadLoss_for_traversal. unfold bindM.
    destruct (mapM _ _ s) as [[hs s1]|e]; reflexivity.
  - unfold getLoopHeadLoss, signed_sum. rewrite HL.
    unfold bindM at 1 2 3. cbn [getitem nth_error lift deref hd].
    rewrite getLoopHeadLoss_for_traversal. unfold bindM.
    destruct (mapM _ _ s) as [[hs s1]|e]; reflexivity.
Qed.

(** The one-pipe loop, with the flow reversed. *)
Lemma getLoopHeadLoss_signed_sum_witness :
  let s := Bench.with_Q Problem_2_py (-1) in
  let sh := Bench.with_Q HW6_2_OOP_py (-1) in
  getLoopHeadLoss Bench.env Problem_2_py Bench.loop_A s
    = signed_sum Bench.env Problem_2_py [0%nat] s /\
  getLoopHeadLoss Bench.env HW6_2_OOP_py Bench.loop_A sh
    = (x <~ signed_sum Bench.env HW6_2_OOP_py [0%nat] ;; ret (abs x)) sh.
Proof.
  intros s sh.
  assert (Hne : Loop.pipes Bench.loop_A <> []) by discriminate.
  split.
  - exact (proj1 (getLoopHeadLoss_signed_sum Bench.env Bench.loop_A s Hne)).
  - exact (proj1 (proj2 (getLoopHeadLoss_signed_sum Bench.env Bench.loop_A sh Hne))).
Defined.

(** C3, as the claim states it, fails in [HW6_2_OOP.py]: with the flow of
    the bench pipe reversed the signed sum of the one-pipe loop is
    -4153.28, and [getLoopHeadLoss] returns 4153.28. *)
Lemma getLoopHeadLoss_HW6_2_OOP_drops_the_sign :
  let s := Bench.with_Q HW6_2_OOP_py (-1) in
  Bench.value (signed_sum Bench.env HW6_2_OOP_py (Loop.pipes Bench.loop_A)) s
    = Returns (-4153.2788411340689)%float /\
  Bench.value (getLoopHeadLoss Bench.env HW6_2_OOP_py Bench.loop_A) s
    = Returns 4153.2788411340689%float /\
  (4153.2788411340689 =? -4153.2788411340689)%float = false.
Proof. repeat split; vm_compute; reflexivity. Qed.

End LoopHeadLoss.

(** ** The length of the residual vector *)
Section ResidualLength.
Import Pipes.

Lemma mapM_length {E : Env} {X Y : Type} (f : X -> M E Y) (l : list X) :
  forall s ys s', mapM f l s = Returns (ys, s') -> List.length ys = List.length l.
Proof.
  induction l as [|x l IH]; intros s ys s' H; cbn [mapM] in H.
  - injection H as <- _. reflexivity.
  - bindM_inv H. injection H as <- _. cbn [List.length]. f_equal. exact (IH _ _ _ E1).
Qed.

Lemma fn_length (E : Env) (src : source_file) (net : PipeNetwork) (q : list float)
  (s s' : state E) (res : list float) :
  fn E src net q s = Returns (res, s') ->
  List.length res = (List.length (nodes net) + List.length (loops net))%nat.
Proof.
  unfold fn, getNodeFlowRates, getLoopHeadLosses. intros H.
  do 3 bindM_inv1 H. injection H as <- _.
  rewrite length_app, (mapM_length _ _ _ _ _ E1), (mapM_length _ _ _ _ _ E2).
  reflexivity.
Qed.

(** C6, as the code has it.  The length of the residual vector is fixed
    by the network, not by the vector of unknowns.  [GetKirchoffVals] of
    [HW6_1_2_OOP.py] returns two entries more than the inherited
    [GetLoopVoltageDrops] (with the base class of [Problem 1.py]: two more
    than there are loops); [GetKirchoffVals] of [Problem 1.py] returns one
    entry more than there are loops; [fn], in both files, returns one
    entry per node and one per loop. *)
Theorem residual_length :
  (forall set_Current_by_name GetLoopVoltageDrops self i res self',
     HW6_1_2_OOP.GetKirchoffVals set_Current_by_name GetLoopVoltageDrops self i
       = Returns (res, self') ->
     exists KVL,
       GetLoopVoltageDrops self' = Returns KVL /\
       List.length res = (List.length KVL + 2)%nat) /\
  (forall self i res self',
     HW6_1_2_OOP.GetKirchoffVals
       Problem_1.set_Current_by_name Problem_1.GetLoopVoltageDrops self i
       = Returns (res, self') ->
     List.length res = (List.length (Problem_1.Loops self) + 2)%nat) /\
  (forall self i res self',
     Problem_1.GetKirchoffVals self i = Returns (res, self') ->
     List.length res = (List.length (Problem_1.Loops self) + 1)%nat) /\
  (forall E src net q s res s',
     fn E src net q s = Returns (res, s') ->
     List.length res = (List.length (nodes net) + List.length (loops net))%nat).
Proof.
  repeat match goal with |- _ /\ _ => split end.
  - intros set_Current_by_name GetLoopVoltageDrops self i res self' H.
    unfold HW6_1_2_OOP.GetKirchoffVals in H.
    bind_inv H. injection H as <- <-. eexists. split; [eassumption|].
    rewrite !length_app. cbn. lia.
  - intros self i res self' H. unfold HW6_1_2_OOP.GetKirchoffVals in H.
    bind_inv H. injection H as <- _.
    rewrite !length_app.
    match goal with
    | HK : Problem_1.GetLoopVoltageDrops _ = Returns _ |- _ =>
        rewrite (GetLoopVoltageDrops_length _ _ HK)
    end.
    repeat match goal with
           | HS : Problem_1.set_Current_by_name _ _ _ = Returns _ |- _ =>
               rewrite (set_Current_by_name_Loops _ _ _ _ HS); clear HS
           end.
    cbn. lia.
  - intros self i res self' H. unfold Problem_1.GetKirchoffVals in H.
    bind_inv H. injection H as <- _.
    rewrite !length_app.
    match goal with
    | HK : Problem_1.GetLoopVoltageDrops _ = Returns _ |- _ =>
        rewrite (GetLoopVoltageDrops_length _ _ HK)
    end.
    repeat match goal with
           | HS : Problem_1.set_Current_by_name _ _ _ = Returns _ |- _ =>
               rewrite (set_Current_by_name_Loops _ _ _ _ HS); clear HS
           end.
    cbn. lia.
  - intros E src net q s res s'. apply fn_length.
Qed.

(** On the bench circuit with four currents, and on the one-pipe network
    with two flow rates, the residual functions return vectors of the
    lengths stated. *)
Lemma residual_length_witness :
  match HW6_1_2_OOP.GetKirchoffVals
          Problem_1.set_Current_by_name Problem_1.GetLoopVoltageDrops
          Bench.circuit [1; 2; 3; 4]%float with
  | Returns (res, _) => List.length res = 4%nat
  | Raises _ => False
  end /\
  match fn Bench.env HW6_2_OOP_py Bench.one_pipe [3; 0]%float
          (Bench.built HW6_2_OOP_py) with
  | Returns (res, _) => List.length res = 2%nat
  | Raises _ => False
  end.
Proof.
  split.
  - destruct (HW6_1_2_OOP.GetKirchoffVals
                Problem_1.set_Current_by_name Problem_1.GetLoopVoltageDrops
                Bench.circuit [1; 2; 3; 4]%float) as [[res self']|e] eqn:H.
    + exact (proj1 (proj2 residual_length) _ _ _ _ H).
    + vm_compute in H. discriminate H.
  - destruct (fn Bench.env HW6_2_OOP_py Bench.one_pipe [3; 0]%float
                (Bench.built HW6_2_OOP_py)) as [[res s']|e] eqn:H.
    + exact (proj2 (proj2 (proj2 residual_length)) _ _ _ _ _ _ _ H).
    + vm_compute in H. discriminate H.
Defined.

(** C6, as the claim states it, fails: five unknowns give the bench
    circuit's [GetKirchoffVals] a residual of four entries
    ([HW6_1_2_OOP.py]) or of three ([Problem 1.py], whose [AnalyzeCircuit]
    starts [fsolve] from [np.zeros(5)]), and one unknown gives the one-pipe
    network's [fn] a residual of two. *)
Lemma residual_length_differs_from_input_length :
  match HW6_1_2_OOP.GetKirchoffVals
          Problem_1.set_Current_by_name Problem_1.GetLoopVoltageDrops
          Bench.circuit [1; 2; 3; 4; 5]%float with
  | Returns (res, _) => res = [9; -3; -4; 0]%float
  | Raises _ => False
  end /\
  match Problem_1.GetKirchoffVals Bench.circuit [0; 0; 0; 0; 0]%float with
  | Returns (res, _) => res = [16; 8; 0]%float
  | Raises _ => False
  end /\
  List.length [1; 2; 3; 4; 5]%float = 5%nat /\
  Bench.value (fn Bench.env HW6_2_OOP_py Bench.one_pipe [3]%float)
    (Bench.built HW6_2_OOP_py) = Returns [-3; 3]%float /\
  List.length [3]%float = 1%nat.
Proof. repeat split; vm_compute; reflexivity. Qed.

End ResidualLength.

(** ** [HW6_2_OOP.py]: the head loss does not see the flow rate *)
Section StaleVelocity.
Import Pipes Frame.

Variable E : Env.


Lemma alike_bindM {X Y : Type} (R : X -> X -> Prop) (R' : Y -> Y -> Prop)
  (m m' : M E X) (k k' : X -> M E Y) :
  alike R m m' -> (forall x x', R x x' -> alike R' (k x) (k' x')) ->
  alike R' (bindM m k) (bindM m' k').
Proof.
  intros Hm Hk s s' Hs. unfold bindM. specialize (Hm s s' Hs).
  destruct (m s) as [[x t]|e], (m' s') as [[x' t']|e']; try contradiction.
  - destruct Hm as [Hx Ht]. exact (Hk x x' Hx t t' Ht).
  - exact Hm.
Qed.

Lemma alike_ret {X : Type} (R : X -> X -> Prop) (x x' : X) :
  R x x' -> alike R (ret (E := E) x) (ret x').
Proof. intros Hx s s' Hs. split; assumption. Qed.

Lemma alike_lift {X : Type} (m : pyresult X) : alike eq (lift (E := E) m) (lift m).
Proof.
  intros s s' Hs. unfold lift. destruct m; [split; [reflexivity|assumption]|reflexivity].
Qed.

Lemma alike_deref (self : nat) : alike but_Q (deref E self) (deref E self).
Proof. intros s s' Hs. split; [apply Hs|assumption]. Qed.

Lemma alike_assign_reynolds (self : nat) (x : float) :
  alike eq (assign_reynolds E self x) (assign_reynolds E self x).
Proof.
  intros s s' [Hg Hh]. split; [reflexivity|]. split; [exact Hg|].
  intros a. cbn [heap]. unfold update. destruct (a =? self)%nat; [|apply Hh].
  specialize (Hh self). unfold but_Q in *.
  destruct (heap s self), (heap s' self). cbn in *.
  injection Hh as -> -> -> -> -> -> -> -> -> ->. reflexivity.
Qed.

Lemma alike_draw_normalvariate (mu sigma : float) :
  alike eq (draw_normalvariate E mu sigma) (draw_normalvariate E mu sigma).
Proof.
  intros s s' [Hg Hh]. unfold draw_normalvariate. rewrite Hg.
  destruct (normalvariate E mu sigma (rng s')). split; [reflexivity|].
  split; [reflexivity|exact Hh].
Qed.

(** The fields a pipe of [HW6_2_OOP.py] is read for. *)
Lemma but_Q_fields (p p' : Pipe.t) :
  but_Q p p' ->
  Pipe.vel p = Pipe.vel p' /\ Pipe.d p = Pipe.d p' /\ Pipe.fluid p = Pipe.fluid p' /\
  Pipe.relrough p = Pipe.relrough p' /\ Pipe.length p = Pipe.length p' /\
  Pipe.reynolds p = Pipe.reynolds p'.
Proof.
  unfold but_Q. destruct p, p'. cbn. intros H. injection H as -> -> -> -> -> -> -> -> -> ->.
  repeat split.
Qed.

Lemma alike_Re (self : nat) : alike eq (Re E HW6_2_OOP_py self) (Re E HW6_2_OOP_py self).
Proof.
  unfold Re. apply (alike_bindM but_Q); [apply alike_deref|].
  intros p p' Hp. destruct (but_Q_fields _ _ Hp) as (-> & -> & -> & _).
  apply (alike_bindM eq); [apply alike_ret; reflexivity|]. intros v _ <-.
  apply (alike_bindM eq); [apply alike_lift|]. intros x _ <-.
  apply (alike_bindM eq); [apply alike_assign_reynolds|]. intros u _ <-.
  apply (alike_bindM but_Q); [apply alike_deref|].
  intros q q' Hq. apply alike_ret. apply (but_Q_fields _ _ Hq).
Qed.

Lemma alike_FrictionFactor (self : nat) :
  alike eq (FrictionFactor E HW6_2_OOP_py self) (FrictionFactor E HW6_2_OOP_py self).
Proof.
  unfold FrictionFactor. apply (alike_bindM eq); [apply alike_Re|]. intros re _ <-.
  apply (alike_bindM but_Q); [apply alike_deref|].
  intros p p' Hp. destruct (but_Q_fields _ _ Hp) as (_ & _ & _ & -> & _ & _). cbv zeta.
  destruct (4000 <=? re)%float; [apply alike_ret; reflexivity|].
  destruct (re <=? 2000)%float; [apply alike_lift|].
  apply (alike_bindM eq); [apply alike_lift|]. intros Lamff _ <-.
  apply alike_draw_normalvariate.
Qed.

Lemma alike_frictionHeadLoss (self : nat) :
  alike eq (frictionHeadLoss E HW6_2_OOP_py self) (frictionHeadLoss E HW6_2_OOP_py self).
Proof.
  unfold frictionHeadLoss. cbv zeta.
  apply (alike_bindM eq); [apply alike_FrictionFactor|]. intros ff _ <-.
  apply (alike_bindM but_Q); [apply alike_deref|].
  intros p p' Hp. destruct (but_Q_fields _ _ Hp) as (-> & -> & _ & _ & -> & _).
  apply (alike_bindM eq); [apply alike_lift|]. intros v2 _ <-.
  apply alike_lift.
Qed.

(** X30.  Whatever [Q] is set to, [frictionHeadLoss] of [HW6_2_OOP.py]
    returns the head loss it returned before, or raises as before: the
    method reads the stored velocity, which [pipe.Q = x] does not touch. *)
Lemma frictionHeadLoss_HW6_2_OOP_ignores_Q (self : nat) (x : float) (s s' : state E)
  (u : unit) :
  assign_Q E self x s = Returns (u, s') ->
  match frictionHeadLoss E HW6_2_OOP_py self s,
        frictionHeadLoss E HW6_2_OOP_py self s' with
  | Returns (hl, _), Returns (hl', _) => hl = hl'
  | Raises e, Raises e' => e = e'
  | _, _ => False
  end.
Proof.
  intros H. injection H as _ <-.
  assert (Hs : states_but_Q s {| heap := update (heap s) self (Pipe.set_Q (heap s self) x);
                                 rng := rng s |}).
  { split; [reflexivity|]. intros a. cbn [heap]. unfold update.
    destruct (Nat.eqb_spec a self) as [->|_]; reflexivity. }
  pose proof (alike_frictionHeadLoss self _ _ Hs) as Halike.
  destruct (frictionHeadLoss E HW6_2_OOP_py self s) as [[hl t]|e];
    destruct (frictionHeadLoss E HW6_2_OOP_py self _) as [[hl' t']|e'];
    try contradiction; [exact (proj1 Halike)|exact Halike].
Qed.

End StaleVelocity.

(** ** More on the lookups of [Problem 1.py] *)
Section LookupMore.
Import Problem_1.

Lemma GetElementDeltaV_resistors_None (rs : list Resistor.t) (name : string) :
  GetElementDeltaV_resistors rs name = None ->
  forall r, In r rs -> Resistor.Name r <> name /\ Resistor.Name r <> reversed name.
Proof.
  induction rs as [|r0 rs IH]; intros H r Hr; [destruct Hr|].
  cbn [GetElementDeltaV_resistors] in H.
  destruct (String.eqb_spec name (Resistor.Name r0)) as [|Hn]; [discriminate H|].
  destruct (String.eqb_spec (reversed name) (Resistor.Name r0)) as [|Hr0]; [discriminate H|].
  destruct Hr as [<-|Hr]; [split; congruence|]. apply IH; assumption.
Qed.

Lemma GetElementDeltaV_sources_None (vs : list VoltageSource.t) (name : string) :
  GetElementDeltaV_sources vs name = None ->
  forall v, In v vs ->
    VoltageSource.Name v <> name /\ VoltageSource.Name v <> reversed name.
Proof.
  induction vs as [|v0 vs IH]; intros H v Hv; [destruct Hv|].
  cbn [GetElementDeltaV_sources] in H.
  destruct (String.eqb_spec name (VoltageSource.Name v0)) as [|Hn]; [discriminate H|].
  destruct (String.eqb_spec (reversed name) (VoltageSource.Name v0)) as [|Hr0];
    [discriminate H|].
  destruct Hv as [<-|Hv]; [split; congruence|]. apply IH; assumption.
Qed.

(** X1.  [GetElementDeltaV] returns [None] exactly for the names that no
    resistor and no voltage source bears, forward or reversed. *)
Theorem GetElementDeltaV_None_iff_absent (self : ResistorNetwork) (name : string) :
  GetElementDeltaV self name = Returns None <->
  (forall r, In r (Resistors self) ->
     Resistor.Name r <> name /\ Resistor.Name r <> reversed name) /\
  (forall v, In v (VSources self) ->
     VoltageSource.Name v <> name /\ VoltageSource.Name v <> reversed name).
Proof.
  unfold GetElementDeltaV. split.
  - destruct (GetElementDeltaV_resistors (Resistors self) name) eqn:Er; [discriminate|].
    intros H. injection H as H. split.
    + apply GetElementDeltaV_resistors_None. exact Er.
    + apply GetElementDeltaV_sources_None. exact H.
  - intros [Hr Hv].
    rewrite (GetElementDeltaV_resistors_absent _ _ Hr).
    rewrite (GetElementDeltaV_sources_absent _ _ Hv). reflexivity.
Qed.

Lemma GetElementDeltaV_resistors_first (pre post : list Resistor.t)
  (r : Resistor.t) (name : string) :
  (forall r', In r' pre ->
     Resistor.Name r' <> name /\ Resistor.Name r' <> reversed name) ->
  Resistor.Name r = name \/ Resistor.Name r = reversed name ->
  GetElementDeltaV_resistors (pre ++ r :: post) name
  = Some (- (Resistor.Current r * Resistor.Resistance r))%float.
Proof.
  intros Hpre Hr. induction pre as [|w pre IH]; cbn [app GetElementDeltaV_resistors].
  - destruct (String.eqb_spec name (Resistor.Name r)); [reflexivity|].
    destruct (String.eqb_spec (reversed name) (Resistor.Name r)); [reflexivity|].
    destruct Hr; congruence.
  - destruct (Hpre w (or_introl eq_refl)) as [Hn Hw].
    destruct (String.eqb_spec name (Resistor.Name w)); [congruence|].
    destruct (String.eqb_spec (reversed name) (Resistor.Name w)); [congruence|].
    apply IH. intros w' Hw'. apply Hpre. right. exact Hw'.
Qed.

(** X2.  The first resistor that bears the name, forward or reversed,
    decides the value: [GetElementDeltaV] returns minus its current times
    its resistance, whatever resistors follow it and whatever voltage
    sources bear the same name. *)
Theorem GetElementDeltaV_of_first_resistor (self : ResistorNetwork)
  (pre post : list Resistor.t) (r : Resistor.t) (name : string) :
  Resistors self = pre ++ r :: post ->
  (forall r', In r' pre ->
     Resistor.Name r' <> name /\ Resistor.Name r' <> reversed name) ->
  Resistor.Name r = name \/ Resistor.Name r = reversed name ->
  GetElementDeltaV self name
  = Returns (Some (- (Resistor.Current r * Resistor.Resistance r))%float).
Proof.
  intros Hrs Hpre Hr. unfold GetElementDeltaV.
  rewrite Hrs, (GetElementDeltaV_resistors_first _ _ _ _ Hpre Hr). reflexivity.
Qed.

(** A resistor and a source named [cd]: the resistor, with 3 A through
    its 2 ohm, gives -6 for ["dc"], and the source of 9 V is not read. *)
Lemma GetElementDeltaV_of_first_resistor_witness :
  GetElementDeltaV
    {| Loops := [];
       Resistors := [Bench.resistor 1 "ab";
                     {| Resistor.Resistance := 2; Resistor.Current := 3;
                        Resistor.Name := "cd" |};
                     Bench.resistor 7 "dc"];
       VSources := [Bench.source 9 "cd"] |} "dc"
  = Returns (Some (- (3 * 2))%float).
Proof.
  apply (GetElementDeltaV_of_first_resistor
           {| Loops := [];
              Resistors := [Bench.resistor 1 "ab";
                            {| Resistor.Resistance := 2; Resistor.Current := 3;
                               Resistor.Name := "cd" |};
                            Bench.resistor 7 "dc"];
              VSources := [Bench.source 9 "cd"] |}
           [Bench.resistor 1 "ab"] [Bench.resistor 7 "dc"]
           {| Resistor.Resistance := 2; Resistor.Current := 3; Resistor.Name := "cd" |}
           "dc").
  - reflexivity.
  - intros r' [<-|[]]. split; discriminate.
  - right. reflexivity.
Defined.

(** The first resistor named [name], when there is one, splits the list. *)
Lemma GetResistorByName_for_Some (rs : list Resistor.t) (name : string) :
  forall k j, GetResistorByName_for rs k name = Some j ->
  exists pre r post,
    rs = pre ++ r :: post /\
    (forall r', In r' pre -> Resistor.Name r' <> name) /\
    Resistor.Name r = name /\ j = (k + List.length pre)%nat.
Proof.
  induction rs as [|r0 rs IH]; intros k j H; [discriminate H|].
  cbn [GetResistorByName_for] in H.
  destruct (String.eqb_spec (Resistor.Name r0) name) as [Heq|Hne].
  - injection H as <-. exists [], r0, rs.
    split; [reflexivity|]. split; [intros r' []|]. split; [exact Heq|cbn; lia].
  - destruct (IH _ _ H) as (pre & r & post & -> & Hpre & Hr & ->).
    exists (r0 :: pre), r, post.
    split; [reflexivity|]. split; [|split; [exact Hr|cbn; lia]].
    intros r' [<-|Hr']; auto.
Qed.

Lemma GetResistorByName_for_first (pre post : list Resistor.t) (r : Resistor.t)
  (name : string) (k : nat) :
  (forall r', In r' pre -> Resistor.Name r' <> name) ->
  Resistor.Name r = name ->
  GetResistorByName_for (pre ++ r :: post) k name = Some (k + List.length pre)%nat.
Proof.
  revert k. induction pre as [|w pre IH]; intros k Hpre Hr; cbn [app GetResistorByName_for].
  - destruct (String.eqb_spec (Resistor.Name r) name); [|congruence].
    f_equal. cbn. lia.
  - destruct (String.eqb_spec (Resistor.Name w) name) as [Heq|_].
    + exfalso. apply (Hpre w); [left; reflexivity|exact Heq].
    + rewrite IH; [f_equal; cbn; lia| |exact Hr].
      intros r' Hr'. apply Hpre. right. exact Hr'.
Qed.

Lemma getitem_middle {A : Type} (pre post : list A) (a : A) :
  getitem (pre ++ a :: post) (List.length pre) = Returns a.
Proof.
  unfold getitem. rewrite nth_error_app2 by lia.
  rewrite Nat.sub_diag. reflexivity.
Qed.

Lemma setitem_middle {A : Type} (pre post : list A) (a b : A) :
  setitem (pre ++ a :: post) (List.length pre) b = pre ++ b :: post.
Proof.
  induction pre as [|x pre IH]; [reflexivity|].
  cbn [app List.length setitem]. rewrite IH. reflexivity.
Qed.

(** X3.  Assigning a current by name returns exactly when a resistor bears
    the name, and then it has rewritten the [Current] of the first such
    resistor and nothing else: the resistors before and after it, its name
    and resistance, the loops and the sources are as they were. *)
Theorem set_Current_by_name_writes_the_first_match
  (self self' : ResistorNetwork) (name : string) (v : float) :
  set_Current_by_name self name v = Returns self' <->
  exists pre r post,
    Resistors self = pre ++ r :: post /\
    (forall r', In r' pre -> Resistor.Name r' <> name) /\
    Resistor.Name r = name /\
    self' = {| Loops := Loops self;
               Resistors := pre ++ {| Resistor.Resistance := Resistor.Resistance r;
                                      Resistor.Current := v;
                                      Resistor.Name := Resistor.Name r |} :: post;
               VSources := VSources self |}.
Proof.
  unfold set_Current_by_name, GetResistorByName. cbn [Py.bind]. split.
  - destruct (GetResistorByName_for (Resistors self) 0 name) as [j|] eqn:Ej;
      [|discriminate].
    destruct (GetResistorByName_for_Some _ _ _ _ Ej) as (pre & r & post & Hrs & Hpre & Hr & ->).
    rewrite Hrs. cbn [Nat.add]. rewrite getitem_middle. cbn [Py.bind].
    rewrite setitem_middle. intros H. injection H as <-.
    exists pre, r, post. auto.
  - intros (pre & r & post & Hrs & Hpre & Hr & ->).
    rewrite Hrs, (GetResistorByName_for_first _ _ _ _ 0 Hpre Hr). cbn [Nat.add].
    rewrite getitem_middle. cbn [Py.bind]. rewrite setitem_middle. reflexivity.
Qed.

End LookupMore.

(** ** More on the residual functions *)
Section ResidualsMore.
Import Problem_1.

(** X4.  The residual functions of [Problem_1_Test_2.py] and of
    [Problem 1.py] run the same steps: on every network and every trial
    vector the first raises where the second raises, with the same
    exception, and where the second returns the first leaves the same
    currents in the network; only the returned vector differs, zeros in
    place of the residuals. *)
Theorem GetKirchoffVals_Test_2_as_Problem_1 (self : ResistorNetwork) (i : list float) :
  Problem_1_Test_2.GetKirchoffVals self i
  = (r <- Problem_1.GetKirchoffVals self i ;;
     Returns (repeat 0%float (List.length i), snd r)).
Proof.
  unfold Problem_1_Test_2.GetKirchoffVals, Problem_1.GetKirchoffVals.
  repeat match goal with
    | |- context [Py.bind ?m _] =>
        match m with
        | Py.bind _ _ => fail 1
        | _ => destruct m; cbn [Py.bind]
        end
    end; reflexivity.
Qed.

(** The position and the fields that [GetResistorByName] reads depend on
    the names only. *)
Lemma GetResistorByName_for_names (rs rs' : list Resistor.t) (name : string) :
  map Resistor.Name rs = map Resistor.Name rs' ->
  forall k, GetResistorByName_for rs k name = GetResistorByName_for rs' k name.
Proof.
  revert rs'. induction rs as [|r rs IH]; intros [|r' rs'] H k; try discriminate H;
    [reflexivity|].
  cbn [map] in H. injection H as Hn Hrs. cbn [GetResistorByName_for].
  rewrite Hn, (IH _ Hrs). reflexivity.
Qed.

(** After [self.GetResistorByName(name).Current = v], the resistor that
    [GetResistorByName(name)] returns carries [v]. *)
Lemma set_Current_by_name_read_back (self self' : ResistorNetwork)
  (name : string) (v : float) :
  set_Current_by_name self name v = Returns self' ->
  exists k r,
    GetResistorByName self' name = Returns (Some k) /\
    nth_error (Resistors self') k = Some r /\ Resistor.Current r = v.
Proof.
  intros H. unfold set_Current_by_name, GetResistorByName in H. cbn [Py.bind] in H.
  destruct (GetResistorByName_for (Resistors self) 0 name) as [j|] eqn:Ej;
    [|discriminate H].
  destruct (GetResistorByName_for_Some _ _ _ _ Ej) as (pre & r & post & Hrs & Hpre & Hr & ->).
  rewrite Hrs in H. cbn [Nat.add] in H. rewrite getitem_middle in H. cbn [Py.bind] in H.
  rewrite setitem_middle in H. injection H as <-.
  exists (List.length pre), (Resistor.set_Current r v). split; [|split].
  - unfold GetResistorByName. cbn [Resistors set_Resistors].
    rewrite (GetResistorByName_for_first pre post (Resistor.set_Current r v) name 0 Hpre Hr).
    reflexivity.
  - cbn [Resistors set_Resistors]. rewrite nth_error_app2 by lia.
    rewrite Nat.sub_diag. reflexivity.
  - reflexivity.
Qed.

(** An assignment under another name keeps what was read under [name],
    and it keeps the names and the resistances of all resistors. *)
Lemma set_Current_by_name_other (self self' : ResistorNetwork)
  (name' : string) (v' : float) :
  set_Current_by_name self name' v' = Returns self' ->
  map Resistor.Name (Resistors self') = map Resistor.Name (Resistors self) /\
  map Resistor.Resistance (Resistors self') = map Resistor.Resistance (Resistors self) /\
  Loops self' = Loops self /\ VSources self' = VSources self /\
  forall name k r,
    name <> name' ->
    GetResistorByName self name = Returns (Some k) ->
    nth_error (Resistors self) k = Some r ->
    GetResistorByName self' name = Returns (Some k) /\
    nth_error (Resistors self') k = Some r.
Proof.
  intros H. unfold set_Current_by_name, GetResistorByName in H. cbn [Py.bind] in H.
  destruct (GetResistorByName_for (Resistors self) 0 name') as [j|] eqn:Ej;
    [|discriminate H].
  destruct (GetResistorByName_for_Some _ _ _ _ Ej) as (pre & r0 & post & Hrs & Hpre & Hr0 & ->).
  rewrite Hrs in H. cbn [Nat.add] in H. rewrite getitem_middle in H. cbn [Py.bind] in H.
  rewrite setitem_middle in H. injection H as <-.
  cbn [Resistors Loops VSources set_Resistors]. rewrite Hrs.
  assert (Hnames : map Resistor.Name (pre ++ Resistor.set_Current r0 v' :: post)
                   = map Resistor.Name (pre ++ r0 :: post)).
  { rewrite !map_app. reflexivity. }
  split; [exact Hnames|]. split; [rewrite !map_app; reflexivity|].
  split; [reflexivity|]. split; [reflexivity|].
  intros name k r Hne Hk Hnth. unfold GetResistorByName in *.
  cbn [Resistors set_Resistors] in *.
  rewrite Hrs in Hk.
  rewrite (GetResistorByName_for_names _ _ name Hnames 0). split; [exact Hk|].
  injection Hk as Hk.
  destruct (GetResistorByName_for_Some _ _ _ _ Hk) as (pre1 & r1 & post1 & Hrs1 & _ & Hr1 & ->).
  cbn [Nat.add] in *.
  assert (Hk1 : nth_error (pre ++ r0 :: post) (List.length pre1) = Some r1).
  { rewrite Hrs1, nth_error_app2 by lia. rewrite Nat.sub_diag. reflexivity. }
  assert (Hlen : List.length pre1 <> List.length pre).
  { intros Heq. rewrite Heq, nth_error_app2 in Hk1 by lia.
    rewrite Nat.sub_diag in Hk1. injection Hk1 as <-. congruence. }
  rewrite <- Hnth.
  destruct (Nat.lt_ge_cases (List.length pre1) (List.length pre)) as [Hlt|Hge].
  - rewrite !nth_error_app1 by exact Hlt. reflexivity.
  - rewrite !nth_error_app2 by exact Hge.
    destruct (List.length pre1 - List.length pre)%nat as [|m] eqn:Em; [lia|reflexivity].
Qed.

(** X5.  A residual evaluation of [Problem 1.py] that returns has left the
    trial currents in the network: the resistors that [GetResistorByName]
    finds under [ad] and [bc] carry [i[0]], the one under [cd] carries
    [i[2]] and the one under [ce] carries [i[1]].  Names, resistances,
    loops and sources are unchanged, and the vector returned is the loop
    voltage drops of the updated network followed by
    [i[0] + i[1] - i[2]]. *)
Theorem GetKirchoffVals_leaves_the_trial_currents
  (self self' : ResistorNetwork) (i res : list float) :
  Problem_1.GetKirchoffVals self i = Returns (res, self') ->
  exists i0 i1 i2 KVL,
    nth_error i 0 = Some i0 /\ nth_error i 1 = Some i1 /\ nth_error i 2 = Some i2 /\
    (forall name v,
       In (name, v) [("ad", i0); ("bc", i0); ("cd", i2); ("ce", i1)] ->
       exists k r,
         GetResistorByName self' name = Returns (Some k) /\
         nth_error (Resistors self') k = Some r /\ Resistor.Current r = v) /\
    map Resistor.Name (Resistors self') = map Resistor.Name (Resistors self) /\
    map Resistor.Resistance (Resistors self') = map Resistor.Resistance (Resistors self) /\
    Loops self' = Loops self /\ VSources self' = VSources self /\
    GetLoopVoltageDrops self' = Returns KVL /\
    res = KVL ++ [(0 + i0 + i1 + - i2)%float].
Proof.
  unfold Problem_1.GetKirchoffVals. intros H.
  destruct (getitem i 0) as [i0|] eqn:E0; [|discriminate H]. cbn [Py.bind] in H.
  destruct (set_Current_by_name self "ad" i0) as [s1|] eqn:S1; [|discriminate H].
  cbn [Py.bind] in H.
  destruct (set_Current_by_name s1 "bc" i0) as [s2|] eqn:S2; [|discriminate H].
  cbn [Py.bind] in H.
  destruct (getitem i 2) as [i2|] eqn:E2; [|discriminate H]. cbn [Py.bind] in H.
  destruct (set_Current_by_name s2 "cd" i2) as [s3|] eqn:S3; [|discriminate H].
  cbn [Py.bind] in H.
  destruct (getitem i 1) as [i1|] eqn:E1; [|discriminate H]. cbn [Py.bind] in H.
  destruct (set_Current_by_name s3 "ce" i1) as [s4|] eqn:S4; [|discriminate H].
  cbn [Py.bind] in H.
  destruct (GetLoopVoltageDrops s4) as [KVL|] eqn:EK; [|discriminate H].
  cbn [Py.bind] in H. injection H as <- <-.
  unfold getitem in E0, E1, E2.
  destruct (nth_error i 0) eqn:N0; [injection E0 as ->|discriminate E0].
  destruct (nth_error i 1) eqn:N1; [injection E1 as ->|discriminate E1].
  destruct (nth_error i 2) eqn:N2; [injection E2 as ->|discriminate E2].
  exists i0, i1, i2, KVL.
  destruct (set_Current_by_name_other _ _ _ _ S1) as (Hn1 & Hr1 & Hl1 & Hv1 & _).
  destruct (set_Current_by_name_other _ _ _ _ S2) as (Hn2 & Hr2 & Hl2 & Hv2 & K2).
  destruct (set_Current_by_name_other _ _ _ _ S3) as (Hn3 & Hr3 & Hl3 & Hv3 & K3).
  destruct (set_Current_by_name_other _ _ _ _ S4) as (Hn4 & Hr4 & Hl4 & Hv4 & K4).
  split; [reflexivity|]. split; [reflexivity|]. split; [reflexivity|].
  split; [|repeat split; congruence].
  intros name v Hin.
  destruct (set_Current_by_name_read_back _ _ _ _ S1) as (k1 & r1 & G1 & T1 & C1).
  destruct (set_Current_by_name_read_back _ _ _ _ S2) as (k2 & r2 & G2 & T2 & C2).
  destruct (set_Current_by_name_read_back _ _ _ _ S3) as (k3 & r3 & G3 & T3 & C3).
  destruct (set_Current_by_name_read_back _ _ _ _ S4) as (k4 & r4 & G4 & T4 & C4).
  destruct Hin as [Hin|[Hin|[Hin|[Hin|[]]]]]; injection Hin as <- <-.
  - exists k1, r1.
    destruct (K2 "ad" k1 r1 ltac:(discriminate) G1 T1) as [G T].
    destruct (K3 "ad" k1 r1 ltac:(discriminate) G T) as [G' T'].
    destruct (K4 "ad" k1 r1 ltac:(discriminate) G' T') as [G'' T''].
    auto.
  - exists k2, r2.
    destruct (K3 "bc" k2 r2 ltac:(discriminate) G2 T2) as [G' T'].
    destruct (K4 "bc" k2 r2 ltac:(discriminate) G' T') as [G'' T''].
    auto.
  - exists k3, r3.
    destruct (K4 "cd" k3 r3 ltac:(discriminate) G3 T3) as [G'' T''].
    auto.
  - exists k4, r4. auto.
Qed.

(** The bench circuit at the trial currents 1, 2, 3. *)
Lemma GetKirchoffVals_leaves_the_trial_currents_witness :
  exists self' res i0 i1 i2 KVL,
    Problem_1.GetKirchoffVals Bench.circuit [1; 2; 3]%float = Returns (res, self') /\
    nth_error [1; 2; 3]%float 0 = Some i0 /\ nth_error [1; 2; 3]%float 1 = Some i1 /\
    nth_error [1; 2; 3]%float 2 = Some i2 /\
    (forall name v,
       In (name, v) [("ad", i0); ("bc", i0); ("cd", i2); ("ce", i1)] ->
       exists k r,
         GetResistorByName self' name = Returns (Some k) /\
         nth_error (Resistors self') k = Some r /\ Resistor.Current r = v) /\
    map Resistor.Name (Resistors self') = map Resistor.Name (Resistors Bench.circuit) /\
    map Resistor.Resistance (Resistors self')
    = map Resistor.Resistance (Resistors Bench.circuit) /\
    Loops self' = Loops Bench.circuit /\ VSources self' = VSources Bench.circuit /\
    GetLoopVoltageDrops self' = Returns KVL /\
    res = KVL ++ [(0 + i0 + i1 + - i2)%float].
Proof.
  destruct (Problem_1.GetKirchoffVals Bench.circuit [1; 2; 3]%float)
    as [[res self']|e] eqn:H; [|vm_compute in H; discriminate H].
  exists self', res.
  destruct (GetKirchoffVals_leaves_the_trial_currents Bench.circuit self' _ res H)
    as (i0 & i1 & i2 & KVL & P).
  exists i0, i1, i2, KVL. split; [reflexivity|exact P].
Defined.

End ResidualsMore.

(** ** The loop voltage drops, segment by segment *)
Section LoopVoltageDrops.
Import Problem_1.
Import SegmentSpec.

Lemma neighbour_names (Nodes : list string) :
  map (fun n => a <- getitem Nodes n ;; b <- getitem Nodes (n + 1) ;;
                Returns (a ++ b)%string)
      (seq 0 (List.length Nodes - 1))
  = map Returns (neighbours Nodes).
Proof.
  induction Nodes as [|a [|b rest] IH]; [reflexivity|reflexivity|].
  replace (List.length (a :: b :: rest) - 1)%nat with (S (List.length rest))
    by (cbn [List.length]; lia).
  replace (List.length (b :: rest) - 1)%nat with (List.length rest) in IH
    by (cbn [List.length]; lia).
  change (neighbours (a :: b :: rest))
    with ((a ++ b)%string :: neighbours (b :: rest)).
  cbn [seq map]. f_equal.
  rewrite <- seq_shift, map_map, <- IH.
  apply map_ext. intros n. reflexivity.
Qed.

Lemma nth_error_last {A : Type} (l : list A) :
  forall a d, nth_error (a :: l) (List.length l) = Some (last (a :: l) d).
Proof.
  induction l as [|b l IH]; intros a d; [reflexivity|].
  cbn [List.length nth_error]. rewrite (IH b d). reflexivity.
Qed.

(** The names that the loop over [range(len(L.Nodes))] looks up are the
    segments of the loop. *)
Lemma segment_names_are_segments (Nodes : list string) :
  map (segment_name Nodes) (seq 0 (List.length Nodes)) = map Returns (segments Nodes).
Proof.
  destruct Nodes as [|a l]; [reflexivity|].
  cbn [List.length segments]. rewrite seq_S, !map_app. cbn [Nat.add map]. f_equal.
  - rewrite <- neighbour_names. cbn [List.length]. rewrite Nat.sub_succ, Nat.sub_0_r.
    apply map_ext_in. intros n Hn. apply in_seq in Hn.
    unfold segment_name. cbn [List.length]. rewrite Nat.sub_succ, Nat.sub_0_r.
    destruct (Nat.eqb_spec n (List.length l)); [lia|reflexivity].
  - unfold segment_name. cbn [List.length]. rewrite Nat.sub_succ, Nat.sub_0_r, Nat.eqb_refl.
    unfold getitem. rewrite (nth_error_last l a a). reflexivity.
Qed.

Lemma GetElementDeltaV_returns (self : ResistorNetwork) (name : string) :
  exists dv, GetElementDeltaV self name = Returns dv.
Proof.
  unfold GetElementDeltaV.
  destruct (GetElementDeltaV_resistors (Resistors self) name); eexists; reflexivity.
Qed.

Lemma loopDeltaV_for_returns (self : ResistorNetwork) (Nodes : list string) :
  forall ns names acc v,
    map (segment_name Nodes) ns = map Returns names ->
    (loopDeltaV_for self Nodes ns acc = Returns v <->
     exists vals,
       Forall2 (fun name x => GetElementDeltaV self name = Returns (Some x)) names vals /\
       v = fold_left PrimFloat.add vals acc).
Proof.
  induction ns as [|n ns IH]; intros [|name names] acc v Hmap; try discriminate Hmap.
  - cbn [loopDeltaV_for]. split.
    + intros H. injection H as <-. exists []. split; [constructor|reflexivity].
    + intros (vals & HF & ->). inversion HF. reflexivity.
  - cbn [map] in Hmap. injection Hmap as Hn Hmap.
    cbn [loopDeltaV_for]. rewrite Hn. cbn [Py.bind].
    destruct (GetElementDeltaV_returns self name) as [[x|] Ex]; rewrite Ex; cbn [Py.bind].
    + rewrite (IH names (acc + x)%float v Hmap). split.
      * intros (vals & HF & ->). exists (x :: vals). split; [constructor; assumption|reflexivity].
      * intros (vals & HF & ->). inversion HF as [|? y ? vals' Hy HF']; subst.
        rewrite Ex in Hy. injection Hy as <-. exists vals'. split; [exact HF'|reflexivity].
    + split; [discriminate|].
      intros (vals & HF & _). inversion HF as [|? y ? vals' Hy HF']; subst.
      rewrite Ex in Hy. discriminate Hy.
Qed.

Lemma loopDeltaV_for_raises (self : ResistorNetwork) (Nodes : list string) :
  forall ns names acc e,
    map (segment_name Nodes) ns = map Returns names ->
    loopDeltaV_for self Nodes ns acc = Raises e ->
    e = TypeError /\
    exists name, In name names /\ GetElementDeltaV self name = Returns None.
Proof.
  induction ns as [|n ns IH]; intros [|name names] acc e Hmap H; try discriminate Hmap.
  - discriminate H.
  - cbn [map] in Hmap. injection Hmap as Hn Hmap.
    cbn [loopDeltaV_for] in H. rewrite Hn in H. cbn [Py.bind] in H.
    destruct (GetElementDeltaV_returns self name) as [[x|] Ex]; rewrite Ex in H;
      cbn [Py.bind] in H.
    + destruct (IH names _ e Hmap H) as (-> & name' & Hin & Hnone).
      split; [reflexivity|]. exists name'. split; [right; exact Hin|exact Hnone].
    + injection H as <-. split; [reflexivity|].
      exists name. split; [left; reflexivity|exact Ex].
Qed.

Lemma GetLoopVoltageDrops_for_returns (self : ResistorNetwork) (Ls : list Loop.t) :
  forall acc KVL,
    GetLoopVoltageDrops_for self Ls acc = Returns KVL <->
    exists vs,
      Forall2 (fun L v =>
                 exists vals,
                   Forall2 (fun name x => GetElementDeltaV self name = Returns (Some x))
                           (segments (Loop.Nodes L)) vals /\
                   v = fold_left PrimFloat.add vals 0%float) Ls vs /\
      KVL = acc ++ vs.
Proof.
  induction Ls as [|L Ls IH]; intros acc KVL; cbn [GetLoopVoltageDrops_for].
  - split.
    + intros H. injection H as <-. exists []. split; [constructor|].
      rewrite app_nil_r. reflexivity.
    + intros (vs & HF & ->). inversion HF. rewrite app_nil_r. reflexivity.
  - pose proof (fun v => loopDeltaV_for_returns self (Loop.Nodes L) _ _ 0%float v
                            (segment_names_are_segments (Loop.Nodes L))) as HL.
    destruct (loopDeltaV_for self (Loop.Nodes L) (seq 0 (List.length (Loop.Nodes L))) 0)
      as [v|e] eqn:Ev; cbn [Py.bind].
    + rewrite IH. split.
      * intros (vs & HF & ->). exists (v :: vs). split.
        -- constructor; [|exact HF]. apply (proj1 (HL v)). reflexivity.
        -- rewrite <- app_assoc. reflexivity.
      * intros (vs & HF & ->). inversion HF as [|? v' ? vs' Hv HF']; subst.
        apply (proj2 (HL v')) in Hv. injection Hv as <-.
        exists vs'. split; [exact HF'|]. rewrite <- app_assoc. reflexivity.
    + split; [discriminate|].
      intros (vs & HF & _). inversion HF as [|? v' ? vs' Hv HF']; subst.
      apply (proj2 (HL v')) in Hv. discriminate Hv.
Qed.

(** X6.  [GetLoopVoltageDrops] returns a list exactly when every segment
    of every loop names an element, and the list then holds, loop by loop
    and in the order of [self.Loops], the sum from 0 of the values that
    [GetElementDeltaV] gives the loop's segments: the pairs of neighbours
    in order, then the closing segment, spelled from the first node to
    the last one. *)
Theorem GetLoopVoltageDrops_sums_the_segments (self : ResistorNetwork) (KVL : list float) :
  GetLoopVoltageDrops self = Returns KVL <->
  Forall2 (fun L v =>
             exists vals,
               Forall2 (fun name x => GetElementDeltaV self name = Returns (Some x))
                       (segments (Loop.Nodes L)) vals /\
               v = fold_left PrimFloat.add vals 0%float) (Loops self) KVL.
Proof.
  unfold GetLoopVoltageDrops. rewrite GetLoopVoltageDrops_for_returns. split.
  - intros (vs & HF & ->). exact HF.
  - intros HF. exists KVL. split; [exact HF|reflexivity].
Qed.

Lemma GetLoopVoltageDrops_for_raises (self : ResistorNetwork) (Ls : list Loop.t) :
  forall acc e,
    GetLoopVoltageDrops_for self Ls acc = Raises e ->
    e = TypeError /\
    exists L name,
      In L Ls /\ In name (segments (Loop.Nodes L)) /\
      GetElementDeltaV self name = Returns None.
Proof.
  induction Ls as [|L Ls IH]; intros acc e H; cbn [GetLoopVoltageDrops_for] in H;
    [discriminate H|].
  destruct (loopDeltaV_for self (Loop.Nodes L) (seq 0 (List.length (Loop.Nodes L))) 0)
    as [v|e'] eqn:Ev; cbn [Py.bind] in H.
  - destruct (IH _ _ H) as (-> & L' & name & HL & Hin & Hnone).
    split; [reflexivity|]. exists L', name. split; [right; exact HL|]. auto.
  - injection H as <-.
    destruct (loopDeltaV_for_raises self _ _ _ _ e' (segment_names_are_segments _) Ev)
      as (-> & name & Hin & Hnone).
    split; [reflexivity|]. exists L, name. split; [left; reflexivity|]. auto.
Qed.

(** X7.  [GetLoopVoltageDrops] raises nothing but [TypeError], and it
    raises it only when some segment of some loop names no element, so
    that [GetElementDeltaV] returned [None] for it. *)
Theorem GetLoopVoltageDrops_raises_only_TypeError (self : ResistorNetwork) (e : exn) :
  GetLoopVoltageDrops self = Raises e ->
  e = TypeError /\
  exists L name,
    In L (Loops self) /\ In name (segments (Loop.Nodes L)) /\
    GetElementDeltaV self name = Returns None.
Proof. apply GetLoopVoltageDrops_for_raises. Qed.

(** The bench circuit without its source [de]: the loop [l2] cannot be
    closed. *)
Lemma GetLoopVoltageDrops_raises_only_TypeError_witness :
  GetLoopVoltageDrops (set_VSources Bench.circuit [Bench.source 16 "ab"])
  = Raises TypeError /\
  TypeError = TypeError /\
  exists L name,
    In L (Loops (set_VSources Bench.circuit [Bench.source 16 "ab"])) /\
    In name (segments (Loop.Nodes L)) /\
    GetElementDeltaV (set_VSources Bench.circuit [Bench.source 16 "ab"]) name
    = Returns None.
Proof.
  split; [vm_compute; reflexivity|].
  apply (GetLoopVoltageDrops_raises_only_TypeError
           (set_VSources Bench.circuit [Bench.source 16 "ab"]) TypeError).
  vm_compute. reflexivity.
Defined.

End LoopVoltageDrops.

(** ** When the residual functions return *)
Section ResidualsReturn.
Import Problem_1 ResidualSpec.

Lemma getitem_cases {A : Type} (l : list A) (n : nat) :
  match getitem l n with
  | Returns _ => (n < List.length l)%nat
  | Raises e => e = IndexError /\ (List.length l <= n)%nat
  end.
Proof.
  unfold getitem. destruct (nth_error l n) eqn:H.
  - apply nth_error_Some. congruence.
  - split; [reflexivity|]. apply nth_error_None. exact H.
Qed.

Lemma GetResistorByName_for_None (rs : list Resistor.t) (name : string) :
  forall k, GetResistorByName_for rs k name = None ->
            ~ In name (map Resistor.Name rs).
Proof.
  induction rs as [|r rs IH]; intros k H; [intros []|].
  cbn [GetResistorByName_for] in H.
  destruct (String.eqb_spec (Resistor.Name r) name) as [|Hne]; [discriminate H|].
  intros [Heq|Hin]; [contradiction|]. exact (IH _ H Hin).
Qed.

(** The assignment of a current returns when the name is there, and
    keeps the names, the loops and the sources; it raises
    [AttributeError] when the name is not there. *)
Lemma set_Current_by_name_cases (self : ResistorNetwork) (name : string) (v : float) :
  match set_Current_by_name self name v with
  | Returns self' =>
      present self name /\
      map Resistor.Name (Resistors self') = map Resistor.Name (Resistors self) /\
      Loops self' = Loops self /\ VSources self' = VSources self
  | Raises e => e = AttributeError /\ ~ present self name
  end.
Proof.
  destruct (set_Current_by_name self name v) as [self'|e] eqn:H.
  - destruct (set_Current_by_name_other _ _ _ _ H) as (Hn & _ & Hl & Hv & _).
    split; [|auto]. unfold set_Current_by_name, GetResistorByName in H.
    cbn [Py.bind] in H.
    destruct (GetResistorByName_for (Resistors self) 0 name) as [j|] eqn:Ej;
      [|discriminate H].
    destruct (GetResistorByName_for_Some _ _ _ _ Ej) as (pre & r & post & Hrs & _ & Hr & _).
    unfold present. rewrite Hrs, map_app. apply in_or_app. right. left. exact Hr.
  - unfold set_Current_by_name, GetResistorByName in H. cbn [Py.bind] in H.
    destruct (GetResistorByName_for (Resistors self) 0 name) as [j|] eqn:Ej.
    + destruct (GetResistorByName_for_Some _ _ _ _ Ej) as (pre & r & post & Hrs & _ & _ & ->).
      rewrite Hrs in H. cbn [Nat.add] in H. rewrite getitem_middle in H. discriminate H.
    + injection H as <-. split; [reflexivity|].
      exact (GetResistorByName_for_None _ _ _ Ej).
Qed.

(** Whether a name is found depends on the names of the resistors and on
    the sources, not on currents. *)
Lemma GetElementDeltaV_resistors_None_names (rs rs' : list Resistor.t) (name : string) :
  map Resistor.Name rs = map Resistor.Name rs' ->
  GetElementDeltaV_resistors rs name = None ->
  GetElementDeltaV_resistors rs' name = None.
Proof.
  revert rs'. induction rs as [|r rs IH]; intros [|r' rs'] Hn H; try discriminate Hn;
    [reflexivity|].
  cbn [map] in Hn. injection Hn as Hr Hrs.
  cbn [GetElementDeltaV_resistors] in *. rewrite <- Hr.
  destruct (name =? Resistor.Name r); [discriminate H|].
  destruct (reversed name =? Resistor.Name r); [discriminate H|].
  exact (IH _ Hrs H).
Qed.

Lemma GetElementDeltaV_None_names (self self' : ResistorNetwork) (name : string) :
  map Resistor.Name (Resistors self) = map Resistor.Name (Resistors self') ->
  VSources self = VSources self' ->
  GetElementDeltaV self name = Returns None ->
  GetElementDeltaV self' name = Returns None.
Proof.
  intros Hn Hv. unfold GetElementDeltaV. rewrite <- Hv.
  destruct (GetElementDeltaV_resistors (Resistors self) name) eqn:Hr; [discriminate|].
  rewrite (GetElementDeltaV_resistors_None_names _ _ _ Hn Hr). auto.
Qed.

Lemma loops_closed_names (self self' : ResistorNetwork) :
  map Resistor.Name (Resistors self') = map Resistor.Name (Resistors self) ->
  Loops self' = Loops self -> VSources self' = VSources self ->
  (loops_closed self' <-> loops_closed self).
Proof.
  intros Hn Hl Hv. unfold loops_closed. rewrite Hl.
  split; intros H L name HL Hname Hnone; apply (H L name HL Hname);
    [apply (GetElementDeltaV_None_names self self')
    |apply (GetElementDeltaV_None_names self' self)]; auto.
Qed.

Lemma Forall2_In_left {A B : Type} (R : A -> B -> Prop) (l : list A) (l' : list B) :
  Forall2 R l l' -> forall x, In x l -> exists y, R x y.
Proof.
  induction 1 as [|a b l l' Hab _ IH]; intros x Hx; [destruct Hx|].
  destruct Hx as [<-|Hx]; [exists b; exact Hab|exact (IH x Hx)].
Qed.

Lemma GetLoopVoltageDrops_cases (self : ResistorNetwork) :
  match GetLoopVoltageDrops self with
  | Returns _ => loops_closed self
  | Raises e => e = TypeError /\ ~ loops_closed self
  end.
Proof.
  destruct (GetLoopVoltageDrops self) as [KVL|e] eqn:H.
  - unfold GetLoopVoltageDrops in H. apply GetLoopVoltageDrops_for_returns in H.
    destruct H as (vs & HF & _). intros L name HL Hname Hnone.
    destruct (Forall2_In_left _ _ _ HF L HL) as (v & vals & Hvals & _).
    destruct (Forall2_In_left _ _ _ Hvals name Hname) as (x & Hx).
    rewrite Hx in Hnone. discriminate Hnone.
  - destruct (GetLoopVoltageDrops_for_raises _ _ _ _ H) as (-> & L & name & HL & Hname & Hnone).
    split; [reflexivity|]. intros Hclosed. exact (Hclosed L name HL Hname Hnone).
Qed.

(** The steps of the residual function of [Problem_1_Test_2.py]. *)
Lemma GetKirchoffVals_Test_2_cases (self : ResistorNetwork) (i : list float) :
  match Problem_1_Test_2.GetKirchoffVals self i with
  | Returns (res, _) =>
      res = repeat 0%float (List.length i) /\
      (3 <= List.length i)%nat /\
      present self "ad" /\ present self "bc" /\ present self "cd" /\ present self "ce" /\
      loops_closed self
  | Raises e =>
      (e = IndexError /\ (List.length i < 3)%nat) \/
      (e = AttributeError /\
       ~ (present self "ad" /\ present self "bc" /\ present self "cd" /\
          present self "ce")) \/
      (e = TypeError /\ ~ loops_closed self)
  end.
Proof.
  unfold Problem_1_Test_2.GetKirchoffVals.
  pose proof (getitem_cases i 0) as G0.
  destruct (getitem i 0) as [v0|e]; cbn [Py.bind];
    [|left; destruct G0 as [-> G0]; split; [reflexivity|lia]].
  pose proof (set_Current_by_name_cases self "ad" v0) as S1.
  destruct (set_Current_by_name self "ad" v0) as [s1|e]; cbn [Py.bind];
    [destruct S1 as (P1 & N1 & L1 & V1)
    |right; left; destruct S1 as [-> S1]; split; [reflexivity|tauto]].
  pose proof (set_Current_by_name_cases s1 "bc" v0) as S2. unfold present in S2.
  rewrite N1 in S2. fold (present self "bc") in S2.
  destruct (set_Current_by_name s1 "bc" v0) as [s2|e]; cbn [Py.bind];
    [destruct S2 as (P2 & N2 & L2 & V2)
    |right; left; destruct S2 as [-> S2]; split; [reflexivity|tauto]].
  rewrite L1 in L2. rewrite V1 in V2.
  pose proof (getitem_cases i 2) as G2.
  destruct (getitem i 2) as [v2|e]; cbn [Py.bind];
    [|left; destruct G2 as [-> G2]; split; [reflexivity|lia]].
  pose proof (set_Current_by_name_cases s2 "cd" v2) as S3. unfold present in S3.
  rewrite N2 in S3. fold (present self "cd") in S3.
  destruct (set_Current_by_name s2 "cd" v2) as [s3|e]; cbn [Py.bind];
    [destruct S3 as (P3 & N3 & L3 & V3)
    |right; left; destruct S3 as [-> S3]; split; [reflexivity|tauto]].
  rewrite L2 in L3. rewrite V2 in V3.
  pose proof (getitem_cases i 1) as G1.
  destruct (getitem i 1) as [v1|e]; cbn [Py.bind];
    [|exfalso; destruct G1 as [_ G1]; lia].
  pose proof (set_Current_by_name_cases s3 "ce" v1) as S4. unfold present in S4.
  rewrite N3 in S4. fold (present self "ce") in S4.
  destruct (set_Current_by_name s3 "ce" v1) as [s4|e]; cbn [Py.bind];
    [destruct S4 as (P4 & N4 & L4 & V4)
    |right; left; destruct S4 as [-> S4]; split; [reflexivity|tauto]].
  rewrite L3 in L4. rewrite V3 in V4.
  pose proof (GetLoopVoltageDrops_cases s4) as K.
  pose proof (loops_closed_names self s4 N4 L4 V4) as C.
  destruct (GetLoopVoltageDrops s4) as [KVL|e]; cbn [Py.bind].
  - repeat match goal with |- _ /\ _ => split end;
      first [assumption|reflexivity|lia|apply C; exact K].
  - right. right. destruct K as [-> K]. split; [reflexivity|].
    intros H. apply K. apply C. exact H.
Qed.

(** The steps of the residual function of [Problem 2.py]. *)
Lemma GetKirchoffVals_Problem_2_cases (self : ResistorNetwork) (i : list float) :
  match Problem_2_ResistorNetwork2.GetKirchoffVals self i with
  | Returns (res, _) =>
      res = repeat 0%float (List.length i) /\
      (5 <= List.length i)%nat /\
      present self "ad" /\ present self "bc" /\ present self "parallel_resistor" /\
      present self "ce" /\ loops_closed self
  | Raises e =>
      (e = IndexError /\ (List.length i < 5)%nat) \/
      (e = AttributeError /\
       ~ (present self "ad" /\ present self "bc" /\ present self "parallel_resistor" /\
          present self "ce")) \/
      (e = TypeError /\ ~ loops_closed self)
  end.
Proof.
  unfold Problem_2_ResistorNetwork2.GetKirchoffVals.
  pose proof (getitem_cases i 0) as G0.
  destruct (getitem i 0) as [v0|e]; cbn [Py.bind];
    [|left; destruct G0 as [-> G0]; split; [reflexivity|lia]].
  pose proof (set_Current_by_name_cases self "ad" v0) as S1.
  destruct (set_Current_by_name self "ad" v0) as [s1|e]; cbn [Py.bind];
    [destruct S1 as (P1 & N1 & L1 & V1)
    |right; left; destruct S1 as [-> S1]; split; [reflexivity|tauto]].
  pose proof (set_Current_by_name_cases s1 "bc" v0) as S2. unfold present in S2.
  rewrite N1 in S2. fold (present self "bc") in S2.
  destruct (set_Current_by_name s1 "bc" v0) as [s2|e]; cbn [Py.bind];
    [destruct S2 as (P2 & N2 & L2 & V2)
    |right; left; destruct S2 as [-> S2]; split; [reflexivity|tauto]].
  rewrite L1 in L2. rewrite V1 in V2.
  pose proof (getitem_cases i 4) as G4.
  destruct (getitem i 4) as [v4|e]; cbn [Py.bind];
    [|left; destruct G4 as [-> G4]; split; [reflexivity|lia]].
  pose proof (set_Current_by_name_cases s2 "parallel_resistor" v4) as S3.
  unfold present in S3. rewrite N2 in S3. fold (present self "parallel_resistor") in S3.
  destruct (set_Current_by_name s2 "parallel_resistor" v4) as [s3|e]; cbn [Py.bind];
    [destruct S3 as (P3 & N3 & L3 & V3)
    |right; left; destruct S3 as [-> S3]; split; [reflexivity|tauto]].
  rewrite L2 in L3. rewrite V2 in V3.
  pose proof (getitem_cases i 1) as G1.
  destruct (getitem i 1) as [v1|e]; cbn [Py.bind];
    [|exfalso; destruct G1 as [_ G1]; lia].
  pose proof (set_Current_by_name_cases s3 "ce" v1) as S4. unfold present in S4.
  rewrite N3 in S4. fold (present self "ce") in S4.
  destruct (set_Current_by_name s3 "ce" v1) as [s4|e]; cbn [Py.bind];
    [destruct S4 as (P4 & N4 & L4 & V4)
    |right; left; destruct S4 as [-> S4]; split; [reflexivity|tauto]].
  rewrite L3 in L4. rewrite V3 in V4.
  pose proof (getitem_cases i 2) as G2.
  destruct (getitem i 2) as [v2|e]; cbn [Py.bind];
    [|exfalso; destruct G2 as [_ G2]; lia].
  pose proof (GetLoopVoltageDrops_cases s4) as K.
  pose proof (loops_closed_names self s4 N4 L4 V4) as C.
  destruct (GetLoopVoltageDrops s4) as [KVL|e]; cbn [Py.bind].
  - repeat match goal with |- _ /\ _ => split end;
      first [assumption|reflexivity|lia|apply C; exact K].
  - right. right. destruct K as [-> K]. split; [reflexivity|].
    intros H. apply K. apply C. exact H.
Qed.

(** C5, as the code has it.  Whenever the overridden [GetKirchoffVals] of
    [Problem_1_Test_2.py] or of [Problem 2.py] returns, it returns the
    all-zero vector of the length of [i], whatever the network holds.  It
    returns exactly when [i] has the entries that the body reads (three;
    five in [Problem 2.py], which reads [i[4]]), the four resistors that
    the body names are in the network, and every segment of every loop
    names an element.  Otherwise it raises: [IndexError] only for a
    vector that is too short, [AttributeError] only for a resistor that is
    not there, [TypeError] only for a loop segment that names no
    element. *)
Theorem GetKirchoffVals_returns_zeros (self : ResistorNetwork) (i : list float) :
  (forall res self',
     Problem_1_Test_2.GetKirchoffVals self i = Returns (res, self') \/
     Problem_2_ResistorNetwork2.GetKirchoffVals self i = Returns (res, self') ->
     res = repeat 0%float (List.length i) /\ List.length res = List.length i) /\
  ((exists r, Problem_1_Test_2.GetKirchoffVals self i = Returns r) <->
   (3 <= List.length i)%nat /\
   present self "ad" /\ present self "bc" /\ present self "cd" /\ present self "ce" /\
   loops_closed self) /\
  ((exists r, Problem_2_ResistorNetwork2.GetKirchoffVals self i = Returns r) <->
   (5 <= List.length i)%nat /\
   present self "ad" /\ present self "bc" /\ present self "parallel_resistor" /\
   present self "ce" /\ loops_closed self) /\
  (forall e,
     Problem_1_Test_2.GetKirchoffVals self i = Raises e ->
     (e = IndexError /\ (List.length i < 3)%nat) \/
     (e = AttributeError /\
      ~ (present self "ad" /\ present self "bc" /\ present self "cd" /\
         present self "ce")) \/
     (e = TypeError /\ ~ loops_closed self)) /\
  (forall e,
     Problem_2_ResistorNetwork2.GetKirchoffVals self i = Raises e ->
     (e = IndexError /\ (List.length i < 5)%nat) \/
     (e = AttributeError /\
      ~ (present self "ad" /\ present self "bc" /\ present self "parallel_resistor" /\
         present self "ce")) \/
     (e = TypeError /\ ~ loops_closed self)).
Proof.
  pose proof (GetKirchoffVals_Test_2_cases self i) as T.
  pose proof (GetKirchoffVals_Problem_2_cases self i) as P.
  assert (Hlen : List.length (repeat 0%float (List.length i)) = List.length i)
    by apply repeat_length.
  split; [|split; [|split; [|split]]].
  - intros res self' [H|H]; [rewrite H in T; destruct T as [-> _]
                            |rewrite H in P; destruct P as [-> _]]; auto.
  - split.
    + intros [[res self'] H]. rewrite H in T. tauto.
    + intros (Hi & Had & Hbc & Hcd & Hce & Hcl).
      destruct (Problem_1_Test_2.GetKirchoffVals self i) as [r|e]; [exists r; reflexivity|].
      exfalso. destruct T as [[_ T]|[[_ T]|[_ T]]]; [lia|tauto|tauto].
  - split.
    + intros [[res self'] H]. rewrite H in P. tauto.
    + intros (Hi & Had & Hbc & Hpr & Hce & Hcl).
      destruct (Problem_2_ResistorNetwork2.GetKirchoffVals self i) as [r|e];
        [exists r; reflexivity|].
      exfalso. destruct P as [[_ P]|[[_ P]|[_ P]]]; [lia|tauto|tauto].
  - intros e H. rewrite H in T. exact T.
  - intros e H. rewrite H in P. exact P.
Qed.

(** On the bench circuit and five currents both variants return. *)
Lemma GetKirchoffVals_returns_zeros_witness :
  match Problem_1_Test_2.GetKirchoffVals Bench.circuit [1; 2; 3; 4; 5]%float with
  | Returns (res, _) => res = [0; 0; 0; 0; 0]%float /\ List.length res = 5%nat
  | Raises _ => False
  end /\
  match Problem_2_ResistorNetwork2.GetKirchoffVals Bench.circuit [1; 2; 3; 4; 5]%float with
  | Returns (res, _) => res = [0; 0; 0; 0; 0]%float /\ List.length res = 5%nat
  | Raises _ => False
  end.
Proof.
  split.
  - destruct (Problem_1_Test_2.GetKirchoffVals Bench.circuit [1; 2; 3; 4; 5]%float)
      as [[res self']|e] eqn:H.
    + exact (proj1 (GetKirchoffVals_returns_zeros _ _) _ _ (or_introl H)).
    + vm_compute in H. discriminate H.
  - destruct (Problem_2_ResistorNetwork2.GetKirchoffVals Bench.circuit [1; 2; 3; 4; 5]%float)
      as [[res self']|e] eqn:H.
    + exact (proj1 (GetKirchoffVals_returns_zeros _ _) _ _ (or_intror H)).
    + vm_compute in H. discriminate H.
Defined.

(** C5, as the claim states it, fails: a vector too short for the indices
    the body reads raises [IndexError], a network without the resistor
    [ad] raises [AttributeError], and a loop that the sources do not close
    raises [TypeError]. *)
Lemma GetKirchoffVals_raises :
  Problem_2_ResistorNetwork2.GetKirchoffVals Bench.circuit [1; 2; 3]%float
    = Raises IndexError /\
  Problem_1_Test_2.GetKirchoffVals Bench.circuit []
    = Raises IndexError /\
  Problem_1_Test_2.GetKirchoffVals __init__ [1; 2; 3]%float
    = Raises AttributeError /\
  Problem_1_Test_2.GetKirchoffVals
    (set_VSources Bench.circuit [Bench.source 16 "ab"]) [1; 2; 3]%float
    = Raises TypeError.
Proof. repeat split; vm_compute; reflexivity. Qed.

End ResidualsReturn.

(** ** More on reading a network file *)
Section ReadingMore.
Import Problem_1.

Variable float_of_str : string -> pyresult float.

(** *** The two [MakeResistor] *)

(** The loop of [Problem_1_Test_2.py], with its tests inside the body and
    its [break], takes the steps of the loop of [Problem 1.py]. *)
Lemma MakeResistor_while_Test_2 (rest : list string) :
  forall N R,
    Problem_1_Test_2.MakeResistor_while float_of_str rest N R
    = MakeResistor_while float_of_str rest N R.
Proof.
  induction rest as [|line rest IH]; intros N R; [reflexivity|].
  cbn [Problem_1_Test_2.MakeResistor_while MakeResistor_while].
  destruct (contains "resistor" (lower line)); [reflexivity|].
  destruct (if contains "name" (lower line) then _ else _) as [R1|e]; [|reflexivity].
  cbn [Py.bind].
  destruct (if contains "resistance" (lower line) then _ else _) as [R2|e]; [|reflexivity].
  cbn [Py.bind]. cbv zeta.
  destruct rest as [|line' rest']; [reflexivity|]. apply IH.
Qed.

Lemma MakeResistor_Test_2_inside (self : ResistorNetwork) (N : nat) (Txt : list string) :
  (N + 1 < List.length Txt)%nat ->
  Problem_1_Test_2.MakeResistor float_of_str self N Txt
  = MakeResistor float_of_str self N Txt.
Proof.
  intros HN. unfold Problem_1_Test_2.MakeResistor, MakeResistor.
  destruct (Nat.ltb_spec (N + 1) (List.length Txt)); [|lia].
  rewrite MakeResistor_while_Test_2. reflexivity.
Qed.

(** X8.  The two versions of [MakeResistor] differ on one input only.  When
    a line follows the line that opens the block they return the same
    network and the same line number, or raise the same exception.  When
    the opening line is the last one of the file, [Problem 1.py] returns
    the network as it was and [Problem_1_Test_2.py] appends the default
    resistor, 1 ohm named [ab]. *)
Theorem MakeResistor_variants (self : ResistorNetwork) (N : nat) (Txt : list string) :
  ((N + 1 < List.length Txt)%nat ->
   Problem_1_Test_2.MakeResistor float_of_str self N Txt
   = MakeResistor float_of_str self N Txt) /\
  ((List.length Txt <= N + 1)%nat ->
   MakeResistor float_of_str self N Txt = Returns (self, (N + 1)%nat) /\
   Problem_1_Test_2.MakeResistor float_of_str self N Txt
   = Returns ({| Loops := Loops self;
                 Resistors := Resistors self
                              ++ [{| Resistor.Resistance := 1.0; Resistor.Current := 0.0;
                                     Resistor.Name := "ab" |}];
                 VSources := VSources self |}, (N + 1)%nat)).
Proof.
  unfold Problem_1_Test_2.MakeResistor, MakeResistor. split; intros HN.
  - destruct (Nat.ltb_spec (N + 1) (List.length Txt)); [|lia].
    rewrite MakeResistor_while_Test_2. reflexivity.
  - destruct (Nat.ltb_spec (N + 1) (List.length Txt)); [lia|]. split; reflexivity.
Qed.

Lemma BuildNetwork_line_Test_2 (self : ResistorNetwork) (LineNum : nat)
  (FileTxt : list string) :
  contains "resistor" (strip (lower (last FileTxt ""))) = false ->
  Problem_1_Test_2.BuildNetwork_line float_of_str self LineNum FileTxt
  = BuildNetwork_line float_of_str self LineNum FileTxt.
Proof.
  intros Hlast. unfold Problem_1_Test_2.BuildNetwork_line, BuildNetwork_line.
  unfold getitem. destruct (nth_error FileTxt LineNum) as [line|] eqn:Hline; [|reflexivity].
  cbn [Py.bind].
  destruct (String.length (strip (lower line)) <? 1)%nat; [reflexivity|].
  destruct (match String.get 0 (strip (lower line)) with
            | Some c => Ascii.eqb c "#"%char
            | None => false
            end); [reflexivity|].
  destruct (contains "resistor" (strip (lower line))) eqn:Hres; [|reflexivity].
  apply MakeResistor_Test_2_inside.
  assert (Hlt : (LineNum < List.length FileTxt)%nat).
  { apply nth_error_Some. congruence. }
  destruct (Nat.eq_dec (LineNum + 1) (List.length FileTxt)) as [Heq|]; [|lia].
  exfalso. destruct FileTxt as [|a l]; [cbn in Hlt; lia|].
  cbn [List.length] in Heq.
  assert (LineNum = List.length l) by lia. subst LineNum.
  rewrite (nth_error_last l a "") in Hline.
  assert (Hl : line = last (a :: l) "") by congruence.
  rewrite Hl, Hlast in Hres. discriminate Hres.
Qed.

Lemma BuildNetwork_while_Test_2 (FileTxt : list string) :
  contains "resistor" (strip (lower (last FileTxt ""))) = false ->
  forall fuel self LineNum,
    Problem_1_Test_2.BuildNetwork_while float_of_str fuel self LineNum FileTxt
    = BuildNetwork_while float_of_str fuel self LineNum FileTxt.
Proof.
  intros Hlast. induction fuel as [|fuel IH]; intros self LineNum; [reflexivity|].
  cbn [Problem_1_Test_2.BuildNetwork_while BuildNetwork_while].
  rewrite (BuildNetwork_line_Test_2 _ _ _ Hlast).
  destruct (LineNum <? List.length FileTxt)%nat; [|reflexivity].
  destruct (BuildNetwork_line float_of_str self LineNum FileTxt) as [[self' N]|e];
    [apply IH|reflexivity].
Qed.

(** X9.  [BuildNetworkFromFile] of [Problem_1_Test_2.py] and of
    [Problem 1.py] give the same result, the network or the exception, on
    every file whose last line does not hold the word [resistor]. *)
Theorem BuildNetworkFromFile_variants_agree (text : string) :
  contains "resistor" (strip (lower (last (Py.split "010"%char text) ""))) = false ->
  Problem_1_Test_2.BuildNetworkFromFile float_of_str text
  = BuildNetworkFromFile float_of_str text.
Proof.
  intros Hlast. unfold Problem_1_Test_2.BuildNetworkFromFile, BuildNetworkFromFile.
  apply BuildNetwork_while_Test_2. exact Hlast.
Qed.

(** *** The loop ends *)

Lemma BuildNetwork_line_index_Test_2 (self : ResistorNetwork) (LineNum : nat)
  (FileTxt : list string) (r : ResistorNetwork * nat) :
  Problem_1_Test_2.BuildNetwork_line float_of_str self LineNum FileTxt = Returns r ->
  (LineNum <= snd r)%nat.
Proof.
  unfold Problem_1_Test_2.BuildNetwork_line, Problem_1_Test_2.MakeResistor,
    MakeVSource, MakeLoop.
  intros H. bind_inv H.
  repeat match type of H with
         | (if ?c then _ else _) = _ => destruct c
         end;
    try (injection H as <-; cbn; lia);
    bind_inv H; injection H as <-; cbn [snd].
  - destruct (Nat.ltb_spec (LineNum + 1) (List.length FileTxt)).
    + rewrite MakeResistor_while_Test_2 in E0.
      apply MakeResistor_while_index in E0. lia.
    + injection E0 as <-. cbn. lia.
  - apply MakeVSource_while_index in E0. lia.
  - apply MakeLoop_while_index in E0. lia.
Qed.

Lemma BuildNetwork_while_finishes_Test_2 (FileTxt : list string) (fuel : nat) :
  forall self LineNum,
    (List.length FileTxt - LineNum <= fuel)%nat ->
    Problem_1_Test_2.BuildNetwork_while float_of_str fuel self LineNum FileTxt <> None.
Proof.
  induction fuel as [|fuel IH]; intros self LineNum Hfuel.
  - cbn [Problem_1_Test_2.BuildNetwork_while].
    destruct (Nat.ltb_spec LineNum (List.length FileTxt)); [lia|discriminate].
  - cbn [Problem_1_Test_2.BuildNetwork_while].
    destruct (Nat.ltb_spec LineNum (List.length FileTxt)); [|discriminate].
    destruct (Problem_1_Test_2.BuildNetwork_line float_of_str self LineNum FileTxt)
      as [[self' N]|e] eqn:Hline; [|discriminate].
    apply BuildNetwork_line_index_Test_2 in Hline. cbn [snd] in Hline.
    apply IH. lia.
Qed.

(** X10.  The loop of [BuildNetworkFromFile] ends on every text, in both
    files: within [len(FileTxt)] turns the run returns a network or
    raises.  (Each turn leaves [LineNum] at least where it was before
    [LineNum += 1], also when a block was read.) *)
Theorem BuildNetworkFromFile_ends (text : string) :
  (exists r, BuildNetworkFromFile float_of_str text = Some r) /\
  (exists r, Problem_1_Test_2.BuildNetworkFromFile float_of_str text = Some r).
Proof.
  split.
  - destruct (BuildNetworkFromFile float_of_str text) as [r|] eqn:H; [exists r; reflexivity|].
    exfalso. revert H. unfold BuildNetworkFromFile.
    apply BuildNetwork_while_finishes. lia.
  - destruct (Problem_1_Test_2.BuildNetworkFromFile float_of_str text) as [r|] eqn:H;
      [exists r; reflexivity|].
    exfalso. revert H. unfold Problem_1_Test_2.BuildNetworkFromFile.
    apply BuildNetwork_while_finishes_Test_2. lia.
Qed.

(** *** Lines that are skipped *)

Lemma BuildNetwork_while_skips (FileTxt : list string) :
  Forall (fun line =>
            let lineTxt := strip (lower line) in
            (String.length lineTxt <? 1)%nat = true \/
            (exists rest, lineTxt = String "#" rest) \/
            (contains "resistor" lineTxt = false /\ contains "source" lineTxt = false
             /\ contains "loop" lineTxt = false)) FileTxt ->
  forall fuel self LineNum,
    (List.length FileTxt - LineNum <= fuel)%nat ->
    BuildNetwork_while float_of_str fuel self LineNum FileTxt = Some (Returns self).
Proof.
  intros Hskip. induction fuel as [|fuel IH]; intros self LineNum Hfuel;
    cbn [BuildNetwork_while];
    destruct (Nat.ltb_spec LineNum (List.length FileTxt)) as [Hlt|Hge];
    try reflexivity; [lia|].
  unfold BuildNetwork_line, getitem.
  destruct (nth_error FileTxt LineNum) as [line|] eqn:Hline;
    [|apply nth_error_None in Hline; lia].
  cbn [Py.bind].
  pose proof (proj1 (Forall_forall _ _) Hskip line (nth_error_In _ _ Hline)) as Hl.
  cbv zeta in Hl.
  assert (Hret : (if (String.length (strip (lower line)) <? 1)%nat
                  then Returns (self, LineNum)
                  else if match String.get 0 (strip (lower line)) with
                          | Some c => Ascii.eqb c "#"%char
                          | None => false
                          end then Returns (self, LineNum)
                  else if contains "resistor" (strip (lower line))
                       then MakeResistor float_of_str self LineNum FileTxt
                  else if contains "source" (strip (lower line))
                       then MakeVSource float_of_str self LineNum FileTxt
                  else if contains "loop" (strip (lower line))
                       then MakeLoop self LineNum FileTxt
                  else Returns (self, LineNum)) = Returns (self, LineNum)).
  { destruct (String.length (strip (lower line)) <? 1)%nat eqn:Hlen; [reflexivity|].
    destruct Hl as [Hl|[[rest Hl]|(H1 & H2 & H3)]]; [congruence| |].
    - rewrite Hl. reflexivity.
    - rewrite H1, H2, H3.
      destruct (match String.get 0 (strip (lower line)) with
                | Some c => Ascii.eqb c "#"%char
                | None => false
                end); reflexivity. }
  rewrite Hret. apply IH. lia.
Qed.

(** X11.  A file that holds no block gives the empty network: when every
    line, lowered and stripped, is empty, starts with [#], or holds none
    of the words [resistor], [source] and [loop], [BuildNetworkFromFile]
    returns with no loop, no resistor and no source. *)
Theorem BuildNetworkFromFile_without_blocks (text : string) :
  Forall (fun line =>
            let lineTxt := strip (lower line) in
            (String.length lineTxt <? 1)%nat = true \/
            (exists rest, lineTxt = String "#" rest) \/
            (contains "resistor" lineTxt = false /\ contains "source" lineTxt = false
             /\ contains "loop" lineTxt = false)) (Py.split "010"%char text) ->
  BuildNetworkFromFile float_of_str text
  = Some (Returns {| Loops := []; Resistors := []; VSources := [] |}).
Proof.
  intros Hskip. unfold BuildNetworkFromFile.
  apply (BuildNetwork_while_skips _ Hskip). lia.
Qed.

(** *** Field lines *)

Lemma split_without_separator (sep : ascii) (s : string) :
  contains (String sep "") s = false -> Py.split sep s = [s].
Proof.
  induction s as [|c s IH]; intros H; [reflexivity|].
  cbn [contains prefix] in H. cbn [Py.split].
  destruct (Ascii.eqb_spec c sep) as [->|Hne].
  - destruct (ascii_dec sep sep); [|congruence].
    destruct s; discriminate H.
  - destruct (ascii_dec sep c) as [Heq|_]; [congruence|].
    rewrite (IH H). reflexivity.
Qed.

(** X12.  A field line without [=] raises [IndexError]: in a resistor, a
    source or a loop block, a line that is not the closing line and holds
    the word [name] makes [txt.split('=')[1]] read past the one piece
    that the split gave. *)
Theorem field_line_without_equals_raises_IndexError
  (line : string) (rest : list string) (N : nat) :
  contains "name" (lower line) = true ->
  contains "=" (lower line) = false ->
  (contains "resistor" (lower line) = false ->
   forall R, MakeResistor_while float_of_str (line :: rest) N R = Raises IndexError) /\
  (contains "source" (lower line) = false ->
   forall VS, MakeVSource_while float_of_str (line :: rest) N VS = Raises IndexError) /\
  (contains "loop" (lower line) = false ->
   forall L, MakeLoop_while (line :: rest) N L = Raises IndexError).
Proof.
  intros Hname Heq.
  assert (Hfield : field_value (lower line) = Raises IndexError).
  { unfold field_value. rewrite (split_without_separator "=" _ Heq). reflexivity. }
  repeat match goal with |- _ /\ _ => split end; intros Hclose ?.
  - cbn [MakeResistor_while]. rewrite Hclose, Hname, Hfield. reflexivity.
  - cbn [MakeVSource_while]. rewrite Hclose, Hname, Hfield. reflexivity.
  - cbn [MakeLoop_while]. rewrite Hclose, Hname, Hfield. reflexivity.
Qed.

End ReadingMore.

(** The text of a resistor block whose closing line is the last one but
    one. *)
Lemma BuildNetworkFromFile_variants_agree_witness :
  Problem_1_Test_2.BuildNetworkFromFile Bench.no_number "<Resistor>
Name = cd
</Resistor>
"
  = Problem_1.BuildNetworkFromFile Bench.no_number "<Resistor>
Name = cd
</Resistor>
".
Proof.
  apply (BuildNetworkFromFile_variants_agree Bench.no_number). vm_compute. reflexivity.
Defined.

(** Comments, a blank line and a line of other text. *)
Lemma BuildNetworkFromFile_without_blocks_witness :
  Problem_1.BuildNetworkFromFile Bench.no_number "# a circuit

   # of no element
to be drawn"
  = Some (Returns {| Problem_1.Loops := []; Problem_1.Resistors := [];
                     Problem_1.VSources := [] |}).
Proof.
  apply (BuildNetworkFromFile_without_blocks Bench.no_number).
  assert (Hlines : Py.split "010"%char "# a circuit

   # of no element
to be drawn" = ["# a circuit"; ""; "   # of no element"; "to be drawn"])
    by (vm_compute; reflexivity).
  rewrite Hlines. clear Hlines.
  apply Forall_cons; [right; left; exists " a circuit"; vm_compute; reflexivity|].
  apply Forall_cons; [left; vm_compute; reflexivity|].
  apply Forall_cons; [right; left; exists " of no element"; vm_compute; reflexivity|].
  apply Forall_cons; [right; right; vm_compute; repeat split|].
  apply Forall_nil.
Defined.

(** The line [Name ad] of a block. *)
Lemma field_line_without_equals_raises_IndexError_witness :
  (contains "resistor" (lower "Name ad") = false ->
   forall R, Problem_1.MakeResistor_while Bench.no_number ("Name ad" :: ["</Resistor>"]) 1 R
             = Raises IndexError) /\
  (contains "source" (lower "Name ad") = false ->
   forall VS, Problem_1.MakeVSource_while Bench.no_number ("Name ad" :: ["</Resistor>"]) 1 VS
              = Raises IndexError) /\
  (contains "loop" (lower "Name ad") = false ->
   forall L, Problem_1.MakeLoop_while ("Name ad" :: ["</Resistor>"]) 1 L
             = Raises IndexError).
Proof.
  apply (field_line_without_equals_raises_IndexError Bench.no_number "Name ad"
           ["</Resistor>"] 1); vm_compute; reflexivity.
Defined.

(** ** The names that a file gives *)
Section LowerCase.
Import Problem_1 NameSpec.

Variable float_of_str : string -> pyresult float.

Lemma lower_char_idempotent (c : ascii) : lower_char (lower_char c) = lower_char c.
Proof. destruct c as [[] [] [] [] [] [] [] []]; vm_compute; reflexivity. Qed.

Lemma lowercase_lower (s : string) : lowercase (lower s).
Proof.
  unfold lowercase. induction s as [|c s IH]; [reflexivity|].
  cbn [lower]. rewrite lower_char_idempotent, IH. reflexivity.
Qed.

Lemma lowercase_chars (s : string) :
  lowercase s <-> Forall (fun c => lower_char c = c) (list_ascii_of_string s).
Proof.
  unfold lowercase. induction s as [|c s IH]; cbn [lower list_ascii_of_string].
  - split; [constructor|reflexivity].
  - split.
    + intros H. injection H as Hc Hs. constructor; [exact Hc|apply IH; exact Hs].
    + intros H. inversion H as [|? ? Hc Hs]; subst.
      rewrite Hc, (proj2 IH Hs). reflexivity.
Qed.

Lemma lowercase_reversed (s : string) : lowercase s -> lowercase (reversed s).
Proof.
  rewrite !lowercase_chars. unfold reversed.
  rewrite list_ascii_of_string_of_list_ascii. apply Forall_rev.
Qed.

Lemma lowercase_lstrip (s : string) : lowercase s -> lowercase (lstrip s).
Proof.
  unfold lowercase. induction s as [|c s IH]; intros H; [reflexivity|].
  cbn [lstrip]. destruct (isspace c); [|exact H].
  cbn [lower] in H. injection H as _ H. exact (IH H).
Qed.

Lemma lowercase_strip (s : string) : lowercase s -> lowercase (strip s).
Proof.
  intros H. unfold strip.
  apply lowercase_reversed, lowercase_lstrip, lowercase_reversed, lowercase_lstrip, H.
Qed.

Lemma lowercase_remove_spaces (s : string) : lowercase s -> lowercase (remove_spaces s).
Proof.
  unfold lowercase. induction s as [|c s IH]; intros H; [reflexivity|].
  cbn [lower] in H. injection H as Hc Hs. cbn [remove_spaces].
  destruct (Ascii.eqb c " "); [exact (IH Hs)|].
  cbn [lower]. rewrite Hc, (IH Hs). reflexivity.
Qed.

Lemma lowercase_split (sep : ascii) (s : string) :
  lowercase s -> Forall lowercase (Py.split sep s).
Proof.
  unfold lowercase. induction s as [|c s IH]; intros H.
  - repeat constructor.
  - cbn [lower] in H. injection H as Hc Hs. specialize (IH Hs). cbn [Py.split].
    destruct (Ascii.eqb c sep).
    + constructor; [reflexivity|exact IH].
    + destruct (Py.split sep s) as [|w ws].
      * constructor; [|constructor]. cbn [lower]. rewrite Hc. reflexivity.
      * inversion IH as [|? ? Hw Hws]; subst. constructor; [|exact Hws].
        cbn [lower]. rewrite Hc, Hw. reflexivity.
Qed.

Lemma lowercase_field_value (txt v : string) :
  lowercase txt -> field_value txt = Returns v -> lowercase v.
Proof.
  intros Htxt H. unfold field_value, getitem in H.
  destruct (nth_error (Py.split "=" txt) 1) as [w|] eqn:Hw; [|discriminate H].
  injection H as <-. apply lowercase_strip.
  exact (proj1 (Forall_forall _ _) (lowercase_split "=" txt Htxt) w (nth_error_In _ _ Hw)).
Qed.

Lemma MakeResistor_while_lowercase (rest : list string) :
  forall N R r,
    MakeResistor_while float_of_str rest N R = Returns r ->
    lowercase (Resistor.Name R) -> lowercase (Resistor.Name (fst r)).
Proof.
  induction rest as [|line rest IH]; intros N R r H HR; cbn [MakeResistor_while] in H.
  - injection H as <-. exact HR.
  - destruct (contains "resistor" (lower line)); [injection H as <-; exact HR|].
    bind_inv H. apply (IH _ _ _ H). clear H IH.
    assert (Ha : lowercase (Resistor.Name a)).
    { destruct (contains "name" (lower line)); [|injection E as <-; exact HR].
      bind_inv E. injection E as <-.
      match goal with
    | Hf : field_value _ = Returns _ |- _ =>
        exact (lowercase_field_value _ _ (lowercase_lower line) Hf)
    end. }
    destruct (contains "resistance" (lower line)); [|injection E0 as <-; exact Ha].
    bind_inv E0. injection E0 as <-. exact Ha.
Qed.

Lemma MakeVSource_while_lowercase (rest : list string) :
  forall N VS r,
    MakeVSource_while float_of_str rest N VS = Returns r ->
    (lowercase (VoltageSource.Name VS) /\
     forall ty, VoltageSource.Type_ VS = Some ty -> lowercase ty) ->
    lowercase (VoltageSource.Name (fst r)) /\
    forall ty, VoltageSource.Type_ (fst r) = Some ty -> lowercase ty.
Proof.
  induction rest as [|line rest IH]; intros N VS r H HVS; cbn [MakeVSource_while] in H;
    [discriminate H|].
  destruct (contains "source" (lower line)); [injection H as <-; exact HVS|].
  bind_inv H. apply (IH _ _ _ H). clear H IH.
  assert (Ha : lowercase (VoltageSource.Name a) /\
               forall ty, VoltageSource.Type_ a = Some ty -> lowercase ty).
  { destruct (contains "name" (lower line)); [|injection E as <-; exact HVS].
    bind_inv E. injection E as <-. split; [|exact (proj2 HVS)].
    match goal with
    | Hf : field_value _ = Returns _ |- _ =>
        exact (lowercase_field_value _ _ (lowercase_lower line) Hf)
    end. }
  assert (Ha0 : lowercase (VoltageSource.Name a0) /\
                forall ty, VoltageSource.Type_ a0 = Some ty -> lowercase ty).
  { destruct (contains "value" (lower line)); [|injection E0 as <-; exact Ha].
    bind_inv E0. injection E0 as <-. exact Ha. }
  destruct (contains "type" (lower line)); [|injection E1 as <-; exact Ha0].
  bind_inv E1. injection E1 as <-. split; [exact (proj1 Ha0)|].
  intros ty Hty. injection Hty as <-.
  match goal with
    | Hf : field_value _ = Returns _ |- _ =>
        exact (lowercase_field_value _ _ (lowercase_lower line) Hf)
    end.
Qed.

Lemma MakeLoop_while_lowercase (rest : list string) :
  forall N L r,
    MakeLoop_while rest N L = Returns r ->
    ((forall n, Loop.Name L = Some n -> lowercase n) /\ Forall lowercase (Loop.Nodes L)) ->
    (forall n, Loop.Name (fst r) = Some n -> lowercase n) /\
    Forall lowercase (Loop.Nodes (fst r)).
Proof.
  induction rest as [|line rest IH]; intros N L r H HL; cbn [MakeLoop_while] in H;
    [discriminate H|].
  destruct (contains "loop" (lower line)); [injection H as <-; exact HL|].
  bind_inv H. apply (IH _ _ _ H). clear H IH.
  assert (Ha : (forall n, Loop.Name a = Some n -> lowercase n) /\
               Forall lowercase (Loop.Nodes a)).
  { destruct (contains "name" (lower line)); [|injection E as <-; exact HL].
    bind_inv E. injection E as <-. split; [|exact (proj2 HL)].
    intros n Hn. injection Hn as <-.
    match goal with
    | Hf : field_value _ = Returns _ |- _ =>
        exact (lowercase_field_value _ _ (lowercase_lower line) Hf)
    end. }
  destruct (contains "nodes" (lower line)); [|injection E0 as <-; exact Ha].
  cbv zeta in E0. bind_inv E0. injection E0 as <-. split; [exact (proj1 Ha)|].
  cbn [Loop.Nodes Loop.set_Nodes]. apply lowercase_split.
  match goal with
    | Hf : field_value _ = Returns _ |- _ =>
        exact (lowercase_field_value _ _ (lowercase_remove_spaces _ (lowercase_lower line)) Hf)
    end.
Qed.

Lemma BuildNetwork_line_lowercase (self : ResistorNetwork) (LineNum : nat)
  (FileTxt : list string) (r : ResistorNetwork * nat) :
  BuildNetwork_line float_of_str self LineNum FileTxt = Returns r ->
  lowercase_network self -> lowercase_network (fst r).
Proof.
  unfold BuildNetwork_line, MakeResistor, MakeVSource, MakeLoop. intros H Hself.
  bind_inv H.
  repeat match type of H with
         | (if ?c then _ else _) = _ => destruct c
         end;
    try (injection H as <-; exact Hself);
    bind_inv H; injection H as <-; destruct Hself as (HR & HV & HL);
    unfold lowercase_network; cbn [fst Resistors VSources Loops set_Resistors
                                   set_VSources set_Loops].
  - split; [|split; assumption].
    apply Forall_app. split; [exact HR|]. constructor; [|constructor].
    apply (MakeResistor_while_lowercase _ _ _ _ E0). reflexivity.
  - split; [exact HR|]. split; [|exact HL].
    apply Forall_app. split; [exact HV|]. constructor; [|constructor].
    apply (MakeVSource_while_lowercase _ _ _ _ E0). split; [reflexivity|discriminate].
  - split; [exact HR|]. split; [exact HV|].
    apply Forall_app. split; [exact HL|]. constructor; [|constructor].
    apply (MakeLoop_while_lowercase _ _ _ _ E0). split; [discriminate|constructor].
Qed.

Lemma BuildNetwork_while_lowercase (FileTxt : list string) :
  forall fuel self LineNum net,
    BuildNetwork_while float_of_str fuel self LineNum FileTxt = Some (Returns net) ->
    lowercase_network self -> lowercase_network net.
Proof.
  induction fuel as [|fuel IH]; intros self LineNum net H Hself;
    cbn [BuildNetwork_while] in H;
    destruct (LineNum <? List.length FileTxt)%nat;
    try discriminate H; try (injection H as <-; exact Hself).
  destruct (BuildNetwork_line float_of_str self LineNum FileTxt) as [[self' N]|e] eqn:Hline;
    [|discriminate H].
  apply (IH _ _ _ H).
  exact (BuildNetwork_line_lowercase _ _ _ _ Hline Hself).
Qed.

(** X13.  Every name that [BuildNetworkFromFile] stores is in lower case,
    whatever the case of the file: the names of the resistors, the names
    and types of the sources, the names of the loops and the node names
    of the loops are strings that [str.lower] leaves as they are. *)
Theorem BuildNetworkFromFile_names_are_lowercase (text : string) (net : ResistorNetwork) :
  BuildNetworkFromFile float_of_str text = Some (Returns net) ->
  lowercase_network net.
Proof.
  unfold BuildNetworkFromFile. intros H.
  apply (BuildNetwork_while_lowercase _ _ _ _ _ H).
  repeat split; constructor.
Qed.

End LowerCase.

(** A resistor and a loop written in capitals. *)
Lemma BuildNetworkFromFile_names_are_lowercase_witness :
  Problem_1.BuildNetworkFromFile Bench.no_number "<RESISTOR>
NAME = AD
</RESISTOR>
<Loop>
Name = L1
Nodes = A, D
</Loop>"
  = Some (Returns {| Problem_1.Loops := [Bench.loop "l1" ["a"; "d"]];
                     Problem_1.Resistors := [Bench.resistor 1 "ad"];
                     Problem_1.VSources := [] |}) /\
  NameSpec.lowercase_network
    {| Problem_1.Loops := [Bench.loop "l1" ["a"; "d"]];
       Problem_1.Resistors := [Bench.resistor 1 "ad"];
       Problem_1.VSources := [] |}.
Proof.
  split; [vm_compute; reflexivity|].
  apply (BuildNetworkFromFile_names_are_lowercase Bench.no_number "<RESISTOR>
NAME = AD
</RESISTOR>
<Loop>
Name = L1
Nodes = A, D
</Loop>").
  vm_compute. reflexivity.
Defined.

(** ** Pipes: what a head loss evaluation writes *)
Section CacheFacts.
Import Pipes Caches.

Variable E : Env.
Variable src : source_file.

Lemma touched_at_refl (l : list nat) (s : state E) : touched_at l s s.
Proof. split; intros; reflexivity. Qed.

Lemma touched_at_trans (l : list nat) (s1 s2 s3 : state E) :
  touched_at l s1 s2 -> touched_at l s2 s3 -> touched_at l s1 s3.
Proof.
  intros [H12 C12] [H23 C23]. split.
  - intros a Ha. rewrite (H23 a Ha). exact (H12 a Ha).
  - intros a. unfold but_caches in *. rewrite (C12 a). exact (C23 a).
Qed.

Lemma touched_at_incl (l l' : list nat) (s s' : state E) :
  incl l l' -> touched_at l s s' -> touched_at l' s s'.
Proof.
  intros Hl [H C]. split; [|exact C].
  intros a Ha. apply H. intros Hin. exact (Ha (Hl a Hin)).
Qed.

Lemma touches_incl {X : Type} (l l' : list nat) (m : M E X) :
  incl l l' -> touches_only l m -> touches_only l' m.
Proof. intros Hl Hm s x s' H. exact (touched_at_incl _ _ _ _ Hl (Hm _ _ _ H)). Qed.

Lemma touches_ret {X : Type} (l : list nat) (x : X) : touches_only l (@ret E X x).
Proof. intros s y s' H. injection H as _ <-. apply touched_at_refl. Qed.

Lemma touches_lift {X : Type} (l : list nat) (m : pyresult X) :
  touches_only l (@lift E X m).
Proof.
  intros s y s' H. unfold lift in H. destruct m; [|discriminate H].
  injection H as _ <-. apply touched_at_refl.
Qed.

Lemma touches_deref (l : list nat) (self : nat) : touches_only l (deref E self).
Proof. intros s y s' H. injection H as _ <-. apply touched_at_refl. Qed.

Lemma touches_bindM {X Y : Type} (l : list nat) (m : M E X) (k : X -> M E Y) :
  touches_only l m -> (forall x, touches_only l (k x)) -> touches_only l (bindM m k).
Proof.
  intros Hm Hk s y s' H. bindM_inv H.
  exact (touched_at_trans _ _ _ _ (Hm _ _ _ E0) (Hk _ _ _ _ H)).
Qed.

Lemma touches_assign_vel (l : list nat) (self : nat) (x : float) :
  In self l -> touches_only l (assign_vel E self x).
Proof.
  intros Hl s y s' H. injection H as _ <-. split; intros a; cbn [heap]; unfold update.
  - intros Ha. destruct (Nat.eqb_spec a self) as [->|_]; [contradiction|reflexivity].
  - destruct (Nat.eqb_spec a self) as [->|_]; reflexivity.
Qed.

Lemma touches_assign_reynolds (l : list nat) (self : nat) (x : float) :
  In self l -> touches_only l (assign_reynolds E self x).
Proof.
  intros Hl s y s' H. injection H as _ <-. split; intros a; cbn [heap]; unfold update.
  - intros Ha. destruct (Nat.eqb_spec a self) as [->|_]; [contradiction|reflexivity].
  - destruct (Nat.eqb_spec a self) as [->|_]; reflexivity.
Qed.

Lemma touches_draw_normalvariate (l : list nat) (mu sigma : float) :
  touches_only l (draw_normalvariate E mu sigma).
Proof.
  intros s y s' H. unfold draw_normalvariate in H.
  destruct (normalvariate E mu sigma (rng s)). injection H as _ <-.
  split; intros; reflexivity.
Qed.

(** Takes a method built from the pieces above apart. *)
Ltac touches :=
  cbv zeta;
  repeat first
    [ apply touches_ret
    | apply touches_lift
    | apply touches_deref
    | apply touches_draw_normalvariate
    | apply touches_assign_vel; assumption
    | apply touches_assign_reynolds; assumption
    | assumption
    | apply touches_bindM; [|intro]
    | match goal with
      | |- touches_only _ (match ?c with _ => _ end) => destruct c
      end ].

Lemma touches_V (l : list nat) (self : nat) : In self l -> touches_only l (V E self).
Proof. intros Hl. unfold V. touches. Qed.

Lemma touches_Re (l : list nat) (self : nat) : In self l -> touches_only l (Re E src self).
Proof. intros Hl. pose proof (touches_V l self Hl). unfold Re. touches. Qed.

Lemma touches_FrictionFactor (l : list nat) (self : nat) :
  In self l -> touches_only l (FrictionFactor E src self).
Proof. intros Hl. pose proof (touches_Re l self Hl). unfold FrictionFactor. touches. Qed.

Lemma touches_frictionHeadLoss (l : list nat) (self : nat) :
  In self l -> touches_only l (frictionHeadLoss E src self).
Proof.
  intros Hl. pose proof (touches_FrictionFactor l self Hl).
  pose proof (touches_V l self Hl). unfold frictionHeadLoss. touches.
Qed.

Lemma touches_getFlowHeadLoss (l : list nat) (self : nat) (n : string) :
  In self l -> touches_only l (getFlowHeadLoss E src self n).
Proof.
  intros Hl. pose proof (touches_frictionHeadLoss l self Hl).
  unfold getFlowHeadLoss. touches.
Qed.

Lemma touches_getLoopHeadLoss_for (l ps : list nat) :
  incl ps l ->
  forall deltaP n, touches_only l (getLoopHeadLoss_for E src ps deltaP n).
Proof.
  induction ps as [|p ps IH]; intros Hl deltaP n; cbn [getLoopHeadLoss_for].
  - apply touches_ret.
  - pose proof (touches_getFlowHeadLoss l p n (Hl p (or_introl eq_refl))).
    apply touches_bindM; [assumption|intros phl].
    apply touches_bindM; [apply touches_deref|intros pp].
    apply IH. intros a Ha. apply Hl. right. exact Ha.
Qed.

Lemma touches_getLoopHeadLoss (L : Loop.t) :
  touches_only (Loop.pipes L) (getLoopHeadLoss E src L).
Proof.
  pose proof (touches_getLoopHeadLoss_for (Loop.pipes L) (Loop.pipes L) (incl_refl _))
    as Hfor.
  unfold getLoopHeadLoss.
  apply touches_bindM; [apply touches_lift|intros p0].
  apply touches_bindM; [apply touches_deref|intros pp].
  apply touches_bindM; [apply Hfor|intros deltaP]. touches.
Qed.

Lemma touches_getFlowIntoNode (l : list nat) (self : nat) (n : string) :
  touches_only l (getFlowIntoNode E self n).
Proof. unfold getFlowIntoNode. touches. Qed.

Lemma touches_getNetFlowRate (l : list nat) (N : Node.t) :
  touches_only l (getNetFlowRate E N).
Proof.
  unfold getNetFlowRate. generalize (Node.extFlow N).
  induction (Node.pipes N) as [|p ps IH]; intros Qtot; cbn [getNetFlowRate_for].
  - apply touches_ret.
  - apply touches_bindM; [apply touches_getFlowIntoNode|intros q]. apply IH.
Qed.

Lemma touches_mapM {X Y : Type} (l : list nat) (f : X -> M E Y) (xs : list X) :
  (forall x, In x xs -> touches_only l (f x)) -> touches_only l (mapM f xs).
Proof.
  induction xs as [|x xs IH]; intros Hf; cbn [mapM].
  - apply touches_ret.
  - apply touches_bindM; [apply Hf; left; reflexivity|intros y].
    apply touches_bindM; [|intros ys; apply touches_ret].
    apply IH. intros x' Hx'. apply Hf. right. exact Hx'.
Qed.

Lemma but_caches_fields (p p' : Pipe.t) :
  but_caches p p' ->
  Pipe.startNode p = Pipe.startNode p' /\ Pipe.endNode p = Pipe.endNode p' /\
  Pipe.length p = Pipe.length p' /\ Pipe.r p = Pipe.r p' /\
  Pipe.fluid p = Pipe.fluid p' /\ Pipe.d p = Pipe.d p' /\
  Pipe.relrough p = Pipe.relrough p' /\ Pipe.A p = Pipe.A p' /\ Pipe.Q p = Pipe.Q p'.
Proof.
  unfold but_caches. destruct p, p'. cbn. intros H.
  injection H as -> -> -> -> -> -> -> -> ->. repeat split.
Qed.

(** X14.  Evaluating a head loss writes nothing but the stored velocity and
    Reynolds number of the pipes it goes through.  After
    [frictionHeadLoss] on a pipe, and after [getLoopHeadLoss] on a loop,
    every pipe outside (the pipe, the loop) is the object it was, and
    every pipe has the end nodes, length, roughness, fluid, diameter,
    area and flow [Q] it had. *)
Theorem head_loss_writes_only_the_caches :
  (forall (self : nat) (s s' : state E) (hl : float),
     frictionHeadLoss E src self s = Returns (hl, s') ->
     (forall a, a <> self -> heap s' a = heap s a) /\
     (forall a, Pipe.set_vel (Pipe.set_reynolds (heap s' a) 0) 0
                = Pipe.set_vel (Pipe.set_reynolds (heap s a) 0) 0)) /\
  (forall (L : Loop.t) (s s' : state E) (hl : float),
     getLoopHeadLoss E src L s = Returns (hl, s') ->
     (forall a, ~ In a (Loop.pipes L) -> heap s' a = heap s a) /\
     (forall a, Pipe.set_vel (Pipe.set_reynolds (heap s' a) 0) 0
                = Pipe.set_vel (Pipe.set_reynolds (heap s a) 0) 0 /\
                Pipe.Q (heap s' a) = Pipe.Q (heap s a))).
Proof.
  split.
  - intros self s s' hl H.
    destruct (touches_frictionHeadLoss [self] self (or_introl eq_refl) _ _ _ H) as [Hout Hc].
    split.
    + intros a Ha. apply Hout. intros [Heq|[]]. congruence.
    + intros a. symmetry. exact (Hc a).
  - intros L s s' hl H. destruct (touches_getLoopHeadLoss L _ _ _ H) as [Hout Hc].
    split; [exact Hout|]. intros a. split; [symmetry; exact (Hc a)|].
    symmetry. apply (but_caches_fields _ _ (Hc a)).
Qed.

End CacheFacts.

(** ** Pipes: the callback [fn] *)
Section Callback.
Import Pipes Caches.

Variable E : Env.
Variable src : source_file.

Lemma getNetFlowRate_for_reads (name : string) (s : state E) (ps : list nat) :
  forall Qtot,
    getNetFlowRate_for E ps name Qtot s
    = Returns (fold_left
                 (fun Qtot p =>
                    (Qtot + (if (name =? Pipe.startNode (heap s p))%string
                             then - Pipe.Q (heap s p) else Pipe.Q (heap s p)))%float)
                 ps Qtot, s).
Proof.
  induction ps as [|p ps IH]; intros Qtot; [reflexivity|].
  cbn [getNetFlowRate_for fold_left]. rewrite <- IH.
  unfold bindM at 1, getFlowIntoNode, bindM at 1, deref.
  destruct (name =? Pipe.startNode (heap s p)); reflexivity.
Qed.

Lemma mapM_pure {X Y : Type} (f : X -> M E Y) (g : X -> Y) (s : state E) (l : list X) :
  (forall x, f x s = Returns (g x, s)) -> mapM f l s = Returns (map g l, s).
Proof.
  intros Hf. induction l as [|x l IH]; [reflexivity|].
  cbn [mapM map]. unfold bindM at 1. rewrite Hf.
  unfold bindM at 1. rewrite IH. reflexivity.
Qed.

Lemma getNodeFlowRates_computes (net : PipeNetwork) (s : state E) :
  getNodeFlowRates E net s
  = Returns (map (fun n =>
                    fold_left
                      (fun Qtot p =>
                         (Qtot + (if (Node.name n =? Pipe.startNode (heap s p))%string
                                  then - Pipe.Q (heap s p)
                                  else Pipe.Q (heap s p)))%float)
                      (Node.pipes n) (Node.extFlow n))
                 (nodes net), s).
Proof.
  unfold getNodeFlowRates. apply mapM_pure. intros n.
  unfold getNetFlowRate. apply getNetFlowRate_for_reads.
Qed.

(** X15.  [getNodeFlowRates] reads and writes nothing: it returns on every
    network and every state, leaves the state as it was, and gives, for
    each node in the order of [self.nodes], the external flow plus, pipe
    after pipe, [-Q] for a pipe that starts at the node and [+Q] for any
    other pipe of the node. *)
Theorem getNodeFlowRates_reads_the_flows (net : PipeNetwork) (s : state E) :
  getNodeFlowRates E net s
  = Returns (map (fun n =>
                    fold_left
                      (fun Qtot p =>
                         (Qtot + (if (Node.name n =? Pipe.startNode (heap s p))%string
                                  then - Pipe.Q (heap s p)
                                  else Pipe.Q (heap s p)))%float)
                      (Node.pipes n) (Node.extFlow n))
                 (nodes net), s).
Proof.
  unfold getNodeFlowRates. apply mapM_pure. intros n.
  unfold getNetFlowRate. apply getNetFlowRate_for_reads.
Qed.

(** The loop of [fn] writes [q[i]] to the pipe at position [i], and to
    nothing else. *)
Lemma fn_for_writes (q : list float) (ps : list nat) :
  forall i s s' u,
    fn_for E ps i q s = Returns (u, s') ->
    NoDup ps ->
    (forall k p, nth_error ps k = Some p ->
       exists x, nth_error q (i + k) = Some x /\ Pipe.Q (heap s' p) = x) /\
    (forall a, ~ In a ps -> heap s' a = heap s a).
Proof.
  induction ps as [|p ps IH]; intros i s s' u H Hnd; cbn [fn_for] in H.
  - split; [intros [|k] p' Hk; discriminate Hk|]. injection H as _ <-. reflexivity.
  - unfold bindM at 1, lift, getitem in H.
    destruct (nth_error q i) as [x|] eqn:Hx; [|discriminate H].
    unfold bindM at 1, assign_Q, bindM at 1, deref, store in H.
    inversion Hnd as [|? ? Hp Hnd']; subst.
    destruct (IH _ _ _ _ H Hnd') as [Hw Hout]. split.
    + intros [|k] p' Hk.
      * injection Hk as <-. exists x. rewrite Nat.add_0_r. split; [exact Hx|].
        rewrite (Hout p Hp). cbn [heap]. unfold update. rewrite Nat.eqb_refl. reflexivity.
      * destruct (Hw k p' Hk) as (y & Hy & HQ). exists y.
        replace (i + S k)%nat with (S i + k)%nat by lia. auto.
    + intros a Ha. rewrite Hout by (intros Hin; apply Ha; right; exact Hin).
      cbn [heap]. unfold update.
      destruct (Nat.eqb_spec a p) as [->|_]; [|reflexivity].
      exfalso. apply Ha. left. reflexivity.
Qed.

(** X16.  When [fn] returns, the trial flows are in the pipes: with no
    pipe listed twice in [self.pipes], the pipe at position [i] holds
    [Q = q[i]] in the state that [fn] leaves, and the pipes that are not in
    [self.pipes] hold the [Q] they had. *)
Theorem fn_leaves_the_trial_flows (net : PipeNetwork) (q : list float)
  (s s' : state E) (res : list float) :
  fn E src net q s = Returns (res, s') ->
  NoDup (pipes net) ->
  (forall i p, nth_error (pipes net) i = Some p ->
     exists x, nth_error q i = Some x /\ Pipe.Q (heap s' p) = x) /\
  (forall a, ~ In a (pipes net) -> Pipe.Q (heap s' a) = Pipe.Q (heap s a)).
Proof.
  intros H Hnd. unfold fn in H.
  unfold bindM at 1 in H.
  destruct (fn_for E (pipes net) 0 q s) as [[u s1]|] eqn:Hfor; [|discriminate H].
  unfold bindM at 1 in H. rewrite getNodeFlowRates_computes in H.
  unfold bindM at 1 in H.
  destruct (getLoopHeadLosses E src net s1) as [[lhl s2]|] eqn:Hlhl; [|discriminate H].
  injection H as _ <-.
  assert (HQ : forall a, Pipe.Q (heap s2 a) = Pipe.Q (heap s1 a)).
  { assert (Ht : touches_only (flat_map Loop.pipes (loops net))
                   (getLoopHeadLosses E src net)).
    { unfold getLoopHeadLosses. apply touches_mapM. intros L HL.
      apply (touches_incl E (Loop.pipes L)); [|apply touches_getLoopHeadLoss].
      intros a Ha. apply in_flat_map. exists L. auto. }
    intros a. destruct (Ht _ _ _ Hlhl) as [_ Hc].
    symmetry. apply (but_caches_fields _ _ (Hc a)). }
  destruct (fn_for_writes _ _ _ _ _ _ Hfor Hnd) as [Hw Hout]. split.
  - intros i p Hi. destruct (Hw i p Hi) as (x & Hx & Hp).
    exists x. split; [exact Hx|]. rewrite HQ. exact Hp.
  - intros a Ha. rewrite HQ, (Hout a Ha). reflexivity.
Qed.

Lemma fn_for_short (q : list float) (ps : list nat) :
  forall i s,
    (i <= List.length q < i + List.length ps)%nat ->
    fn_for E ps i q s = Raises IndexError.
Proof.
  induction ps as [|p ps IH]; intros i s Hi; cbn [List.length] in Hi; [lia|].
  cbn [fn_for]. unfold bindM at 1, lift, getitem.
  destruct (nth_error q i) as [x|] eqn:Hx; [|reflexivity].
  assert (i < List.length q)%nat by (apply nth_error_Some; congruence).
  unfold bindM at 1, assign_Q, bindM at 1, deref, store.
  apply IH. lia.
Qed.

(** X17.  A trial vector shorter than the list of pipes makes [fn] raise
    [IndexError], whatever the network and the state: the loop that copies
    [q[i]] into the pipes reads past the end of [q] before any flow rate
    or head loss is computed. *)
Theorem fn_raises_IndexError_on_a_short_vector (net : PipeNetwork) (q : list float)
  (s : state E) :
  (List.length q < List.length (pipes net))%nat ->
  fn E src net q s = Raises IndexError.
Proof.
  intros Hq. unfold fn, bindM at 1.
  rewrite (fn_for_short q (pipes net) 0 s) by lia. reflexivity.
Qed.

Lemma mapM_returns {X Y : Type} (f : X -> M E Y) (l : list X) :
  forall s ys s',
    mapM f l s = Returns (ys, s') ->
    forall x, In x l -> exists s1 y s2, f x s1 = Returns (y, s2).
Proof.
  induction l as [|x0 l IH]; intros s ys s' H x Hx; [destruct Hx|].
  cbn [mapM] in H. bindM_inv H.
  destruct Hx as [<-|Hx]; [eauto|]. exact (IH _ _ _ E1 x Hx).
Qed.

(** X18.  [fn] returns only on a network whose loops all hold a pipe: a
    loop with an empty pipe list makes [getLoopHeadLoss] read
    [self.pipes[0]] and raise [IndexError]. *)
Theorem fn_returns_only_with_pipes_in_every_loop (net : PipeNetwork) (q : list float)
  (s s' : state E) (res : list float) :
  fn E src net q s = Returns (res, s') ->
  (forall L s0, Loop.pipes L = [] -> getLoopHeadLoss E src L s0 = Raises IndexError) /\
  Forall (fun L => Loop.pipes L <> []) (loops net).
Proof.
  intros H.
  assert (Hempty : forall L s0, Loop.pipes L = [] ->
                                getLoopHeadLoss E src L s0 = Raises IndexError).
  { intros L s0 HL. unfold getLoopHeadLoss, bindM at 1. rewrite HL. reflexivity. }
  split; [exact Hempty|].
  unfold fn in H. do 3 bindM_inv1 H.
  apply Forall_forall. intros L HL Hnil.
  destruct (mapM_returns _ _ _ _ _ E2 L HL) as (t1 & y & t2 & Hret).
  rewrite (Hempty L t1 Hnil) in Hret. discriminate Hret.
Qed.

End Callback.

(** ** [Problem 2.py]: the head losses follow the flows *)
Section FreshVelocity.
Import Pipes Caches.

Variable E : Env.

Lemma but_flow_fields (p p' : Pipe.t) :
  but_flow p p' ->
  Pipe.startNode p = Pipe.startNode p' /\ Pipe.endNode p = Pipe.endNode p' /\
  Pipe.length p = Pipe.length p' /\ Pipe.fluid p = Pipe.fluid p' /\
  Pipe.d p = Pipe.d p' /\ Pipe.relrough p = Pipe.relrough p' /\ Pipe.A p = Pipe.A p'.
Proof.
  unfold but_flow, but_caches. destruct p, p'. cbn. intros H.
  injection H as -> -> -> -> -> -> -> ->. repeat split.
Qed.

Lemma but_flow_set (p p' : Pipe.t) :
  but_flow p p' ->
  (forall x y, but_flow (Pipe.set_Q p x) (Pipe.set_Q p' y)) /\
  (forall x y, but_flow (Pipe.set_vel p x) (Pipe.set_vel p' y)) /\
  (forall x y, but_flow (Pipe.set_reynolds p x) (Pipe.set_reynolds p' y)).
Proof.
  unfold but_flow, but_caches. destruct p, p'. cbn. intros H.
  injection H as -> -> -> -> -> -> -> ->. repeat split.
Qed.

(** Writing related pipes at one address. *)
Lemma agree_on_update (l : list nat) (s s' : state E) (self : nat) (p p' : Pipe.t) :
  agree_on l s s' ->
  but_flow p p' -> (In self l -> Pipe.Q p = Pipe.Q p') ->
  agree_on l {| heap := update (heap s) self p; rng := rng s |}
             {| heap := update (heap s') self p'; rng := rng s' |}.
Proof.
  intros (Hr & Hf & HQ) Hp Hq. split; [exact Hr|]. split; intros a; cbn [heap]; unfold update;
    destruct (Nat.eqb_spec a self) as [->|_]; auto.
Qed.

Lemma agree_on_incl (l l' : list nat) (s s' : state E) :
  incl l' l -> agree_on l s s' -> agree_on l' s s'.
Proof. intros Hl (Hr & Hf & HQ). split; [exact Hr|]. split; auto. Qed.

Lemma alike_on_bindM {X Y : Type} (l : list nat) (R : X -> X -> Prop)
  (R' : Y -> Y -> Prop) (m m' : M E X) (k k' : X -> M E Y) :
  alike_on l R m m' ->
  (forall x x', R x x' -> alike_on l R' (k x) (k' x')) ->
  alike_on l R' (bindM m k) (bindM m' k').
Proof.
  intros Hm Hk s s' Hs. unfold bindM. specialize (Hm s s' Hs).
  destruct (m s) as [[x t]|e], (m' s') as [[x' t']|e']; try contradiction; [|exact Hm].
  destruct Hm as [Hx Ht]. exact (Hk x x' Hx t t' Ht).
Qed.

Lemma alike_on_ret {X : Type} (l : list nat) (R : X -> X -> Prop) (x x' : X) :
  R x x' -> alike_on l R (ret (E := E) x) (ret x').
Proof. intros Hx s s' Hs. split; assumption. Qed.

Lemma alike_on_lift {X : Type} (l : list nat) (m : pyresult X) :
  alike_on l eq (lift (E := E) m) (lift m).
Proof. intros s s' Hs. unfold lift. destruct m; [split; [reflexivity|exact Hs]|reflexivity]. Qed.

(** Reading a pipe whose [Q] is the same in the two states. *)
Lemma alike_on_deref (l : list nat) (self : nat) :
  In self l ->
  alike_on l (fun p p' => but_flow p p' /\ Pipe.Q p = Pipe.Q p') (deref E self) (deref E self).
Proof.
  intros Hl s s' Hs. split; [|exact Hs]. destruct Hs as (_ & Hf & HQ). auto.
Qed.

Lemma alike_on_draw_normalvariate (l : list nat) (mu sigma : float) :
  alike_on l eq (draw_normalvariate E mu sigma) (draw_normalvariate E mu sigma).
Proof.
  intros s s' (Hr & Hf & HQ). unfold draw_normalvariate. rewrite Hr.
  destruct (normalvariate E mu sigma (rng s')). split; [reflexivity|].
  split; [reflexivity|]. split; assumption.
Qed.

(** What [V] and the [Re] of [Problem 2.py] compute and store. *)
Lemma V_computes (self : nat) (s : state E) :
  V E self s
  = match truediv (Pipe.Q (heap s self)) (Pipe.A (heap s self)) with
    | Returns v =>
        Returns (v, {| heap := update (heap s) self (Pipe.set_vel (heap s self) v);
                       rng := rng s |})
    | Raises e => Raises e
    end.
Proof.
  unfold V, bindM, deref, lift, assign_vel, bindM, deref, store, ret.
  destruct (truediv (Pipe.Q (heap s self)) (Pipe.A (heap s self))); [|reflexivity].
  cbn [heap]. unfold update. rewrite Nat.eqb_refl. reflexivity.
Qed.

Lemma alike_on_V (l : list nat) (self : nat) :
  In self l -> alike_on l eq (V E self) (V E self).
Proof.
  intros Hl s s' Hs. rewrite !V_computes.
  pose proof Hs as (_ & Hf & HQ).
  destruct (but_flow_fields _ _ (Hf self)) as (_ & _ & _ & _ & _ & _ & HA).
  rewrite (HQ self Hl), HA.
  destruct (truediv (Pipe.Q (heap s' self)) (Pipe.A (heap s' self))); [|reflexivity].
  split; [reflexivity|]. apply agree_on_update; [exact Hs| |intros _; exact (HQ self Hl)].
  apply (but_flow_set _ _ (Hf self)).
Qed.

Lemma alike_on_assign_reynolds (l : list nat) (self : nat) (x : float) :
  alike_on l eq (assign_reynolds E self x) (assign_reynolds E self x).
Proof.
  intros s s' Hs. unfold assign_reynolds, bindM, deref, store. split; [reflexivity|].
  pose proof Hs as (_ & Hf & HQ).
  apply agree_on_update; [exact Hs|apply (but_flow_set _ _ (Hf self))|].
  intros Hl. exact (HQ self Hl).
Qed.

Lemma Re_stores (self : nat) (v : float) (s : state E) :
  (x <~ assign_reynolds E self v ;; p <~ deref E self ;; ret (Pipe.reynolds p)) s
  = Returns (v, {| heap := update (heap s) self (Pipe.set_reynolds (heap s self) v);
                   rng := rng s |}).
Proof.
  unfold assign_reynolds, bindM, deref, store, ret. cbn [heap].
  unfold update. rewrite Nat.eqb_refl. reflexivity.
Qed.

Lemma alike_on_Re (l : list nat) (self : nat) :
  In self l -> alike_on l eq (Re E Problem_2_py self) (Re E Problem_2_py self).
Proof.
  intros Hl. unfold Re.
  apply (alike_on_bindM l _ _ _ _ _ _ (alike_on_deref l self Hl)).
  intros p p' [Hp _]. destruct (but_flow_fields _ _ Hp) as (_ & _ & _ & -> & -> & _ & _).
  apply (alike_on_bindM l eq); [apply alike_on_V; exact Hl|]. intros v _ <-.
  apply (alike_on_bindM l eq); [apply alike_on_lift|]. intros x _ <-.
  intros s s' Hs.
  rewrite !(Re_stores self x).
  split; [reflexivity|]. pose proof Hs as (_ & Hf & HQ).
  apply agree_on_update; [exact Hs|apply (but_flow_set _ _ (Hf self))|].
  intros _. exact (HQ self Hl).
Qed.

Lemma alike_on_FrictionFactor (l : list nat) (self : nat) :
  In self l ->
  alike_on l eq (FrictionFactor E Problem_2_py self) (FrictionFactor E Problem_2_py self).
Proof.
  intros Hl. unfold FrictionFactor.
  apply (alike_on_bindM l eq); [apply alike_on_Re; exact Hl|]. intros re _ <-.
  apply (alike_on_bindM l _ _ _ _ _ _ (alike_on_deref l self Hl)).
  intros p p' [Hp _]. destruct (but_flow_fields _ _ Hp) as (_ & _ & _ & _ & _ & -> & _).
  cbv zeta.
  destruct (4000 <=? re)%float; [apply alike_on_ret; reflexivity|].
  destruct (re <=? 2000)%float; [apply alike_on_lift|].
  apply (alike_on_bindM l eq); [apply alike_on_lift|]. intros Lamff _ <-.
  apply alike_on_draw_normalvariate.
Qed.

Lemma alike_on_frictionHeadLoss (l : list nat) (self : nat) :
  In self l ->
  alike_on l eq (frictionHeadLoss E Problem_2_py self) (frictionHeadLoss E Problem_2_py self).
Proof.
  intros Hl. unfold frictionHeadLoss. cbv zeta.
  apply (alike_on_bindM l eq); [apply alike_on_FrictionFactor; exact Hl|]. intros ff _ <-.
  apply (alike_on_bindM l eq); [apply alike_on_V; exact Hl|]. intros v _ <-.
  apply (alike_on_bindM l eq); [apply alike_on_lift|]. intros v2 _ <-.
  apply (alike_on_bindM l _ _ _ _ _ _ (alike_on_deref l self Hl)).
  intros p p' [Hp _]. destruct (but_flow_fields _ _ Hp) as (_ & _ & -> & _ & -> & _ & _).
  apply alike_on_lift.
Qed.

Lemma alike_on_getFlowHeadLoss (l : list nat) (self : nat) (n : string) :
  In self l ->
  alike_on l eq (getFlowHeadLoss E Problem_2_py self n) (getFlowHeadLoss E Problem_2_py self n).
Proof.
  intros Hl. unfold getFlowHeadLoss.
  apply (alike_on_bindM l _ _ _ _ _ _ (alike_on_deref l self Hl)).
  intros p p' [Hp HQ]. destruct (but_flow_fields _ _ Hp) as (-> & _). rewrite HQ. cbv zeta.
  apply (alike_on_bindM l eq); [apply alike_on_frictionHeadLoss; exact Hl|]. intros hl _ <-.
  apply alike_on_ret. reflexivity.
Qed.

Lemma alike_on_getLoopHeadLoss_for (l ps : list nat) :
  incl ps l ->
  forall deltaP n,
    alike_on l eq (getLoopHeadLoss_for E Problem_2_py ps deltaP n)
                  (getLoopHeadLoss_for E Problem_2_py ps deltaP n).
Proof.
  induction ps as [|p ps IH]; intros Hl deltaP n; cbn [getLoopHeadLoss_for].
  - apply alike_on_ret. reflexivity.
  - assert (Hp : In p l) by (apply Hl; left; reflexivity).
    apply (alike_on_bindM l eq); [apply alike_on_getFlowHeadLoss; exact Hp|].
    intros phl _ <-. cbv zeta.
    apply (alike_on_bindM l _ _ _ _ _ _ (alike_on_deref l p Hp)).
    intros pp pp' [Hpp _]. destruct (but_flow_fields _ _ Hpp) as (-> & -> & _).
    apply IH. intros a Ha. apply Hl. right. exact Ha.
Qed.

Lemma alike_on_getitem (l ps : list nat) (k : nat) :
  incl ps l ->
  alike_on l (fun a a' => a = a' /\ In a l)
    (lift (E := E) (getitem ps k)) (lift (getitem ps k)).
Proof.
  intros Hl s s' Hs. unfold lift, getitem.
  destruct (nth_error ps k) as [a|] eqn:Ha; [|reflexivity].
  split; [|exact Hs]. split; [reflexivity|]. apply Hl. exact (nth_error_In _ _ Ha).
Qed.

Lemma alike_on_getLoopHeadLoss (l : list nat) (L : Loop.t) :
  incl (Loop.pipes L) l ->
  alike_on l eq (getLoopHeadLoss E Problem_2_py L) (getLoopHeadLoss E Problem_2_py L).
Proof.
  intros Hl. unfold getLoopHeadLoss.
  apply (alike_on_bindM l _ _ _ _ _ _ (alike_on_getitem l _ 0 Hl)).
  intros p0 _ [<- Hp0].
  apply (alike_on_bindM l _ _ _ _ _ _ (alike_on_deref l p0 Hp0)).
  intros pp pp' [Hpp _]. destruct (but_flow_fields _ _ Hpp) as (-> & _).
  apply (alike_on_bindM l eq); [apply alike_on_getLoopHeadLoss_for; exact Hl|].
  intros deltaP _ <-. apply alike_on_ret. reflexivity.
Qed.

Lemma alike_on_getFlowIntoNode (l : list nat) (self : nat) (n : string) :
  In self l -> alike_on l eq (getFlowIntoNode E self n) (getFlowIntoNode E self n).
Proof.
  intros Hl. unfold getFlowIntoNode.
  apply (alike_on_bindM l _ _ _ _ _ _ (alike_on_deref l self Hl)).
  intros p p' [Hp HQ]. destruct (but_flow_fields _ _ Hp) as (-> & _). rewrite HQ.
  destruct (n =? Pipe.startNode p'); apply alike_on_ret; reflexivity.
Qed.

Lemma alike_on_getNetFlowRate (l : list nat) (N : Node.t) :
  incl (Node.pipes N) l -> alike_on l eq (getNetFlowRate E N) (getNetFlowRate E N).
Proof.
  unfold getNetFlowRate. generalize (Node.extFlow N).
  induction (Node.pipes N) as [|p ps IH]; intros Qtot Hl; cbn [getNetFlowRate_for].
  - apply alike_on_ret. reflexivity.
  - apply (alike_on_bindM l eq);
      [apply alike_on_getFlowIntoNode; apply Hl; left; reflexivity|].
    intros q _ <-. apply IH. intros a Ha. apply Hl. right. exact Ha.
Qed.

Lemma alike_on_mapM {X Y : Type} (l : list nat) (f : X -> M E Y) (xs : list X) :
  (forall x, In x xs -> alike_on l eq (f x) (f x)) ->
  alike_on l eq (mapM f xs) (mapM f xs).
Proof.
  induction xs as [|x xs IH]; intros Hf; cbn [mapM].
  - apply alike_on_ret. reflexivity.
  - apply (alike_on_bindM l eq); [apply Hf; left; reflexivity|]. intros y _ <-.
    apply (alike_on_bindM l eq); [|intros ys _ <-; apply alike_on_ret; reflexivity].
    apply IH. intros x' Hx'. apply Hf. right. exact Hx'.
Qed.

(** The loop of [fn] makes the two states hold the same [Q] in the pipes
    it has written. *)
Lemma fn_for_agrees (q : list float) (ps : list nat) :
  forall i l s s',
    agree_on l s s' ->
    match fn_for E ps i q s, fn_for E ps i q s' with
    | Returns (_, t), Returns (_, t') => agree_on (ps ++ l) t t'
    | Raises e, Raises e' => e = e'
    | _, _ => False
    end.
Proof.
  induction ps as [|p ps IH]; intros i l s s' Hs; cbn [fn_for]; [exact Hs|].
  unfold lift, getitem, assign_Q, deref, store, bindM.
  destruct (nth_error q i) as [x|]; [|reflexivity]. cbv beta iota.
  assert (Hs1 : agree_on (p :: l)
                  {| heap := update (heap s) p (Pipe.set_Q (heap s p) x); rng := rng s |}
                  {| heap := update (heap s') p (Pipe.set_Q (heap s' p) x);
                     rng := rng s' |}).
  { destruct Hs as (Hr & Hf & HQ). split; [exact Hr|].
    split; intros a; cbn [heap]; unfold update;
      destruct (Nat.eqb_spec a p) as [->|Hne].
    - apply (but_flow_set _ _ (Hf p)).
    - apply Hf.
    - reflexivity.
    - intros [Heq|Ha]; [congruence|exact (HQ a Ha)]. }
  specialize (IH (S i) (p :: l) _ _ Hs1).
  destruct (fn_for E ps (S i) q _) as [[u t]|e], (fn_for E ps (S i) q _) as [[u' t']|e'];
    try contradiction; [|exact IH].
  apply (agree_on_incl (ps ++ p :: l)); [|exact IH].
  intros a Ha. apply in_app_iff. cbn [app] in Ha.
  destruct Ha as [<-|Ha]; [right; left; reflexivity|].
  apply in_app_iff in Ha. destruct Ha; [left|right; right]; assumption.
Qed.

(** X19.  In [Problem 2.py] the callback [fn] is a function of the trial
    vector and of the generator: run from two states that hold the same
    pipes up to [Q], [vel] and [reynolds], with the same generator state,
    it returns the same residuals or raises the same exception, on every
    network whose nodes and loops hold pipes of [self.pipes] only.  What
    [Q], [vel] and [reynolds] were before the call does not matter. *)
Theorem fn_Problem_2_forgets_the_old_flows (net : PipeNetwork) (q : list float)
  (s s' : state E) :
  (forall n, In n (nodes net) -> incl (Node.pipes n) (pipes net)) ->
  (forall L, In L (loops net) -> incl (Loop.pipes L) (pipes net)) ->
  rng s = rng s' ->
  (forall a, Pipe.set_vel (Pipe.set_reynolds (Pipe.set_Q (heap s a) 0) 0) 0
             = Pipe.set_vel (Pipe.set_reynolds (Pipe.set_Q (heap s' a) 0) 0) 0) ->
  (forall res t, fn E Problem_2_py net q s = Returns (res, t) ->
     exists t', fn E Problem_2_py net q s' = Returns (res, t')) /\
  (forall e, fn E Problem_2_py net q s = Raises e ->
     fn E Problem_2_py net q s' = Raises e).
Proof.
  intros Hnodes Hloops Hr Hf.
  assert (Hs : agree_on [] s s').
  { split; [exact Hr|]. split; [exact Hf|]. intros a []. }
  assert (Halike : match fn E Problem_2_py net q s, fn E Problem_2_py net q s' with
                   | Returns (x, _), Returns (x', _) => x = x'
                   | Raises e, Raises e' => e = e'
                   | _, _ => False
                   end).
  { assert (Hrun : forall s0,
              fn E Problem_2_py net q s0
              = match fn_for E (pipes net) 0 q s0 with
                | Returns (_, t) =>
                    (node_flow_rates <~ getNodeFlowRates E net ;;
                     loop_head_losses <~ getLoopHeadLosses E Problem_2_py net ;;
                     ret (node_flow_rates ++ loop_head_losses)) t
                | Raises e => Raises e
                end) by reflexivity.
    rewrite !Hrun. clear Hrun.
    pose proof (fn_for_agrees q (pipes net) 0 [] s s' Hs) as Hfor.
    destruct (fn_for E (pipes net) 0 q s) as [[u t]|e],
             (fn_for E (pipes net) 0 q s') as [[u' t']|e'];
      try contradiction; [|exact Hfor].
    rewrite app_nil_r in Hfor.
    assert (Hrest : alike_on (pipes net) eq
              (node_flow_rates <~ getNodeFlowRates E net ;;
               loop_head_losses <~ getLoopHeadLosses E Problem_2_py net ;;
               ret (node_flow_rates ++ loop_head_losses))
              (node_flow_rates <~ getNodeFlowRates E net ;;
               loop_head_losses <~ getLoopHeadLosses E Problem_2_py net ;;
               ret (node_flow_rates ++ loop_head_losses))).
    { apply (alike_on_bindM _ eq).
      - apply alike_on_mapM. intros n Hn. apply alike_on_getNetFlowRate. auto.
      - intros nfr _ <-. apply (alike_on_bindM _ eq).
        + apply alike_on_mapM. intros L HL. apply alike_on_getLoopHeadLoss. auto.
        + intros lhl _ <-. apply alike_on_ret. reflexivity. }
    specialize (Hrest t t' Hfor).
    destruct (bindM (getNodeFlowRates E net) _ t) as [[x t1]|e],
             (bindM (getNodeFlowRates E net) _ t') as [[x' t1']|e'];
      try contradiction; [exact (proj1 Hrest)|exact Hrest]. }
  split.
  - intros res t H. rewrite H in Halike.
    destruct (fn E Problem_2_py net q s') as [[x' t']|e']; [|contradiction].
    subst x'. exists t'. reflexivity.
  - intros e H. rewrite H in Halike.
    destruct (fn E Problem_2_py net q s') as [[x' t']|e']; [contradiction|].
    subst e'. reflexivity.
Qed.

End FreshVelocity.

(** ** Pipes: names, lookups and the nodes that [buildNodes] adds *)
Section Nodes.
Import Pipes.

Variable h : nat -> Pipe.t.

Lemma getNodePipes_for_filter (node : string) (ps : list nat) :
  forall l,
    getNodePipes_for h ps node l
    = l ++ filter (fun p => oContainsNode (h p) node) ps.
Proof.
  induction ps as [|p ps IH]; intros l; cbn [getNodePipes_for filter].
  - rewrite app_nil_r. reflexivity.
  - rewrite IH. destruct (oContainsNode (h p) node); [|reflexivity].
    rewrite <- app_assoc. reflexivity.
Qed.

Lemma nodeBuilt_for_true (ns : list Node.t) (node : string) :
  nodeBuilt_for ns node = true <-> exists n, In n ns /\ Node.name n = node.
Proof.
  induction ns as [|n ns IH]; cbn [nodeBuilt_for].
  - split; [discriminate|intros (n & [] & _)].
  - destruct (String.eqb_spec (Node.name n) node) as [Heq|Hne].
    + split; [|reflexivity]. intros _. exists n. split; [left; reflexivity|exact Heq].
    + rewrite IH. split.
      * intros (n' & Hin & Hn'). exists n'. split; [right; exact Hin|exact Hn'].
      * intros (n' & [<-|Hin] & Hn'); [contradiction|]. exists n'. auto.
Qed.

Lemma nodeBuilt_for_app (ns ns' : list Node.t) (node : string) :
  nodeBuilt_for (ns ++ ns') node = nodeBuilt_for ns node || nodeBuilt_for ns' node.
Proof.
  induction ns as [|n ns IH]; [reflexivity|]. cbn [app nodeBuilt_for].
  destruct (Node.name n =? node); [reflexivity|exact IH].
Qed.

Lemma getNode_for_nodeBuilt (ns : list Node.t) (name : string) :
  forall k,
    match getNode_for ns k name with
    | Some j =>
        nodeBuilt_for ns name = true /\
        exists pre n post,
          ns = pre ++ n :: post /\ j = (k + List.length pre)%nat /\
          Node.name n = name /\ nodeBuilt_for pre name = false
    | None => nodeBuilt_for ns name = false
    end.
Proof.
  induction ns as [|n ns IH]; intros k; cbn [getNode_for nodeBuilt_for]; [reflexivity|].
  destruct (String.eqb_spec (Node.name n) name) as [Heq|Hne].
  - split; [reflexivity|]. exists [], n, ns. cbn [app List.length nodeBuilt_for].
    repeat split; [lia|exact Heq].
  - specialize (IH (S k)). destruct (getNode_for ns (S k) name) as [j|]; [|exact IH].
    destruct IH as (Hb & pre & n' & post & -> & -> & Hn' & Hpre).
    split; [exact Hb|]. exists (n :: pre), n', post. cbn [app List.length nodeBuilt_for].
    destruct (String.eqb_spec (Node.name n) name); [contradiction|].
    repeat split; [lia|exact Hn'|exact Hpre].
Qed.

(** What one step of [buildNodes] does to each attribute. *)
Lemma buildNodes_end_attributes (self : PipeNetwork) (node : string) :
  let self' := buildNodes_end h self node in
  pipes self' = pipes self /\ loops self' = loops self /\ Fluid_ self' = Fluid_ self /\
  nodes self' = nodes self
                ++ (if nodeBuilt self node then []
                    else [Node__init__ node (getNodePipes h self node) 0]) /\
  nodeBuilt self' node = true.
Proof.
  unfold buildNodes_end, nodeBuilt.
  destruct (nodeBuilt_for (nodes self) node) eqn:Hb; cbn [negb pipes loops Fluid_ nodes set_nodes].
  - rewrite app_nil_r, Hb. repeat split.
  - rewrite nodeBuilt_for_app. cbn [nodeBuilt_for Node__init__ Node.name].
    rewrite String.eqb_refl, orb_true_r. repeat split.
Qed.

(** The nodes that the loop of [buildNodes] adds, for a network whose
    [pipes] are [all]. *)
Lemma buildNodes_for_adds (all : list nat) (ps : list nat) :
  forall self,
    pipes self = all ->
    let self' := buildNodes_for h ps self in
    pipes self' = all /\ loops self' = loops self /\ Fluid_ self' = Fluid_ self /\
    exists added,
      nodes self' = nodes self ++ added /\
      (forall node, nodeBuilt self' node = true <->
         nodeBuilt self node = true \/
         exists p, In p ps /\ (node = Pipe.startNode (h p) \/ node = Pipe.endNode (h p))) /\
      (NoDup (map Node.name (nodes self)) -> NoDup (map Node.name (nodes self'))) /\
      (forall n, In n added ->
         Node.extFlow n = 0%float /\
         Node.pipes n = filter (fun p => oContainsNode (h p) (Node.name n)) all /\
         exists p, In p ps /\
                   (Node.name n = Pipe.startNode (h p) \/ Node.name n = Pipe.endNode (h p))).
Proof.
  induction ps as [|p ps IH]; intros self Hall; cbn [buildNodes_for].
  - cbv zeta. repeat split; auto. exists []. rewrite app_nil_r.
    split; [reflexivity|]. split; [|split; [auto|intros n []]].
    intros node. split; [auto|]. intros [H|(p & [] & _)]. exact H.
  - cbv zeta.
    set (s1 := buildNodes_end h self (Pipe.startNode (h p))).
    set (s2 := buildNodes_end h s1 (Pipe.endNode (h p))).
    destruct (buildNodes_end_attributes self (Pipe.startNode (h p)))
      as (Hp1 & Hl1 & Hf1 & Hn1 & Hb1). fold s1 in Hp1, Hl1, Hf1, Hn1, Hb1.
    destruct (buildNodes_end_attributes s1 (Pipe.endNode (h p)))
      as (Hp2 & Hl2 & Hf2 & Hn2 & Hb2). fold s2 in Hp2, Hl2, Hf2, Hn2, Hb2.
    assert (Hall2 : pipes s2 = all) by congruence.
    destruct (IH s2 Hall2) as (Hp3 & Hl3 & Hf3 & added & Hn3 & Hb3 & Hnd3 & Hadd3).
    split; [exact Hp3|]. split; [congruence|]. split; [congruence|].
    set (a1 := if nodeBuilt self (Pipe.startNode (h p)) then []
               else [Node__init__ (Pipe.startNode (h p))
                       (getNodePipes h self (Pipe.startNode (h p))) 0]) in *.
    set (a2 := if nodeBuilt s1 (Pipe.endNode (h p)) then []
               else [Node__init__ (Pipe.endNode (h p))
                       (getNodePipes h s1 (Pipe.endNode (h p))) 0]) in *.
    exists (a1 ++ a2 ++ added).
    assert (Hbuilt1 : forall node, nodeBuilt s1 node = true <->
              nodeBuilt self node = true \/ node = Pipe.startNode (h p)).
    { intros node. unfold nodeBuilt. rewrite Hn1, nodeBuilt_for_app, orb_true_iff.
      subst a1. fold (nodeBuilt self (Pipe.startNode (h p))).
      fold (nodeBuilt self node).
      destruct (nodeBuilt self (Pipe.startNode (h p))) eqn:Hs; cbn [nodeBuilt_for].
      - split; [intros [H|H]; [left; exact H|discriminate H]|].
        intros [H| ->]; [left; exact H|left; exact Hs].
      - cbn [Node__init__ Node.name].
        destruct (String.eqb_spec (Pipe.startNode (h p)) node) as [<-|Hne].
        + split; auto.
        + split; [intros [H|H]; [left; exact H|discriminate H]|].
          intros [H| ->]; [left; exact H|contradiction]. }
    assert (Hbuilt2 : forall node, nodeBuilt s2 node = true <->
              nodeBuilt s1 node = true \/ node = Pipe.endNode (h p)).
    { intros node. unfold nodeBuilt. rewrite Hn2, nodeBuilt_for_app, orb_true_iff.
      subst a2. fold (nodeBuilt s1 (Pipe.endNode (h p))).
      fold (nodeBuilt s1 node).
      destruct (nodeBuilt s1 (Pipe.endNode (h p))) eqn:Hs; cbn [nodeBuilt_for].
      - split; [intros [H|H]; [left; exact H|discriminate H]|].
        intros [H| ->]; [left; exact H|left; exact Hs].
      - cbn [Node__init__ Node.name].
        destruct (String.eqb_spec (Pipe.endNode (h p)) node) as [<-|Hne].
        + split; auto.
        + split; [intros [H|H]; [left; exact H|discriminate H]|].
          intros [H| ->]; [left; exact H|contradiction]. }
    split; [rewrite Hn3, Hn2, Hn1, <- !app_assoc; reflexivity|].
    split; [|split].
    + intros node. rewrite Hb3, Hbuilt2, Hbuilt1. split.
      * intros [[[H| ->]| ->]|(p' & Hin & Hp')]; auto.
        -- right. exists p. split; [left; reflexivity|left; reflexivity].
        -- right. exists p. split; [left; reflexivity|right; reflexivity].
        -- right. exists p'. split; [right; exact Hin|exact Hp'].
      * intros [H|(p' & [<-|Hin] & Hp')]; auto.
        -- destruct Hp' as [-> | ->]; auto.
        -- right. exists p'. auto.
    + intros Hnd. apply Hnd3. rewrite Hn2, map_app.
      assert (Hnd1 : NoDup (map Node.name (nodes s1))).
      { rewrite Hn1, map_app. subst a1.
        destruct (nodeBuilt self (Pipe.startNode (h p))) eqn:Hs;
          [cbn [map]; rewrite app_nil_r; exact Hnd|].
        cbn [map Node__init__ Node.name]. apply NoDup_app; [exact Hnd|repeat constructor; intros []|].
        intros x Hx [<-|[]]. apply in_map_iff in Hx. destruct Hx as (n & Hn & Hin).
        assert (nodeBuilt self (Node.name n) = true)
          by (apply nodeBuilt_for_true; exists n; auto).
        congruence. }
      subst a2.
      destruct (nodeBuilt s1 (Pipe.endNode (h p))) eqn:Hs;
        [cbn [map]; rewrite app_nil_r; exact Hnd1|].
      cbn [map Node__init__ Node.name]. apply NoDup_app; [exact Hnd1|repeat constructor; intros []|].
      intros x Hx [<-|[]]. apply in_map_iff in Hx. destruct Hx as (n & Hn & Hin).
      assert (nodeBuilt s1 (Node.name n) = true)
        by (apply nodeBuilt_for_true; exists n; auto).
      congruence.
    + intros n Hin. apply in_app_iff in Hin. destruct Hin as [Hin|Hin].
      { subst a1. destruct (nodeBuilt self (Pipe.startNode (h p))); [destruct Hin|].
        destruct Hin as [<-|[]]. cbn [Node__init__ Node.extFlow Node.pipes Node.name].
        split; [reflexivity|]. split.
        - unfold getNodePipes. rewrite getNodePipes_for_filter, Hall. reflexivity.
        - exists p. split; [left; reflexivity|left; reflexivity]. }
      apply in_app_iff in Hin. destruct Hin as [Hin|Hin].
      { subst a2. destruct (nodeBuilt s1 (Pipe.endNode (h p))); [destruct Hin|].
        destruct Hin as [<-|[]]. cbn [Node__init__ Node.extFlow Node.pipes Node.name].
        split; [reflexivity|]. split.
        - unfold getNodePipes. rewrite getNodePipes_for_filter, Hp1, Hall. reflexivity.
        - exists p. split; [left; reflexivity|right; reflexivity]. }
      destruct (Hadd3 n Hin) as (He & Hps & p' & Hp' & Hname).
      split; [exact He|]. split; [exact Hps|]. exists p'. split; [right; exact Hp'|exact Hname].
Qed.

Lemma buildNodes_builds_every_end_aux (net : PipeNetwork) :
  (pipes (buildNodes h net) = pipes net /\
   loops (buildNodes h net) = loops net /\
   Fluid_ (buildNodes h net) = Fluid_ net) /\
  (forall node,
     nodeBuilt (buildNodes h net) node = true <->
     nodeBuilt net node = true \/
     exists p, In p (pipes net) /\
               (node = Pipe.startNode (h p) \/ node = Pipe.endNode (h p))).
Proof.
  destruct (buildNodes_for_adds (pipes net) (pipes net) net eq_refl)
    as (Hp & Hl & Hf & added & _ & Hb & _).
  split; [auto|exact Hb].
Qed.

(** X20.  [buildNodes] builds a node for every end of every pipe.  It
    keeps the pipes, the loops and the fluid, keeps the nodes that were
    there in their places, and appends the new ones; afterwards
    [nodeBuilt] holds for a name exactly when it held before or some pipe
    starts or ends there. *)
Theorem buildNodes_builds_every_end (net : PipeNetwork) :
  pipes (buildNodes h net) = pipes net /\
  loops (buildNodes h net) = loops net /\
  Fluid_ (buildNodes h net) = Fluid_ net /\
  (exists added, nodes (buildNodes h net) = nodes net ++ added) /\
  (forall node,
     nodeBuilt (buildNodes h net) node = true <->
     nodeBuilt net node = true \/
     exists p, In p (pipes net) /\
               (node = Pipe.startNode (h p) \/ node = Pipe.endNode (h p))).
Proof.
  destruct (buildNodes_for_adds (pipes net) (pipes net) net eq_refl)
    as (Hp & Hl & Hf & added & Hn & Hb & _).
  unfold buildNodes. repeat split; try assumption; try (apply Hb).
  exists added. exact Hn.
Qed.

(** X21.  [buildNodes] gives no name to two nodes: when the names of the
    nodes are distinct before the call, they are distinct after it, also
    when several pipes meet at a node and when a pipe starts and ends at
    the same node. *)
Theorem buildNodes_names_each_node_once (net : PipeNetwork) :
  NoDup (map Node.name (nodes net)) ->
  NoDup (map Node.name (nodes (buildNodes h net))).
Proof.
  destruct (buildNodes_for_adds (pipes net) (pipes net) net eq_refl)
    as (_ & _ & _ & added & _ & _ & Hnd & _).
  exact Hnd.
Qed.

(** X22.  A node that [buildNodes] adds has no external flow, bears the
    name of an end of some pipe, and holds the pipes of the network that
    start or end at its name, each once for each time it is listed in
    [self.pipes] and in that order: the pipes for which [oContainsNode]
    is true, and no other. *)
Theorem buildNodes_gives_each_node_its_pipes (net : PipeNetwork) (n : Node.t) :
  In n (skipn (List.length (nodes net)) (nodes (buildNodes h net))) ->
  Node.extFlow n = 0%float /\
  Node.pipes n = filter (fun p => oContainsNode (h p) (Node.name n)) (pipes net) /\
  (forall p, In p (Node.pipes n) <->
             In p (pipes net) /\
             (Pipe.startNode (h p) = Node.name n \/ Pipe.endNode (h p) = Node.name n)) /\
  exists p, In p (pipes net) /\
            (Node.name n = Pipe.startNode (h p) \/ Node.name n = Pipe.endNode (h p)).
Proof.
  destruct (buildNodes_for_adds (pipes net) (pipes net) net eq_refl)
    as (_ & _ & _ & added & Hn & _ & _ & Hadd).
  unfold buildNodes. rewrite Hn, skipn_app, skipn_all, Nat.sub_diag. cbn [app skipn].
  intros Hin. destruct (Hadd n Hin) as (He & Hps & Hex).
  split; [exact He|]. split; [exact Hps|]. split; [|exact Hex].
  intros p. rewrite Hps, filter_In. unfold oContainsNode. rewrite orb_true_iff.
  rewrite !String.eqb_eq. reflexivity.
Qed.

Lemma buildNodes_for_built (ps : list nat) (self : PipeNetwork) :
  (forall p, In p ps ->
     nodeBuilt self (Pipe.startNode (h p)) = true /\
     nodeBuilt self (Pipe.endNode (h p)) = true) ->
  buildNodes_for h ps self = self.
Proof.
  induction ps as [|p ps IH]; intros Hb; [reflexivity|].
  cbn [buildNodes_for]. destruct (Hb p (or_introl eq_refl)) as [Hs He].
  unfold buildNodes_end at 2. rewrite Hs. cbn [negb].
  unfold buildNodes_end at 1. rewrite He. cbn [negb].
  apply IH. intros p' Hp'. apply Hb. right. exact Hp'.
Qed.

(** X23.  A second call of [buildNodes] changes nothing: every end is
    built by the first call, so that the second finds [nodeBuilt] true at
    each test and appends no node. *)
Theorem buildNodes_twice (net : PipeNetwork) :
  buildNodes h (buildNodes h net) = buildNodes h net.
Proof.
  destruct (buildNodes_builds_every_end_aux net) as ((Hp & _) & Hb).
  unfold buildNodes at 1. rewrite Hp. apply buildNodes_for_built.
  intros p Hin. split; apply Hb; right; exists p; auto.
Qed.

(** X24.  After [buildNodes], [getNode] finds a node under the name of
    each end of each pipe, the first node of that name, and the
    assignment [self.getNode(name).extFlow = v] that [main] makes returns
    with the flow written to that node and to nothing else. *)
Theorem getNode_finds_every_end (net : PipeNetwork) (p : nat) (node : string) (v : float) :
  In p (pipes net) ->
  node = Pipe.startNode (h p) \/ node = Pipe.endNode (h p) ->
  exists pre n post,
    nodes (buildNodes h net) = pre ++ n :: post /\
    (forall n', In n' pre -> Node.name n' <> node) /\
    Node.name n = node /\
    getNode (buildNodes h net) node = Some (List.length pre) /\
    set_extFlow_by_name (buildNodes h net) node v
    = Returns {| loops := loops net;
                 nodes := pre ++ {| Node.name := Node.name n; Node.pipes := Node.pipes n;
                                    Node.extFlow := v |} :: post;
                 Fluid_ := Fluid_ net;
                 pipes := pipes net |}.
Proof.
  intros Hin Hnode.
  destruct (buildNodes_builds_every_end_aux net) as ((Hp & Hl & Hf) & Hb).
  assert (Hbuilt : nodeBuilt (buildNodes h net) node = true).
  { apply Hb. right. exists p. auto. }
  pose proof (getNode_for_nodeBuilt (nodes (buildNodes h net)) node 0) as Hget.
  unfold set_extFlow_by_name, getNode.
  destruct (getNode_for (nodes (buildNodes h net)) 0 node) as [j|];
    [|unfold nodeBuilt in Hbuilt; congruence].
  destruct Hget as (_ & pre & n & post & Hn & -> & Hname & Hpre).
  exists pre, n, post. split; [exact Hn|]. split.
  { intros n' Hn' Heq.
    assert (nodeBuilt_for pre node = true) by (apply nodeBuilt_for_true; exists n'; auto).
    congruence. }
  split; [exact Hname|]. split; [reflexivity|].
  cbn [Nat.add]. rewrite Hn. unfold getitem. rewrite nth_error_app2 by lia.
  rewrite Nat.sub_diag. cbn [nth_error Py.bind]. rewrite setitem_middle.
  unfold set_nodes, set_extFlow. rewrite Hp, Hl, Hf. reflexivity.
Qed.

Lemma getPipe_for_first (ps : list nat) (name : string) :
  match getPipe_for h ps name with
  | Some p =>
      exists pre post,
        ps = pre ++ p :: post /\ Name (h p) = name /\
        forall p', In p' pre -> Name (h p') <> name
  | None => forall p, In p ps -> Name (h p) <> name
  end.
Proof.
  induction ps as [|p ps IH]; cbn [getPipe_for]; [intros p []|].
  destruct (String.eqb_spec name (Name (h p))) as [Heq|Hne].
  - exists [], ps. split; [reflexivity|]. split; [congruence|intros p' []].
  - destruct (getPipe_for h ps name) as [p0|].
    + destruct IH as (pre & post & -> & Hp0 & Hpre). exists (p :: pre), post.
      split; [reflexivity|]. split; [exact Hp0|].
      intros p' [<-|Hp']; [congruence|exact (Hpre p' Hp')].
    + intros p' [<-|Hp']; [congruence|exact (IH p' Hp')].
Qed.

(** X25.  The two lookups by name return the first object that bears the
    name and [None] when there is none: [getPipe] the first pipe of
    [self.pipes] whose [Name()] is the name, [getNode] the first node of
    [self.nodes], which is there exactly when [nodeBuilt] says so. *)
Theorem lookups_return_the_first_match (net : PipeNetwork) (name : string) :
  (getPipe h net name = None <-> forall p, In p (pipes net) -> Name (h p) <> name) /\
  (forall p, getPipe h net name = Some p ->
     exists pre post,
       pipes net = pre ++ p :: post /\ Name (h p) = name /\
       forall p', In p' pre -> Name (h p') <> name) /\
  (getNode net name = None <-> nodeBuilt net name = false) /\
  (nodeBuilt net name = false <-> forall n, In n (nodes net) -> Node.name n <> name) /\
  (forall k, getNode net name = Some k ->
     exists pre n post,
       nodes net = pre ++ n :: post /\ k = List.length pre /\ Node.name n = name /\
       forall n', In n' pre -> Node.name n' <> name).
Proof.
  pose proof (getPipe_for_first (pipes net) name) as HP.
  pose proof (getNode_for_nodeBuilt (nodes net) name 0) as HN.
  unfold getPipe, getNode, nodeBuilt.
  assert (Hfalse : forall ns, nodeBuilt_for ns name = false <->
                              forall n, In n ns -> Node.name n <> name).
  { intros ns. split.
    - intros Hb n Hn Heq.
      assert (nodeBuilt_for ns name = true) by (apply nodeBuilt_for_true; exists n; auto).
      congruence.
    - intros Hall. destruct (nodeBuilt_for ns name) eqn:Hb; [|reflexivity].
      apply nodeBuilt_for_true in Hb. destruct Hb as (n & Hn & Heq).
      exfalso. exact (Hall n Hn Heq). }
  repeat match goal with |- _ /\ _ => split end.
  - destruct (getPipe_for h (pipes net) name) as [p|].
    + split; [discriminate|]. intros Hall.
      destruct HP as (pre & post & Hps & Hp & _). exfalso.
      apply (Hall p); [rewrite Hps; apply in_elt|exact Hp].
    + split; [intros _; exact HP|reflexivity].
  - intros p Hp. rewrite Hp in HP. exact HP.
  - destruct (getNode_for (nodes net) 0 name) as [k|].
    + destruct HN as [Hb _]. split; [discriminate|congruence].
    + split; [intros _; exact HN|reflexivity].
  - apply Hfalse.
  - intros k Hk. rewrite Hk in HN.
    destruct HN as (_ & pre & n & post & Hns & -> & Hn & Hpre).
    exists pre, n, post. split; [exact Hns|]. split; [reflexivity|]. split; [exact Hn|].
    apply Hfalse. exact Hpre.
Qed.

End Nodes.

Section PipeNames.
Import Pipes.

Lemma contains_hyphen_cons (c : ascii) (s : string) :
  contains "-" (String c s) = false -> c <> "-"%char /\ contains "-" s = false.
Proof.
  cbn [contains prefix]. destruct (ascii_dec "-" c) as [<-|Hne].
  - destruct s; discriminate.
  - intros H. split; [congruence|exact H].
Qed.

Lemma append_hyphen_injective (s1 : string) :
  forall s2 e1 e2,
    contains "-" s1 = false -> contains "-" s2 = false ->
    (s1 ++ "-" ++ e1 = s2 ++ "-" ++ e2)%string ->
    s1 = s2 /\ e1 = e2.
Proof.
  induction s1 as [|c s1 IH]; intros [|c' s2] e1 e2 H1 H2 H; cbn [append] in H.
  - injection H as ->. split; reflexivity.
  - injection H as <- _. apply contains_hyphen_cons in H2. destruct H2 as [H2 _].
    exfalso. apply H2. reflexivity.
  - injection H as -> _. apply contains_hyphen_cons in H1. destruct H1 as [H1 _].
    exfalso. apply H1. reflexivity.
  - injection H as <- H.
    apply contains_hyphen_cons in H1. apply contains_hyphen_cons in H2.
    destruct (IH s2 e1 e2 (proj2 H1) (proj2 H2) H) as [-> ->]. split; reflexivity.
Qed.

(** X26.  The name of a pipe tells its end nodes, as long as start nodes
    are named without a hyphen: two pipes with the same [Name()] then
    have the same [startNode] and the same [endNode], so that [getPipe]
    cannot return a pipe between other nodes than the ones asked for. *)
Theorem Name_tells_the_end_nodes (p p' : Pipe.t) :
  contains "-" (Pipe.startNode p) = false ->
  contains "-" (Pipe.startNode p') = false ->
  Name p = Name p' ->
  Pipe.startNode p = Pipe.startNode p' /\ Pipe.endNode p = Pipe.endNode p'.
Proof. unfold Name. apply append_hyphen_injective. Qed.

End PipeNames.

(** ** The constructor of [Pipe] *)
Section Constructor.
Import Pipes.

Variable E : Env.
Variable src : source_file.

Lemma store_writes (self : nat) (p : Pipe.t) (s s' : state E) (u : unit) :
  store E self p s = Returns (u, s') ->
  heap s' self = p /\ (forall a, a <> self -> heap s' a = heap s a) /\ rng s' = rng s.
Proof.
  intros H. injection H as _ <-. cbn [heap rng]. unfold update.
  rewrite Nat.eqb_refl. repeat split.
  intros a Ha. destruct (Nat.eqb_spec a self); [contradiction|reflexivity].
Qed.

Lemma V_writes (self : nat) (s s' : state E) (v : float) :
  V E self s = Returns (v, s') ->
  v = (Pipe.Q (heap s self) / Pipe.A (heap s self))%float /\
  heap s' self = Pipe.set_vel (heap s self) v /\
  (forall a, a <> self -> heap s' a = heap s a) /\ rng s' = rng s.
Proof.
  rewrite V_computes. unfold truediv.
  destruct (Pipe.A (heap s self) =? 0)%float; [discriminate|].
  intros H. injection H as <- <-. cbn [heap rng]. unfold update.
  rewrite Nat.eqb_refl. repeat split.
  intros a Ha. destruct (Nat.eqb_spec a self); [contradiction|reflexivity].
Qed.

Lemma assign_writes (self : nat) (f : Pipe.t -> Pipe.t) (s s' : state E) (u : unit) :
  (p <~ deref E self ;; store E self (f p)) s = Returns (u, s') ->
  heap s' self = f (heap s self) /\
  (forall a, a <> self -> heap s' a = heap s a) /\ rng s' = rng s.
Proof. unfold bindM, deref. apply store_writes. Qed.

Lemma Re_writes (self : nat) (s s' : state E) (x : float) :
  Re E src self s = Returns (x, s') ->
  let v := match src with
           | Problem_2_py => (Pipe.Q (heap s self) / Pipe.A (heap s self))%float
           | HW6_2_OOP_py => Pipe.vel (heap s self)
           end in
  x = (Fluid.rho (Pipe.fluid (heap s self)) * v * Pipe.d (heap s self)
       / Fluid.mu (Pipe.fluid (heap s self)))%float /\
  heap s' self = Pipe.set_reynolds
                   (match src with
                    | Problem_2_py => Pipe.set_vel (heap s self) v
                    | HW6_2_OOP_py => heap s self
                    end) x /\
  (forall a, a <> self -> heap s' a = heap s a) /\ rng s' = rng s.
Proof.
  unfold Re. intros H. unfold bindM at 1, deref in H. bindM_inv1 H.
  unfold bindM at 1, lift, truediv in H.
  destruct (Fluid.mu (Pipe.fluid (heap s self)) =? 0)%float; [discriminate H|].
  bindM_inv1 H.
  destruct (assign_writes self (fun p => Pipe.set_reynolds p _) _ _ _ E1)
    as (Hself & Hout & Hrng).
  unfold bindM, deref, ret in H. injection H as <- <-.
  rewrite Hself. cbn [Pipe.reynolds Pipe.set_reynolds].
  destruct src.
  - destruct (V_writes _ _ _ _ E0) as (-> & Hself0 & Hout0 & Hrng0). cbv zeta.
    rewrite Hself0. repeat split; [|congruence].
    intros a Ha. rewrite (Hout a Ha). exact (Hout0 a Ha).
  - injection E0 as <- <-. cbv zeta. repeat split; assumption.
Qed.

(** X27.  What [Pipe(Start, End, L, D, r, fluid)] builds.  A diameter [D]
    with [D / 1000.0 == 0] raises [ZeroDivisionError].  When the
    constructor returns, the new pipe holds the arguments, the diameter
    in metres, the relative roughness [r / d], the area [pi / 4 * d ** 2],
    the flow 10, and a velocity and a Reynolds number that fit that flow:
    [vel = Q / A] and [reynolds = rho * vel * d / mu].  No other pipe is
    written and no random number is drawn. *)
Theorem Pipe__init__builds (self : nat) (Start End_ : string) (L D r : float)
  (fluid : Fluid.t) (s : state E) :
  ((D / 1000 =? 0)%float = true ->
   Pipe__init__ E src self Start End_ L D r fluid s = Raises ZeroDivisionError) /\
  (forall u s',
     Pipe__init__ E src self Start End_ L D r fluid s = Returns (u, s') ->
     exists d2,
       pow2 E (D / 1000)%float = Returns d2 /\
       heap s' self
       = {| Pipe.startNode := min Start End_; Pipe.endNode := max Start End_;
            Pipe.length := L; Pipe.r := r; Pipe.fluid := fluid;
            Pipe.d := (D / 1000)%float;
            Pipe.relrough := (r / (D / 1000))%float;
            Pipe.A := (pi / 4 * d2)%float;
            Pipe.Q := 10%float;
            Pipe.vel := (10 / (pi / 4 * d2))%float;
            Pipe.reynolds := (Fluid.rho fluid * (10 / (pi / 4 * d2)) * (D / 1000)
                              / Fluid.mu fluid)%float |} /\
       (forall a, a <> self -> heap s' a = heap s a) /\
       rng s' = rng s).
Proof.
  split.
  - intros HD. unfold Pipe__init__. cbv zeta. unfold bindM at 1, lift, truediv.
    rewrite HD. reflexivity.
  - intros u s' H. unfold Pipe__init__ in H. cbv zeta in H.
    unfold bindM at 1, lift, truediv in H.
    destruct (D / 1000 =? 0)%float; [discriminate H|].
    unfold bindM at 1 in H.
    destruct (pow2 E (D / 1000)) as [d2|]; [|discriminate H].
    do 4 bindM_inv1 H. exists d2. split; [reflexivity|].
    destruct (store_writes _ _ _ _ _ E0) as (H0 & O0 & R0).
    destruct (V_writes _ _ _ _ E1) as (Hv & H1 & O1 & R1).
    destruct (assign_writes self (fun p => Pipe.set_vel p _) _ _ _ E2) as (H2 & O2 & R2).
    destruct (Re_writes _ _ _ _ E3) as (Hx & H3 & O3 & R3).
    destruct (assign_writes self (fun p => Pipe.set_reynolds p _) _ _ _ H) as (H4 & O4 & R4).
    split; [|split; [|congruence]].
    + rewrite H4, H3. rewrite Hx. rewrite H2, H1, H0 in *. subst x0.
      cbn [Pipe.Q Pipe.A Pipe.vel Pipe.set_vel Pipe.fluid Pipe.d].
      destruct src; reflexivity.
    + intros a Ha. rewrite (O4 a Ha), (O3 a Ha), (O2 a Ha), (O1 a Ha). exact (O0 a Ha).
Qed.

End Constructor.

(** ** The residual of [HW6_1_2_OOP.py] *)
Section LastEntry.
Import Problem_1.

(** X28.  The residual vector of [HW6_1_2_OOP.py] ends with a zero that
    no current changes: it is the loop voltage drops, then the current
    into node [c], [i[0] + i[1] - i[2] - i[3]], then the entry of
    [np.zeros(len(KVL) + 1)] that the copy of [KVL] does not reach.  This
    holds for whatever the inherited lookups do. *)
Theorem GetKirchoffVals_HW6_1_2_OOP_ends_with_zero
  (set_Current_by_name : ResistorNetwork -> string -> float -> pyresult ResistorNetwork)
  (GetLoopVoltageDrops : ResistorNetwork -> pyresult (list float))
  (self self' : ResistorNetwork) (i res : list float) :
  HW6_1_2_OOP.GetKirchoffVals set_Current_by_name GetLoopVoltageDrops self i
  = Returns (res, self') ->
  exists KVL i0 i1 i2 i3,
    nth_error i 0 = Some i0 /\ nth_error i 1 = Some i1 /\
    nth_error i 2 = Some i2 /\ nth_error i 3 = Some i3 /\
    GetLoopVoltageDrops self' = Returns KVL /\
    res = KVL ++ [(0 + i0 + i1 + - i2 + - i3)%float; 0%float] /\
    last res 1%float = 0%float.
Proof.
  unfold HW6_1_2_OOP.GetKirchoffVals. intros H. bind_inv H. injection H as <- <-.
  unfold getitem in *.
  repeat match goal with
         | Hn : match nth_error ?l ?n with _ => _ end = Returns _ |- _ =>
             destruct (nth_error l n) eqn:?; [injection Hn as ->|discriminate Hn]
         end.
  do 5 eexists. repeat (split; [eassumption || reflexivity|]).
  split; [rewrite <- app_assoc; reflexivity|].
  rewrite <- app_assoc. rewrite last_last || (rewrite app_assoc, last_last). reflexivity.
Qed.

End LastEntry.

(** The bench circuit at the currents 1, 2, 3, 4. *)
Lemma GetKirchoffVals_HW6_1_2_OOP_ends_with_zero_witness :
  exists res self' KVL i0 i1 i2 i3,
    HW6_1_2_OOP.GetKirchoffVals
      Problem_1.set_Current_by_name Problem_1.GetLoopVoltageDrops
      Bench.circuit [1; 2; 3; 4]%float = Returns (res, self') /\
    nth_error [1; 2; 3; 4]%float 0 = Some i0 /\ nth_error [1; 2; 3; 4]%float 1 = Some i1 /\
    nth_error [1; 2; 3; 4]%float 2 = Some i2 /\ nth_error [1; 2; 3; 4]%float 3 = Some i3 /\
    Problem_1.GetLoopVoltageDrops self' = Returns KVL /\
    res = KVL ++ [(0 + i0 + i1 + - i2 + - i3)%float; 0%float] /\
    last res 1%float = 0%float.
Proof.
  destruct (HW6_1_2_OOP.GetKirchoffVals
              Problem_1.set_Current_by_name Problem_1.GetLoopVoltageDrops
              Bench.circuit [1; 2; 3; 4]%float) as [[res self']|e] eqn:H;
    [|vm_compute in H; discriminate H].
  exists res, self'.
  destruct (GetKirchoffVals_HW6_1_2_OOP_ends_with_zero _ _ _ _ _ _ H)
    as (KVL & i0 & i1 & i2 & i3 & P).
  exists KVL, i0, i1, i2, i3. split; [reflexivity|exact P].
Defined.

(** ** A block that no line closes *)
Section Unclosed.
Import Problem_1.

Variable float_of_str : string -> pyresult float.

(** X29.  A source block or a loop block that no later line closes makes
    [BuildNetworkFromFile] raise, whatever was read before: when the loop
    stands on a line that opens such a block and no line after it holds
    the word [source] (for a source block) or [loop] (for a loop block),
    the run ends in an exception. *)
Theorem unclosed_block_never_returns (fuel : nat) (self : ResistorNetwork)
  (LineNum : nat) (FileTxt : list string) (line : string) :
  (List.length FileTxt - LineNum <= fuel)%nat ->
  nth_error FileTxt LineNum = Some line ->
  (String.length (strip (lower line)) <? 1)%nat = false ->
  match String.get 0 (strip (lower line)) with
  | Some c => Ascii.eqb c "#"%char
  | None => false
  end = false ->
  contains "resistor" (strip (lower line)) = false ->
  (contains "source" (strip (lower line)) = true /\
   Forall (fun l => contains "source" (lower l) = false) (skipn (LineNum + 1) FileTxt)) \/
  (contains "source" (strip (lower line)) = false /\
   contains "loop" (strip (lower line)) = true /\
   Forall (fun l => contains "loop" (lower l) = false) (skipn (LineNum + 1) FileTxt)) ->
  exists e, BuildNetwork_while float_of_str fuel self LineNum FileTxt = Some (Raises e).
Proof.
  intros Hfuel Hline Hlen Hhash Hres Hblock.
  destruct (BuildNetwork_while float_of_str fuel self LineNum FileTxt) as [[net|e]|] eqn:H.
  - exfalso. revert H. destruct Hblock as [[Hsrc Hrest]|(Hsrc & Hloop & Hrest)].
    + exact (BuildNetwork_while_unclosed_source float_of_str fuel self LineNum FileTxt
               line Hline Hlen Hhash Hres Hsrc Hrest net).
    + exact (BuildNetwork_while_unclosed_loop float_of_str fuel self LineNum FileTxt
               line Hline Hlen Hhash Hres Hsrc Hloop Hrest net).
  - exists e. reflexivity.
  - exfalso. exact (BuildNetwork_while_finishes float_of_str FileTxt fuel self LineNum
                      Hfuel H).
Qed.

End Unclosed.

(** A loop block of two field lines and no closing line. *)
Lemma unclosed_block_never_returns_witness :
  exists e,
    Problem_1.BuildNetwork_while Bench.no_number 3 Problem_1.__init__ 0
      ["<Loop>"; "Name = L1"; "Nodes = a, b"] = Some (Raises e).
Proof.
  apply (unclosed_block_never_returns Bench.no_number 3 Problem_1.__init__ 0
           ["<Loop>"; "Name = L1"; "Nodes = a, b"] "<Loop>");
    try (vm_compute; reflexivity).
  right. split; [vm_compute; reflexivity|]. split; [vm_compute; reflexivity|].
  repeat constructor.
Defined.

(** ** The theorems on pipes, on the bench *)
Section OnTheBench.
Import Pipes.

(** The one-pipe network with its loop, at the trial flow 3. *)
Lemma fn_leaves_the_trial_flows_witness :
  exists res s',
    fn Bench.env Problem_2_py Bench.one_loop [3]%float (Bench.built Problem_2_py)
    = Returns (res, s') /\
    (forall i p, nth_error (pipes Bench.one_loop) i = Some p ->
       exists x, nth_error [3]%float i = Some x /\ Pipe.Q (heap s' p) = x) /\
    (forall a, ~ In a (pipes Bench.one_loop) ->
       Pipe.Q (heap s' a) = Pipe.Q (heap (Bench.built Problem_2_py) a)).
Proof.
  destruct (fn Bench.env Problem_2_py Bench.one_loop [3]%float (Bench.built Problem_2_py))
    as [[res s']|e] eqn:H; [|vm_compute in H; discriminate H].
  exists res, s'. split; [reflexivity|].
  apply (fn_leaves_the_trial_flows Bench.env Problem_2_py Bench.one_loop [3]%float
           (Bench.built Problem_2_py) s' res H).
  repeat constructor. intros [].
Defined.

(** No flow for the one pipe. *)
Lemma fn_raises_IndexError_on_a_short_vector_witness :
  fn Bench.env HW6_2_OOP_py Bench.one_pipe [] (Bench.built HW6_2_OOP_py)
  = Raises IndexError.
Proof.
  apply (fn_raises_IndexError_on_a_short_vector Bench.env HW6_2_OOP_py Bench.one_pipe []
           (Bench.built HW6_2_OOP_py)).
  cbn. lia.
Defined.

Lemma fn_returns_only_with_pipes_in_every_loop_witness :
  exists res s',
    fn Bench.env HW6_2_OOP_py Bench.one_loop [3]%float (Bench.built HW6_2_OOP_py)
    = Returns (res, s') /\
    (forall L s0, Loop.pipes L = [] ->
                  getLoopHeadLoss Bench.env HW6_2_OOP_py L s0 = Raises IndexError) /\
    Forall (fun L => Loop.pipes L <> []) (loops Bench.one_loop).
Proof.
  destruct (fn Bench.env HW6_2_OOP_py Bench.one_loop [3]%float (Bench.built HW6_2_OOP_py))
    as [[res s']|e] eqn:H; [|vm_compute in H; discriminate H].
  exists res, s'. split; [reflexivity|].
  exact (fn_returns_only_with_pipes_in_every_loop Bench.env HW6_2_OOP_py Bench.one_loop
           [3]%float (Bench.built HW6_2_OOP_py) s' res H).
Defined.

(** From the pipe as built, with [Q = 10], and from the pipe with
    [Q = 7], the trial flow 3 gives the same residuals. *)
Lemma fn_Problem_2_forgets_the_old_flows_witness :
  (forall res t,
     fn Bench.env Problem_2_py Bench.one_loop [3]%float (Bench.built Problem_2_py)
     = Returns (res, t) ->
     exists t',
       fn Bench.env Problem_2_py Bench.one_loop [3]%float (Bench.with_Q Problem_2_py 7)
       = Returns (res, t')) /\
  (forall e,
     fn Bench.env Problem_2_py Bench.one_loop [3]%float (Bench.built Problem_2_py)
     = Raises e ->
     fn Bench.env Problem_2_py Bench.one_loop [3]%float (Bench.with_Q Problem_2_py 7)
     = Raises e).
Proof.
  apply (fn_Problem_2_forgets_the_old_flows Bench.env Bench.one_loop [3]%float
           (Bench.built Problem_2_py) (Bench.with_Q Problem_2_py 7)).
  - intros n [<-|[<-|[]]]; intros a Ha; exact Ha.
  - intros L [<-|[]]; intros a Ha; exact Ha.
  - reflexivity.
  - intros [|a]; vm_compute; reflexivity.
Defined.

(** The triangle: no node before the call, three names after it. *)
Lemma buildNodes_names_each_node_once_witness :
  NoDup (map Node.name
           (nodes (buildNodes (heap (Bench.triangle Problem_2_py)) Bench.three_pipes))).
Proof.
  apply (buildNodes_names_each_node_once (heap (Bench.triangle Problem_2_py))
           Bench.three_pipes).
  constructor.
Defined.

(** The node [a] of the triangle holds the pipes [a-b] and [a-c]. *)
Lemma buildNodes_gives_each_node_its_pipes_witness :
  let h := heap (Bench.triangle Problem_2_py) in
  let n := {| Node.name := "a"; Node.pipes := [0; 2]%nat; Node.extFlow := 0 |} in
  Node.extFlow n = 0%float /\
  Node.pipes n = filter (fun p => oContainsNode (h p) (Node.name n)) (pipes Bench.three_pipes) /\
  (forall p, In p (Node.pipes n) <->
             In p (pipes Bench.three_pipes) /\
             (Pipe.startNode (h p) = Node.name n \/ Pipe.endNode (h p) = Node.name n)) /\
  exists p, In p (pipes Bench.three_pipes) /\
            (Node.name n = Pipe.startNode (h p) \/ Node.name n = Pipe.endNode (h p)).
Proof.
  intros h n.
  apply (buildNodes_gives_each_node_its_pipes h Bench.three_pipes n).
  vm_compute. left. reflexivity.
Defined.

(** The node [c] of the triangle is the third one built. *)
Lemma getNode_finds_every_end_witness :
  let h := heap (Bench.triangle Problem_2_py) in
  exists pre n post,
    nodes (buildNodes h Bench.three_pipes) = pre ++ n :: post /\
    (forall n', In n' pre -> Node.name n' <> "c") /\
    Node.name n = "c" /\
    getNode (buildNodes h Bench.three_pipes) "c" = Some (List.length pre) /\
    set_extFlow_by_name (buildNodes h Bench.three_pipes) "c" 60
    = Returns {| loops := loops Bench.three_pipes;
                 nodes := pre ++ {| Node.name := Node.name n; Node.pipes := Node.pipes n;
                                    Node.extFlow := 60 |} :: post;
                 Fluid_ := Fluid_ Bench.three_pipes;
                 pipes := pipes Bench.three_pipes |}.
Proof.
  intros h.
  apply (getNode_finds_every_end h Bench.three_pipes 1 "c" 60).
  - right. left. reflexivity.
  - right. vm_compute. reflexivity.
Defined.

(** The bench pipe, and the same pipe with another flow. *)
Lemma Name_tells_the_end_nodes_witness :
  let p := heap (Bench.built Problem_2_py) 0 in
  let p' := Pipe.set_Q p 3 in
  Pipe.startNode p = Pipe.startNode p' /\ Pipe.endNode p = Pipe.endNode p'.
Proof.
  intros p p'. apply (Name_tells_the_end_nodes p p'); vm_compute; reflexivity.
Defined.

(** The bench pipe after [pipe.Q = 4000]. *)
Lemma frictionHeadLoss_HW6_2_OOP_ignores_Q_witness :
  match frictionHeadLoss Bench.env HW6_2_OOP_py 0 (Bench.built HW6_2_OOP_py),
        frictionHeadLoss Bench.env HW6_2_OOP_py 0 (Bench.with_Q HW6_2_OOP_py 4000) with
  | Returns (hl, _), Returns (hl', _) => hl = hl'
  | Raises e, Raises e' => e = e'
  | _, _ => False
  end.
Proof.
  apply (frictionHeadLoss_HW6_2_OOP_ignores_Q Bench.env 0 4000
           (Bench.built HW6_2_OOP_py) (Bench.with_Q HW6_2_OOP_py 4000) tt).
  vm_compute. reflexivity.
Defined.

End OnTheBench.
